(** * SWEAP-Scripts: reconciliation of a JSON result set with a test log

    A shallow embedding of the three scripts [script.py] (generic
    line-oriented logs), [script_cpp.py] (gtest logs) and [script_rust.py]
    (cargo-test logs), and the properties of their status canonicalizer,
    extractors and comparator.

    Texts are Rocq strings.  On ASCII text, which is what every token of
    the three scripts is, a character is a code point and the character
    classes ([is_space], [is_word], case mapping, line boundaries) are
    Python's; a character above 127 stands for a byte of a UTF-8 sequence,
    belongs to no class and is left alone by the case maps.  Dictionaries
    with string keys are [gmap string _]; the sets of names built by
    [compare] are [gset string]. *)

From Stdlib Require Import Ascii String NArith ZArith.
From Stdlib Require PrimFloat.
From stdpp Require Import gmap strings list fin_maps sorting pretty.

Local Set Warnings "-clear-no-such-hyp".
Local Open Scope string_scope.
Local Open Scope nat_scope.
Local Open Scope list_scope.
Local Open Scope stdpp_scope.

(** ** Python's string built-ins, as far as the scripts use them *)

Module Py.

Definition code (c : ascii) : N := N_of_ascii c.

Definition between (lo hi : N) (c : ascii) : bool :=
  ((lo <=? code c) && (code c <=? hi))%N.

(** [str.isspace] on ASCII: TAB, LF, VT, FF, CR, FS, GS, RS, US, SPACE.
    The same class is what [str.strip] removes and what [\s] matches. *)
Definition is_space (c : ascii) : bool :=
  between 9 13 c || between 28 32 c.

(** [\w] on ASCII: letters, digits and the underscore. *)
Definition is_word (c : ascii) : bool :=
  between 48 57 c || between 65 90 c || between 97 122 c || (code c =? 95)%N.

(** Line boundaries of [str.splitlines] on ASCII:
    LF, VT, FF, CR, FS, GS, RS (CR LF counts once). *)
Definition is_linebreak (c : ascii) : bool :=
  between 10 13 c || between 28 30 c.

Definition is_ascii (c : ascii) : bool := (code c <? 128)%N.

Definition upper_char (c : ascii) : ascii :=
  if between 97 122 c then ascii_of_N (code c - 32) else c.

Definition lower_char (c : ascii) : ascii :=
  if between 65 90 c then ascii_of_N (code c + 32) else c.

Fixpoint map (f : ascii → ascii) (s : string) : string :=
  match s with
  | "" => ""
  | String c s' => String (f c) (map f s')
  end.

Definition upper : string → string := map upper_char.
Definition lower : string → string := map lower_char.

Fixpoint all (p : ascii → bool) (s : string) : bool :=
  match s with
  | "" => true
  | String c s' => p c && all p s'
  end.

Fixpoint lstrip (s : string) : string :=
  match s with
  | "" => ""
  | String c s' => if is_space c then lstrip s' else s
  end.

Fixpoint rstrip (s : string) : string :=
  match s with
  | "" => ""
  | String c s' =>
      match rstrip s' with
      | "" => if is_space c then "" else String c ""
      | r => String c r
      end
  end.

Definition strip (s : string) : string := rstrip (lstrip s).

(** Truth value of a string: [if s], [not s]. *)
Definition truthy (s : string) : bool :=
  match s with "" => false | _ => true end.

(** [s[:n]] *)
Fixpoint take (n : nat) (s : string) : string :=
  match n, s with
  | S n', String c s' => String c (take n' s')
  | _, _ => ""
  end.

(** [s.startswith(p)] *)
Fixpoint startswith (p s : string) : bool :=
  match p, s with
  | "", _ => true
  | String a p', String b s' => if decide (a = b) then startswith p' s' else false
  | String _ _, "" => false
  end.

(** [p in s] *)
Fixpoint contains (p s : string) : bool :=
  startswith p s ||
  match s with
  | "" => false
  | String _ s' => contains p s'
  end.

(** [s.splitlines()]: [cur] is the line being read, reversed.  A line is
    emitted at each boundary, and at the end of the text when characters
    follow the last boundary. *)
Fixpoint splitlines_go (cur : string) (s : string) : list string :=
  match s with
  | "" => match cur with "" => [] | _ => [String.rev cur] end
  | String c s' =>
      if is_linebreak c then
        String.rev cur ::
          match s' with
          | String c' s'' =>
              if decide (c = "013"%char ∧ c' = "010"%char)
              then splitlines_go "" s''
              else splitlines_go "" s'
          | "" => []
          end
      else splitlines_go (String c cur) s'
  end.

Definition splitlines (s : string) : list string := splitlines_go "" s.

(** [sep.join(xs)] *)
Fixpoint join (sep : string) (xs : list string) : string :=
  match xs with
  | [] => ""
  | [x] => x
  | x :: xs' => x +:+ sep +:+ join sep xs'
  end.

Definition newline : string := String "010"%char "".

(** A text given by its lines. *)
Definition text (lines : list string) : string := join newline lines.

(** [sorted(xs)] on strings: ascending in the code-point order.  The
    order is total and antisymmetric, so the result does not depend on
    the order in which a set hands out its elements. *)
Definition sorted (xs : list string) : list string := merge_sort String.le xs.

End Py.

(** ** Regular expressions: the fragment of [re] the scripts use

    Patterns are data, matched by a backtracking interpreter that tries
    alternatives in the order [re] does: the branches of [|] left to
    right, a greedy repetition from the longest run down, a lazy one from
    the shortest run up, an optional group first with and then without
    its body.  The first complete match wins. *)

Module Re.

Inductive regex : Type :=
| Lit (s : string)                              (* literal text *)
| Seq (r1 r2 : regex)                           (* r1 r2 *)
| Alt (r1 r2 : regex)                           (* r1|r2 *)
| Rep (greedy : bool) (min : nat) (p : ascii → bool)
                                                (* c*, c+, c+? on a class *)
| Opt (r : regex)                               (* (?:r)? *)
| Grp (name : string) (r : regex)               (* (?P<name>r) *)
| Bnd                                           (* \b *)
| Bol                                           (* ^ *)
| Eol.                                          (* $ *)

(** [.] without DOTALL, and [\s]. *)
Definition dot (c : ascii) : bool := negb (Ascii.eqb c "010"%char).
Definition space : ascii → bool := Py.is_space.

(** Position in the subject: the character just read (none at the
    start) and the text still to read. *)
Record cursor : Type := Cursor { prev : option ascii; rest : string }.

Abbreviation groups := (gmap string string).

Definition is_word_opt (o : option ascii) : bool :=
  match o with Some c => Py.is_word c | None => false end.

Definition next (c : cursor) : option ascii :=
  match rest c with String a _ => Some a | "" => None end.

Definition at_boundary (c : cursor) : bool :=
  xorb (is_word_opt (prev c)) (is_word_opt (next c)).

(** [$] without MULTILINE: the end, or just before a final newline. *)
Definition at_end (c : cursor) : bool :=
  match rest c with
  | "" => true
  | String a "" => Ascii.eqb a "010"%char
  | _ => false
  end.

Fixpoint eat (s : string) (c : cursor) : option cursor :=
  match s with
  | "" => Some c
  | String a s' =>
      match rest c with
      | String b t => if decide (a = b) then eat s' (Cursor (Some b) t) else None
      | "" => None
      end
  end.

(** The text read between two positions of one scan. *)
Definition consumed (c c' : cursor) : string :=
  Py.take (String.length (rest c) - String.length (rest c')) (rest c).

Section Run.
Context {R : Type}.

Fixpoint rep_greedy (p : ascii → bool) (k : cursor → option R)
    (min : nat) (pv : option ascii) (s : string) : option R :=
  let stop := match min with 0 => k (Cursor pv s) | S _ => None end in
  match s with
  | String a s' =>
      if p a then
        match rep_greedy p k (pred min) (Some a) s' with
        | Some x => Some x
        | None => stop
        end
      else stop
  | "" => stop
  end.

Fixpoint rep_lazy (p : ascii → bool) (k : cursor → option R)
    (min : nat) (pv : option ascii) (s : string) : option R :=
  let more :=
    match s with
    | String a s' => if p a then rep_lazy p k (pred min) (Some a) s' else None
    | "" => None
    end in
  match min with
  | 0 => match k (Cursor pv s) with Some x => Some x | None => more end
  | S _ => more
  end.

Fixpoint run (r : regex) (c : cursor) (g : groups)
    (k : cursor → groups → option R) : option R :=
  match r with
  | Lit s => match eat s c with Some c' => k c' g | None => None end
  | Seq r1 r2 => run r1 c g (λ c' g', run r2 c' g' k)
  | Alt r1 r2 =>
      match run r1 c g k with Some x => Some x | None => run r2 c g k end
  | Rep greedy min p =>
      (if greedy then rep_greedy else rep_lazy)
        p (λ c', k c' g) min (prev c) (rest c)
  | Opt r' =>
      match run r' c g k with Some x => Some x | None => k c g end
  | Grp name r' => run r' c g (λ c' g', k c' (<[name := consumed c c']> g'))
  | Bnd => if at_boundary c then k c g else None
  | Bol => match prev c with None => k c g | Some _ => None end
  | Eol => if at_end c then k c g else None
  end.
End Run.

(** [pattern.match(s)]: a match anchored at the start of [s]; the result
    is the position where the match ends and the captured groups. *)
Definition rmatch (r : regex) (s : string) : option (cursor * groups) :=
  run r (Cursor None s) ∅ (λ c g, Some (c, g)).

(** [m.group(name)] *)
Definition group (m : cursor * groups) (name : string) : string :=
  m.2 !!! name.

(** [re.sub(pattern, "", s)]: scan left to right, delete each match and
    resume after it; each round reads at least one character, so the
    length of the subject bounds the number of rounds. *)
Fixpoint sub_go (fuel : nat) (r : regex) (pv : option ascii) (s : string) : string :=
  match fuel with
  | 0 => s
  | S fuel' =>
      let skip :=
        match s with
        | String a s' => String a (sub_go fuel' r (Some a) s')
        | "" => ""
        end in
      match run r (Cursor pv s) ∅ (λ c _, Some c) with
      | Some c' =>
          if decide (String.length (rest c') < String.length s)
          then sub_go fuel' r (prev c') (rest c')
          else skip
      | None => skip
      end
  end.

Definition sub_delete (r : regex) (s : string) : string :=
  sub_go (S (String.length s)) r None s.

(** What a successful run guarantees about the text it read and the
    groups it set, whatever order the alternatives were tried in. *)
Fixpoint matches (r : regex) (c : cursor) (g : groups)
    (c' : cursor) (g' : groups) : Prop :=
  match r with
  | Lit s => rest c = s +:+ rest c' ∧ g' = g
  | Seq r1 r2 => ∃ c1 g1, matches r1 c g c1 g1 ∧ matches r2 c1 g1 c' g'
  | Alt r1 r2 => matches r1 c g c' g' ∨ matches r2 c g c' g'
  | Rep _ min p =>
      ∃ s, rest c = s +:+ rest c' ∧ Py.all p s = true
           ∧ (min ≤ String.length s)%nat ∧ g' = g
  | Opt r' => matches r' c g c' g' ∨ (c' = c ∧ g' = g)
  | Grp name r' => ∃ g1, matches r' c g c' g1 ∧ g' = <[name := consumed c c']> g1
  | Bnd => c' = c ∧ g' = g ∧ at_boundary c = true
  | Bol => c' = c ∧ g' = g ∧ prev c = None
  | Eol => c' = c ∧ g' = g ∧ at_end c = true
  end.

End Re.

Declare Scope re_scope.
Delimit Scope re_scope with re.
Bind Scope re_scope with Re.regex.
Infix "⋅" := Re.Seq (at level 41, right associativity) : re_scope.
Infix "∣" := Re.Alt (at level 42, right associativity) : re_scope.

(** ** Python values and exceptions

    [pyval] is what [json.loads] can return.  A [dict] is the list of its
    items in insertion order, keys distinct. *)

#[warnings="-register-all"]
Inductive pyval : Type :=
| PNone
| PBool (b : bool)
| PInt (z : Z)
| PFloat (f : PrimFloat.float)
| PStr (s : string)
| PList (l : list pyval)
| PDict (items : list (string * pyval)).

(** The [ValueError]s the scripts raise, by raise site, with the data
    their messages carry. *)
Inductive failure : Type :=
| NoTestList                    (* JSON does not contain a list of tests *)
| NotJson (line : nat) (preview : string) (head : string)
                                (* JSON parse failed ... Problem at line .. *)
| EntryNotObject (i : nat) (item : pyval)
                                (* Test entry {i} is not an object *)
| EntryMissingName (i : nat)    (* Test entry {i} missing 'name' *)
| ZeroTests                     (* Parsed JSON but found zero tests. *)
| ZeroOutcomeLines.             (* Parsed log but found zero ... lines. *)

(** [TypeError] and [AttributeError] are raised by the interpreter when
    a decoded document has not the shape the code takes for granted. *)
Inductive exn : Type :=
| ValueError (why : failure)
| TypeError
| AttributeError.

Inductive res (A : Type) : Type :=
| Ok (a : A)
| Raise (e : exn).
Arguments Ok {A} a.
Arguments Raise {A} e.

#[global] Instance res_ret : MRet res := λ A a, Ok a.
#[global] Instance res_bind : MBind res := λ A B f m,
  match m with Ok a => f a | Raise e => Raise e end.

(** A loop body run over a list, stopping at the first exception. *)
Fixpoint for_each {A S : Type} (body : S → A → res S) (s : S) (xs : list A)
    : res S :=
  match xs with
  | [] => Ok s
  | x :: xs' => s' ← body s x; for_each body s' xs'
  end.

Module Obj.

(** [bool(v)] *)
Definition truthy (v : pyval) : bool :=
  match v with
  | PNone => false
  | PBool b => b
  | PInt z => negb (z =? 0)%Z
  | PFloat f => negb (PrimFloat.eqb f PrimFloat.zero)
  | PStr s => Py.truthy s
  | PList l => match l with [] => false | _ => true end
  | PDict d => match d with [] => false | _ => true end
  end.

(** [a or b] *)
Definition or (a b : pyval) : pyval := if truthy a then a else b.

Fixpoint lookup (d : list (string * pyval)) (k : string) : option pyval :=
  match d with
  | [] => None
  | (k', v) :: d' => if decide (k' = k) then Some v else lookup d' k
  end.

(** [d.get(k, dflt)] on a dict *)
Definition get (d : list (string * pyval)) (k : string) (dflt : pyval) : pyval :=
  default dflt (lookup d k).

(** [v.get(k, dflt)] on any value *)
Definition get_attr (v : pyval) (k : string) (dflt : pyval) : res pyval :=
  match v with
  | PDict d => Ok (get d k dflt)
  | _ => Raise AttributeError
  end.

(** [v.strip()] on any value *)
Definition strip_attr (v : pyval) : res string :=
  match v with
  | PStr s => Ok (Py.strip s)
  | _ => Raise AttributeError
  end.

Fixpoint chars (s : string) : list pyval :=
  match s with
  | "" => []
  | String c s' => PStr (String c "") :: chars s'
  end.

(** [for x in v] *)
Definition iter (v : pyval) : res (list pyval) :=
  match v with
  | PList l => Ok l
  | PDict d => Ok ((λ kv, PStr kv.1) <$> d)
  | PStr s => Ok (chars s)
  | _ => Raise TypeError
  end.

End Obj.

(** [ln[:160] + "…"] when the line is longer than 160, else [ln]. *)
Definition ellipsis : string := "…".

Definition preview_of (ln : string) : string :=
  if decide (160 < String.length ln) then Py.take 160 ln +:+ ellipsis else ln.

Definition quoted (s : string) : string :=
  String "034"%char s +:+ String "034"%char "".

(** ** Code the three scripts have in common

    [_canon_status], [_extract_tests_array], [parse_results_json] and
    [compare] read the same in the three files; only the table
    [CANON_STATUSES] differs.  The decoder [json.loads] and the rendering
    [str()] of a value that is not a string belong to the interpreter and
    are parameters: [json_loads s = None] stands for [JSONDecodeError];
    a text on which the decoder raises another exception, such as a
    recursion or digit limit, is outside the model.
    The extractors take the text that [_ensure_file_ok] has read. *)

Record ComparisonResult : Type := {
  same : bool;
  counts_equal : bool;
  names_equal : bool;
  statuses_equal : bool;
  count_json : nat;
  count_log : nat;
  only_in_json : list string;
  only_in_log : list string;
  status_mismatches : list (string * string * string);
}.

(** The file layer.  [path_state] is what [_ensure_file_ok] observes of the
    resolved path: nothing there, a directory, or anything else, with the
    size [stat] reports and the text [read_text] returns. *)
Inductive path_state : Type :=
| Absent
| Directory
| Regular (st_size : nat) (text : string).

(** The exceptions of [_ensure_file_ok], each with the label it names. *)
Inductive file_error : Type :=
| NotFound (label : string)          (* FileNotFoundError *)
| IsADirectory (label : string)      (* IsADirectoryError *)
| EmptyFile (label : string)         (* ValueError: {label} is empty *)
| OnlyWhitespace (label : string).   (* ValueError: only whitespace *)

(** What ends a run of [main] with exit status 2. *)
Inductive run_error : Type :=
| BadFile (e : file_error)
| Raised (e : exn).

Module Common.

Section Script.
Variable json_loads : string → option pyval.
Variable py_repr : pyval → string.
Variable CANON_STATUSES : gmap string string.

(** [str(v)] *)
Definition str (v : pyval) : string :=
  match v with PStr s => s | _ => py_repr v end.

Definition _canon_status (s : string) : string :=
  let s := Py.upper (Py.strip s) in
  default s (CANON_STATUSES !! s).

Fixpoint first_list (d : list (string * pyval)) (ks : list string)
    : option (list pyval) :=
  match ks with
  | [] => None
  | k :: ks' =>
      match Obj.get d k PNone with
      | PList l => Some l
      | _ => first_list d ks'
      end
  end.

Definition _extract_tests_array (obj : pyval) : res (list pyval) :=
  match obj with
  | PList l => Ok l
  | PDict d =>
      match first_list d ["tests"; "items"; "results"; "cases"] with
      | Some l => Ok l
      | None => Raise (ValueError NoTestList)
      end
  | _ => Raise (ValueError NoTestList)
  end.

(** The non-blank lines, [[ln for ln in txt.splitlines() if ln.strip()]]. *)
Definition nonblank_lines (txt : string) : list string :=
  filter (λ ln, Py.strip ln ≠ "") (Py.splitlines txt).

(** [for i, ln in enumerate(lines, 1): objs.append(json.loads(ln))] *)
Fixpoint ndjson_objs (txt : string) (i : nat) (lines : list string)
    : res (list pyval) :=
  match lines with
  | [] => Ok []
  | ln :: lines' =>
      match json_loads ln with
      | Some v => objs ← ndjson_objs txt (S i) lines'; Ok (v :: objs)
      | None => Raise (ValueError (NotJson i (preview_of ln) (Py.take 160 txt)))
      end
  end.

(** [for i, item in enumerate(tests): ...] *)
Fixpoint entries (i : nat) (tests : list pyval) (result : gmap string string)
    : res (gmap string string) :=
  match tests with
  | [] => Ok result
  | item :: tests' =>
      match item with
      | PDict d =>
          let name := Py.strip (str (Obj.get d "name" (PStr ""))) in
          if Py.truthy name then
            let status :=
              _canon_status (Py.strip (str (Obj.get d "status" (PStr "")))) in
            entries (S i) tests' (<[name := status]> result)
          else Raise (ValueError (EntryMissingName i))
      | _ => Raise (ValueError (EntryNotObject i item))
      end
  end.

Definition parse_results_json (txt : string) : res (gmap string string) :=
  tests ← match json_loads txt with
          | Some data => _extract_tests_array data
          | None =>
              objs ← ndjson_objs txt 1 (nonblank_lines txt);
              _extract_tests_array (PList objs)
          end;
  result ← entries 0 tests ∅;
  if decide (result = ∅) then Raise (ValueError ZeroTests) else Ok result.

End Script.

Definition _ensure_file_ok (p : path_state) (label : string) : file_error + string :=
  match p with
  | Absent => inl (NotFound label)
  | Directory => inl (IsADirectory label)
  | Regular size text =>
      if decide (size = 0) then inl (EmptyFile label)
      else if negb (Py.truthy (Py.strip text)) then inl (OnlyWhitespace label)
      else inr text
  end.

Definition compare (json_results log_results : gmap string string)
    : ComparisonResult :=
  let json_names : gset string := dom json_results in
  let log_names : gset string := dom log_results in
  let only_in_json := Py.sorted (elements (json_names ∖ log_names)) in
  let only_in_log := Py.sorted (elements (log_names ∖ json_names)) in
  let status_mismatches :=
    (λ n, (n, json_results !!! n, log_results !!! n)) <$>
      filter (λ n, json_results !!! n ≠ log_results !!! n)
        (Py.sorted (elements (json_names ∩ log_names))) in
  let counts_equal := bool_decide (size json_names = size log_names) in
  let names_equal :=
    bool_decide (only_in_json = []) && bool_decide (only_in_log = []) in
  let statuses_equal := bool_decide (status_mismatches = []) in
  let same := counts_equal && names_equal && statuses_equal in
  {| same := same;
     counts_equal := counts_equal;
     names_equal := names_equal;
     statuses_equal := statuses_equal;
     count_json := size json_names;
     count_log := size log_names;
     only_in_json := only_in_json;
     only_in_log := only_in_log;
     status_mismatches := status_mismatches |}.

(** [main], with the two extractors of the script as parameters: the
    files are read and parsed in the order JSON, log; the first exception
    ends the run (exit status 2), otherwise the comparison is reported
    (exit status 0).  [fs] gives the state of a path. *)
Definition main_with
    (parse_json parse_log : string → res (gmap string string))
    (json_path log_path : string) (fs : string → path_state)
    : run_error + ComparisonResult :=
  match _ensure_file_ok (fs json_path) "JSON file" with
  | inl e => inl (BadFile e)
  | inr json_txt =>
      match parse_json json_txt with
      | Raise e => inl (Raised e)
      | Ok json_results =>
          match _ensure_file_ok (fs log_path) "Log file" with
          | inl e => inl (BadFile e)
          | inr log_txt =>
              match parse_log log_txt with
              | Raise e => inl (Raised e)
              | Ok log_results => inr (compare json_results log_results)
              end
          end
      end
  end.

End Common.

(** ** script.py: generic line-oriented logs *)

Module script.

Definition CANON_STATUSES : gmap string string :=
  list_to_map [
    ("PASSED", "PASSED");
    ("FAILED", "FAILED");
    ("SKIPPED", "SKIPPED");
    ("XFAILED", "XFAILED");
    ("XPASS", "XPASS");
    ("ERROR", "ERROR")
  ].

(** The verbose pattern
      ^ (?P<name> .+? ) \s+
      (?P<status> PASSED|FAILED|SKIPPED|XFAILED|XPASS|ERROR|RERUN )
      (?: \b .* )? $ *)
Definition LOG_LINE_RE : Re.regex :=
  (Re.Bol ⋅ Re.Grp "name" (Re.Rep false 1 Re.dot) ⋅ Re.Rep true 1 Re.space ⋅
   Re.Grp "status"
     (Re.Lit "PASSED" ∣ Re.Lit "FAILED" ∣ Re.Lit "SKIPPED" ∣ Re.Lit "XFAILED" ∣
      Re.Lit "XPASS" ∣ Re.Lit "ERROR" ∣ Re.Lit "RERUN") ⋅
   Re.Opt (Re.Bnd ⋅ Re.Rep true 0 Re.dot) ⋅ Re.Eol)%re.

(** The status tokens of [LOG_LINE_RE], in the order of the alternation. *)
Definition STATUS_TOKENS : list string :=
  ["PASSED"; "FAILED"; "SKIPPED"; "XFAILED"; "XPASS"; "ERROR"; "RERUN"].

Definition _canon_status : string → string :=
  Common._canon_status CANON_STATUSES.

Definition parse_results_json (json_loads : string → option pyval)
    (py_repr : pyval → string) : string → res (gmap string string) :=
  Common.parse_results_json json_loads py_repr CANON_STATUSES.

(** One round of [for raw in txt.splitlines(): ...]. *)
Definition log_line (last_status : gmap string string) (raw : string)
    : gmap string string :=
  let line := Py.strip raw in
  if negb (Py.truthy line) then last_status else
  match Re.rmatch LOG_LINE_RE line with
  | None => last_status
  | Some m =>
      let name := Py.strip (Re.group m "name") in
      let status := _canon_status (Re.group m "status") in
      if decide (status = "RERUN") then last_status
      else <[name := status]> last_status
  end.

(** What a round of the loop reads off a raw line: the name and the status
    token, when the stripped line is not blank and matches the pattern. *)
Definition reads (raw : string) : option (string * string) :=
  let line := Py.strip raw in
  if negb (Py.truthy line) then None else
  m ← Re.rmatch LOG_LINE_RE line;
  Some (Py.strip (Re.group m "name"), Re.group m "status").

Definition parse_pytest_log (txt : string) : res (gmap string string) :=
  let last_status := foldl log_line ∅ (Py.splitlines txt) in
  if decide (last_status = ∅) then Raise (ValueError ZeroOutcomeLines)
  else Ok last_status.

Definition compare := Common.compare.

Definition JSON_PATH : string := "path/to/json".
Definition LOG_PATH : string := "path/to/log file".

Definition main (json_loads : string → option pyval) (py_repr : pyval → string)
    : (string → path_state) → run_error + ComparisonResult :=
  Common.main_with (parse_results_json json_loads py_repr) parse_pytest_log
    JSON_PATH LOG_PATH.

End script.

(** ** script_cpp.py: gtest logs *)

Module script_cpp.

Definition CANON_STATUSES : gmap string string :=
  list_to_map [
    ("PASSED", "PASSED");
    ("FAILED", "FAILED");
    ("SKIPPED", "SKIPPED");
    ("XFAILED", "XFAILED");
    ("XPASS", "XPASS");
    ("ERROR", "ERROR");
    ("OK", "PASSED")
  ].

(** The verbose pattern
      ^ \[ \s*  (?P<tag> OK|FAILED|SKIPPED )  \s* \] \s+
      (?P<name> .+? )  (?: \s+ \( .* \) )?  \s* $ *)
Definition GTEST_OUTCOME_RE : Re.regex :=
  (Re.Bol ⋅ Re.Lit "[" ⋅ Re.Rep true 0 Re.space ⋅
   Re.Grp "tag" (Re.Lit "OK" ∣ Re.Lit "FAILED" ∣ Re.Lit "SKIPPED") ⋅
   Re.Rep true 0 Re.space ⋅ Re.Lit "]" ⋅ Re.Rep true 1 Re.space ⋅
   Re.Grp "name" (Re.Rep false 1 Re.dot) ⋅
   Re.Opt (Re.Rep true 1 Re.space ⋅ Re.Lit "(" ⋅ Re.Rep true 0 Re.dot ⋅ Re.Lit ")") ⋅
   Re.Rep true 0 Re.space ⋅ Re.Eol)%re.

(** The pattern  ^ \[ \s* FAILED \s* \] \s+ (?P<name> .+? ) \s* $ *)
Definition GTEST_SUMMARY_FAIL_RE : Re.regex :=
  (Re.Bol ⋅ Re.Lit "[" ⋅ Re.Rep true 0 Re.space ⋅ Re.Lit "FAILED" ⋅
   Re.Rep true 0 Re.space ⋅ Re.Lit "]" ⋅ Re.Rep true 1 Re.space ⋅
   Re.Grp "name" (Re.Rep false 1 Re.dot) ⋅
   Re.Rep true 0 Re.space ⋅ Re.Eol)%re.

(** The pattern  \s+ \( .* \) \s* $  that [_sanitize_gtest_name] deletes *)
Definition SUFFIX_RE : Re.regex :=
  (Re.Rep true 1 Re.space ⋅ Re.Lit "(" ⋅ Re.Rep true 0 Re.dot ⋅ Re.Lit ")" ⋅
   Re.Rep true 0 Re.space ⋅ Re.Eol)%re.

Definition _canon_status : string → string :=
  Common._canon_status CANON_STATUSES.

Definition _sanitize_gtest_name (name : string) : string :=
  Py.strip (Re.sub_delete SUFFIX_RE name).

Section Decoder.
Variable json_loads : string → option pyval.
Variable py_repr : pyval → string.

Definition parse_results_json : string → res (gmap string string) :=
  Common.parse_results_json json_loads py_repr CANON_STATUSES.

Abbreviation str := (Common.str py_repr).

(** One round of [for tc in cases: ...], within the suite [ts]. *)
Definition case_step (ts : list (string * pyval))
    (results : gmap string string) (tc : pyval) : res (gmap string string) :=
  classname ← Obj.get_attr tc "classname" PNone;
  suite ← Obj.strip_attr
            (Obj.or (Obj.or classname (Obj.get ts "name" PNone)) (PStr ""));
  name_v ← Obj.get_attr tc "name" (PStr "");
  let test := Py.strip (str name_v) in
  if negb (Py.truthy test) then Ok results else
  let name := if Py.truthy suite then suite +:+ "." +:+ test else test in
  status_v ← Obj.get_attr tc "status" (PStr "");
  result_v ← Obj.get_attr tc "result" (PStr "");
  if bool_decide (Py.upper (str status_v) = "SKIPPED")
     || bool_decide (Py.upper (str result_v) = "SKIPPED")
  then Ok (<[name := "SKIPPED"]> results) else
  ok ← Obj.get_attr tc "ok" PNone;
  match ok with
  | PBool b => Ok (<[name := if b then "PASSED" else "FAILED"]> results)
  | _ =>
      let r := Py.upper (Py.strip (str result_v)) in
      if bool_decide (r ∈ ["PASSED"; "SUCCESS"; "COMPLETED"])
      then Ok (<[name := "PASSED"]> results)
      else if bool_decide (r ∈ ["FAILED"; "FAILURE"])
      then Ok (<[name := "FAILED"]> results)
      else if bool_decide (r = "SKIPPED")
      then Ok (<[name := "SKIPPED"]> results)
      else Ok results
  end.

(** One round of [for ts in obj.get("testsuites", []): ...]. *)
Definition suite_step (results : gmap string string) (ts : pyval)
    : res (gmap string string) :=
  match ts with
  | PDict d =>
      let cases :=
        Obj.or (Obj.or (Obj.get d "testsuite" PNone)
                       (Obj.get d "tests" (PList [])))
               (PList []) in
      tcs ← Obj.iter cases;
      for_each (case_step d) results tcs
  | _ => Raise AttributeError
  end.

Definition _parse_gtest_json (txt : string) : res (gmap string string) :=
  match json_loads txt with
  | None => Ok ∅
  | Some obj =>
      match obj with
      | PDict d =>
          match Obj.lookup d "testsuites" with
          | None => Ok ∅
          | Some suites =>
              tss ← Obj.iter suites;
              for_each suite_step ∅ tss
          end
      | _ => Ok ∅
      end
  end.

(** One round of the line scan of [parse_gtest_log]. *)
Definition gtest_line (results : gmap string string) (raw : string)
    : gmap string string :=
  let line := Py.rstrip raw in
  if negb (Py.truthy line) then results else
  match Re.rmatch GTEST_OUTCOME_RE line with
  | Some m =>
      let tag := Py.upper (Re.group m "tag") in
      let name := _sanitize_gtest_name (Re.group m "name") in
      let status := _canon_status tag in
      <[name := status]> results
  | None =>
      match Re.rmatch GTEST_SUMMARY_FAIL_RE line with
      | Some m2 =>
          let name := _sanitize_gtest_name (Re.group m2 "name") in
          <[name := "FAILED"]> results
      | None => results
      end
  end.

(** What a round of the scan reads off a raw line: the name and the
    status it sets, when the line matches one of the two patterns. *)
Definition sets (raw : string) : option (string * string) :=
  let line := Py.rstrip raw in
  if negb (Py.truthy line) then None else
  match Re.rmatch GTEST_OUTCOME_RE line with
  | Some m =>
      Some (_sanitize_gtest_name (Re.group m "name"),
            _canon_status (Py.upper (Re.group m "tag")))
  | None =>
      m2 ← Re.rmatch GTEST_SUMMARY_FAIL_RE line;
      Some (_sanitize_gtest_name (Re.group m2 "name"), "FAILED")
  end.

(** The line scan, lines 163-186 of [parse_gtest_log]. *)
Definition gtest_text (txt : string) : res (gmap string string) :=
  let results := foldl gtest_line ∅ (Py.splitlines txt) in
  if decide (results = ∅) then Raise (ValueError ZeroOutcomeLines)
  else Ok results.

Definition parse_gtest_log (txt : string) : res (gmap string string) :=
  json_results ← _parse_gtest_json txt;
  if decide (json_results ≠ ∅) then Ok json_results
  else gtest_text txt.

End Decoder.

Definition compare := Common.compare.

Definition JSON_PATH : string := "path/to/json".
Definition LOG_PATH : string := "path/to/gtest.log".

Definition main (json_loads : string → option pyval) (py_repr : pyval → string)
    : (string → path_state) → run_error + ComparisonResult :=
  Common.main_with (parse_results_json json_loads py_repr)
    (parse_gtest_log json_loads py_repr) JSON_PATH LOG_PATH.

End script_cpp.

(** ** script_rust.py: cargo-test logs *)

Module script_rust.

Definition CANON_STATUSES : gmap string string :=
  list_to_map [
    ("PASSED", "PASSED");
    ("FAILED", "FAILED");
    ("SKIPPED", "SKIPPED");
    ("XFAILED", "XFAILED");
    ("XPASS", "XPASS");
    ("ERROR", "ERROR");
    ("OK", "PASSED");
    ("IGNORED", "SKIPPED")
  ].

(** The verbose pattern
      ^test \s+  (?P<name> .+? )  \s+ \.\.\. \s+
      (?P<status> ok|FAILED|ignored )  (?: \b .* )? $ *)
Definition RUST_TEST_LINE_RE : Re.regex :=
  (Re.Bol ⋅ Re.Lit "test" ⋅ Re.Rep true 1 Re.space ⋅
   Re.Grp "name" (Re.Rep false 1 Re.dot) ⋅
   Re.Rep true 1 Re.space ⋅ Re.Lit "..." ⋅ Re.Rep true 1 Re.space ⋅
   Re.Grp "status" (Re.Lit "ok" ∣ Re.Lit "FAILED" ∣ Re.Lit "ignored") ⋅
   Re.Opt (Re.Bnd ⋅ Re.Rep true 0 Re.dot) ⋅ Re.Eol)%re.

Definition _canon_status : string → string :=
  Common._canon_status CANON_STATUSES.

Section Decoder.
Variable json_loads : string → option pyval.
Variable py_repr : pyval → string.

Definition parse_results_json : string → res (gmap string string) :=
  Common.parse_results_json json_loads py_repr CANON_STATUSES.

Abbreviation str := (Common.str py_repr).

(** One round of the loop of [_parse_rust_json_lines]. *)
Definition json_line (results : gmap string string) (raw : string)
    : res (gmap string string) :=
  let line := Py.strip raw in
  if negb (Py.truthy line) then Ok results else
  if negb (Py.startswith "{" line && Py.contains (quoted "type") line
           && Py.contains (quoted "event") line)
  then Ok results else
  match json_loads line with
  | None => Ok results
  | Some obj =>
      ty ← Obj.get_attr obj "type" PNone;
      match ty with
      | PStr "test" =>
          name_v ← Obj.get_attr obj "name" (PStr "");
          let name := Py.strip (str name_v) in
          if negb (Py.truthy name) then Ok results else
          event_v ← Obj.get_attr obj "event" (PStr "");
          let ev := Py.lower (Py.strip (str event_v)) in
          if bool_decide (ev = "ok") then Ok (<[name := "PASSED"]> results)
          else if bool_decide (ev = "failed") then Ok (<[name := "FAILED"]> results)
          else if bool_decide (ev = "ignored") then Ok (<[name := "SKIPPED"]> results)
          else Ok results
      | _ => Ok results
      end
  end.

Definition _parse_rust_json_lines (txt : string) : res (gmap string string) :=
  for_each json_line ∅ (Py.splitlines txt).

(** One round of the loop of [_parse_rust_text_lines]. *)
Definition text_line (results : gmap string string) (raw : string)
    : gmap string string :=
  let line := Py.rstrip raw in
  if negb (Py.truthy line) then results else
  match Re.rmatch RUST_TEST_LINE_RE line with
  | None => results
  | Some m =>
      let name := Py.strip (Re.group m "name") in
      let status_raw := Re.group m "status" in
      let status :=
        if bool_decide (status_raw = "ok") then "PASSED"
        else if bool_decide (status_raw = "FAILED") then "FAILED"
        else if bool_decide (status_raw = "ignored") then "SKIPPED"
        else _canon_status status_raw in
      <[name := status]> results
  end.

Definition _parse_rust_text_lines (txt : string) : gmap string string :=
  foldl text_line ∅ (Py.splitlines txt).

Definition parse_rust_log (txt : string) : res (gmap string string) :=
  json_results ← _parse_rust_json_lines txt;
  if decide (json_results ≠ ∅) then Ok json_results else
  let text_results := _parse_rust_text_lines txt in
  if decide (text_results ≠ ∅) then Ok text_results
  else Raise (ValueError ZeroOutcomeLines).

End Decoder.

Definition compare := Common.compare.

Definition JSON_PATH : string := "path/to/json".
Definition LOG_PATH : string := "path/to/log file".

Definition main (json_loads : string → option pyval) (py_repr : pyval → string)
    : (string → path_state) → run_error + ComparisonResult :=
  Common.main_with (parse_results_json json_loads py_repr)
    (parse_rust_log json_loads py_repr) JSON_PATH LOG_PATH.

End script_rust.

(** ** A decoder for the examples

    The examples below need [json.loads] and [str()] at a few concrete
    arguments.  [demo_docs] lists the documents of the examples with the
    value [json.loads] gives each; every other text the examples hand to
    the decoder is not JSON.  [demo_repr] is [str()] on [None], booleans
    and integers; on the other values, which no example renders, it is a
    placeholder. *)

Definition doc_empty_array : string := "[]".

Definition doc_suites_null : string :=
  "{" +:+ quoted "testsuites" +:+ ": null}".

Definition doc_suite_without_cases : string :=
  "{" +:+ quoted "testsuites" +:+ ": [{" +:+ quoted "name" +:+ ": "
  +:+ quoted "S" +:+ ", " +:+ quoted "tests" +:+ ": 2, "
  +:+ quoted "testsuite" +:+ ": []}]}".

Definition doc_no_suites : string :=
  "{" +:+ quoted "testsuites" +:+ ": []}".

Definition ndjson_entry (name status : string) : string :=
  "{" +:+ quoted "name" +:+ ": " +:+ quoted name +:+ ", "
  +:+ quoted "status" +:+ ": " +:+ quoted status +:+ "}".

Definition entry (name status : string) : pyval :=
  PDict [("name", PStr name); ("status", PStr status)].

Definition demo_docs : list (string * pyval) := [
  (doc_empty_array, PList []);
  (doc_suites_null, PDict [("testsuites", PNone)]);
  (doc_suite_without_cases,
   PDict [("testsuites",
           PList [PDict [("name", PStr "S"); ("tests", PInt 2);
                         ("testsuite", PList [])]])]);
  (doc_no_suites, PDict [("testsuites", PList [])]);
  (ndjson_entry "a" "PASSED", entry "a" "PASSED");
  (ndjson_entry "b" "FAILED", entry "b" "FAILED")
].

Definition demo_loads (s : string) : option pyval := Obj.lookup demo_docs s.

Definition demo_repr (v : pyval) : string :=
  match v with
  | PNone => "None"
  | PBool true => "True"
  | PBool false => "False"
  | PInt z => pretty z
  | _ => ""
  end.

(** A line-delimited document with a blank second line and a third line
    that is not JSON. *)
Definition ndjson_blank_then_bad : string :=
  Py.text [ndjson_entry "a" "PASSED"; ""; "{bad"].

(** The gtest log of the bracketed-dialect scenario. *)
Definition gtest_scenario : list string :=
  ["[ RUN ] T.One"; "[ OK ] T.One"; "[ RUN ] T.Two"; "[ FAILED ] T.Two";
   "[ FAILED ] T.Two"].

(** ** Names the further properties use *)

(** The canonical outcomes, the values of the three tables. *)
Definition OUTCOMES : list string :=
  ["PASSED"; "FAILED"; "SKIPPED"; "XFAILED"; "XPASS"; "ERROR"].

(** The three tables. *)
Definition TABLES : list (gmap string string) :=
  [script.CANON_STATUSES; script_cpp.CANON_STATUSES; script_rust.CANON_STATUSES].

(** ASCII lower-case letters. *)
Definition is_lower (c : ascii) : bool := Py.between 97 122 c.

(** More documents for the examples, with the value [json.loads] gives
    each. *)
Definition doc_two_entries : string :=
  "[" +:+ ndjson_entry "a" "PASSED" +:+ ", " +:+ ndjson_entry "b" "FAILED" +:+ "]".

Definition doc_bad_entry : string :=
  "[" +:+ ndjson_entry "a" "passed" +:+ ", 7]".

Definition doc_duplicate_name : string :=
  "[" +:+ ndjson_entry " a " "ok" +:+ ", " +:+ ndjson_entry "a" "failed" +:+ "]".

Definition more_docs : list (string * pyval) := [
  (doc_two_entries, PList [entry "a" "PASSED"; entry "b" "FAILED"]);
  (doc_bad_entry, PList [entry "a" "passed"; PInt 7]);
  (doc_duplicate_name, PList [entry " a " "ok"; entry "a" "failed"])
].

Definition more_loads (s : string) : option pyval :=
  Obj.lookup (more_docs ++ demo_docs) s.

(** The character just read after reading [t] from a position whose last
    character was [pv]. *)
Fixpoint last_char (pv : option ascii) (t : string) : option ascii :=
  match t with
  | "" => pv
  | String a t' => last_char (Some a) t'
  end.

(** What a successful run guarantees, with the character before each
    position: [Re.matches] with the positions determined. *)
Fixpoint derives (r : Re.regex) (c : Re.cursor) (g : Re.groups)
    (c' : Re.cursor) (g' : Re.groups) : Prop :=
  match r with
  | Re.Lit s =>
      Re.rest c = s +:+ Re.rest c' ∧ Re.prev c' = last_char (Re.prev c) s ∧ g' = g
  | Re.Seq r1 r2 => ∃ c1 g1, derives r1 c g c1 g1 ∧ derives r2 c1 g1 c' g'
  | Re.Alt r1 r2 => derives r1 c g c' g' ∨ derives r2 c g c' g'
  | Re.Rep _ min p =>
      ∃ t, Re.rest c = t +:+ Re.rest c' ∧ Re.prev c' = last_char (Re.prev c) t
           ∧ Py.all p t = true ∧ min ≤ String.length t ∧ g' = g
  | Re.Opt r' => derives r' c g c' g' ∨ (c' = c ∧ g' = g)
  | Re.Grp name r' =>
      ∃ g1, derives r' c g c' g1 ∧ g' = <[name := Re.consumed c c']> g1
  | Re.Bnd => c' = c ∧ g' = g ∧ Re.at_boundary c = true
  | Re.Bol => c' = c ∧ g' = g ∧ Re.prev c = None
  | Re.Eol => c' = c ∧ g' = g ∧ Re.at_end c = true
  end.

(** The outcome a raw line contributes to the generic extractor: the pair
    read off it, unless the token is RERUN. *)
Definition pytest_outcome (raw : string) : option (string * string) :=
  pair ← script.reads raw;
  if decide (pair.2 = "RERUN") then None else Some pair.

Definition pytest_outcomes (txt : string) : list (string * string) :=
  omap pytest_outcome (Py.splitlines txt).

(** The pairs the line scan of the gtest extractor takes from a log. *)
Definition gtest_outcomes (txt : string) : list (string * string) :=
  omap script_cpp.sets (Py.splitlines txt).

(** The statuses the gtest and cargo extractors can record. *)
Definition RUN_STATUSES : list string := ["PASSED"; "FAILED"; "SKIPPED"].

(** The shape the JSON pass of the gtest extractor takes for granted: the
    suites can be iterated and are objects, the cases of each suite can be
    iterated and are objects, and the class name of a case, or else the
    name of its suite, is a string when it is truthy. *)
Definition gtest_case_ok (ts : list (string * pyval)) (tc : pyval) : bool :=
  match tc with
  | PDict d =>
      match Obj.or (Obj.or (Obj.get d "classname" PNone) (Obj.get ts "name" PNone))
                   (PStr "") with
      | PStr _ => true
      | _ => false
      end
  | _ => false
  end.

Definition gtest_suite_ok (ts : pyval) : bool :=
  match ts with
  | PDict d =>
      match Obj.iter (Obj.or (Obj.or (Obj.get d "testsuite" PNone)
                                     (Obj.get d "tests" (PList [])))
                             (PList [])) with
      | Ok tcs => forallb (gtest_case_ok d) tcs
      | Raise _ => false
      end
  | _ => false
  end.

Definition gtest_doc_ok (obj : pyval) : bool :=
  match obj with
  | PDict d =>
      match Obj.lookup d "testsuites" with
      | Some suites =>
          match Obj.iter suites with
          | Ok tss => forallb gtest_suite_ok tss
          | Raise _ => false
          end
      | None => true
      end
  | _ => true
  end.

(** A gtest JSON report for the examples, with the value [json.loads]
    gives it. *)
Definition doc_gtest_report : string :=
  "{" +:+ quoted "testsuites" +:+ ": [{" +:+ quoted "name" +:+ ": "
  +:+ quoted "MathTests" +:+ ", " +:+ quoted "tests" +:+ ": 2, "
  +:+ quoted "testsuite" +:+ ": [{" +:+ quoted "name" +:+ ": " +:+ quoted "Add"
  +:+ ", " +:+ quoted "result" +:+ ": " +:+ quoted "COMPLETED" +:+ "}, {"
  +:+ quoted "name" +:+ ": " +:+ quoted "Sub" +:+ ", " +:+ quoted "result"
  +:+ ": " +:+ quoted "SKIPPED" +:+ "}]}]}".

Definition gtest_loads (s : string) : option pyval :=
  Obj.lookup
    ((doc_gtest_report,
      PDict [("testsuites",
              PList [PDict [("name", PStr "MathTests"); ("tests", PInt 2);
                            ("testsuite",
                             PList [PDict [("name", PStr "Add");
                                           ("result", PStr "COMPLETED")];
                                    PDict [("name", PStr "Sub");
                                           ("result", PStr "SKIPPED")]])]])])
     :: more_docs ++ demo_docs) s.

(** The tokens of a cargo test line, each with the status recorded for
    it. *)
Definition RUST_TOKENS : list (string * string) :=
  [("ok", "PASSED"); ("FAILED", "FAILED"); ("ignored", "SKIPPED")].

(** Cargo JSON events for the examples, with the value [json.loads] gives
    each. *)
Definition cargo_event (name event : string) : string :=
  "{" +:+ quoted "type" +:+ ": " +:+ quoted "test" +:+ ", "
  +:+ quoted "event" +:+ ": " +:+ quoted event +:+ ", "
  +:+ quoted "name" +:+ ": " +:+ quoted name +:+ "}".

Definition cargo_docs : list (string * pyval) := [
  (cargo_event "a::b" "ok",
   PDict [("type", PStr "test"); ("event", PStr "ok"); ("name", PStr "a::b")]);
  (cargo_event "a::c" "failed",
   PDict [("type", PStr "test"); ("event", PStr "failed"); ("name", PStr "a::c")])
].

Definition cargo_loads (s : string) : option pyval :=
  Obj.lookup (cargo_docs ++ demo_docs) s.

(** A text with no whitespace character. *)
Definition no_space (s : string) : bool :=
  Py.all (λ a, negb (Py.is_space a)) s.

(** The tags of the bracket of a gtest line, each with the status
    recorded for it. *)
Definition GTEST_TAGS : list (string * string) :=
  [("OK", "PASSED"); ("FAILED", "FAILED"); ("SKIPPED", "SKIPPED")].

(** The candidate keys of [_extract_tests_array], in the order tried. *)
Definition CANDIDATE_KEYS : list string := ["tests"; "items"; "results"; "cases"].

(** What the entry loop of [parse_results_json] takes from an entry: the
    trimmed name, when the entry is an object with a name that is not
    blank, and the canonical status. *)
Definition entry_name (py_repr : pyval → string) (item : pyval) : option string :=
  match item with
  | PDict d =>
      let name := Py.strip (Common.str py_repr (Obj.get d "name" (PStr ""))) in
      if Py.truthy name then Some name else None
  | _ => None
  end.

Definition entry_status (py_repr : pyval → string) (T : gmap string string)
    (item : pyval) : string :=
  match item with
  | PDict d =>
      Common._canon_status T
        (Py.strip (Common.str py_repr (Obj.get d "status" (PStr ""))))
  | _ => ""
  end.

(** The effect of one valid entry on the mapping under construction. *)
Definition entry_step (py_repr : pyval → string) (T : gmap string string)
    (acc : gmap string string) (item : pyval) : gmap string string :=
  match entry_name py_repr item with
  | Some name => <[name := entry_status py_repr T item]> acc
  | None => acc
  end.

(** The error the entry loop raises at entry [i]. *)
Definition entry_error (i : nat) (item : pyval) : exn :=
  match item with
  | PDict _ => ValueError (EntryMissingName i)
  | _ => ValueError (EntryNotObject i item)
  end.

(** ** Values of ASCII text

    The string primitives of [Py] and the character classes of [Re] are
    those of Python on ASCII text; the properties that depend on them are
    stated for ASCII text.  A decoded value is within that scope when
    every string in it is ASCII. *)
Fixpoint ascii_val (v : pyval) : bool :=
  match v with
  | PStr s => Py.all Py.is_ascii s
  | PList l => forallb ascii_val l
  | PDict d =>
      forallb (λ kv, match kv with (k, w) => Py.all Py.is_ascii k && ascii_val w end) d
  | _ => true
  end.

(** A decoder that gives ASCII values, and a [str()] that renders ASCII
    values as ASCII text. *)
Definition ascii_decoder (json_loads : string → option pyval) : Prop :=
  ∀ s v, json_loads s = Some v → ascii_val v = true.


(** The two strings the entry loop reads from an entry are ASCII. *)
Definition entry_ascii (py_repr : pyval → string) (item : pyval) : bool :=
  match item with
  | PDict d =>
      Py.all Py.is_ascii (Common.str py_repr (Obj.get d "name" (PStr "")))
      && Py.all Py.is_ascii (Common.str py_repr (Obj.get d "status" (PStr "")))
  | _ => true
  end.


(** * Properties *)

(** ** The comparator *)

Section Compare.
Implicit Types A B : gmap string string.
Implicit Types X : gset string.

Lemma sorted_nil (xs : list string) : Py.sorted xs = [] ↔ xs = [].
Proof.
  unfold Py.sorted. split.
  - intros E. apply Permutation_nil_r.
    rewrite <- E. symmetry. apply merge_sort_Permutation.
  - intros ->. reflexivity.
Qed.

Lemma sorted_elements_nil X : Py.sorted (elements X) = [] ↔ X = ∅.
Proof.
  rewrite sorted_nil, elements_empty_iff. split; [apply leibniz_equiv | by intros ->].
Qed.

(** [sorted] returns the same list for every enumeration of a set. *)
Lemma sorted_perm (xs ys : list string) : xs ≡ₚ ys → Py.sorted xs = Py.sorted ys.
Proof.
  intros E. unfold Py.sorted.
  apply (Sorted_unique String.le); try apply Sorted_merge_sort; try apply _.
  by rewrite !merge_sort_Permutation.
Qed.

Lemma elem_of_sorted (n : string) (xs : list string) : n ∈ Py.sorted xs ↔ n ∈ xs.
Proof. unfold Py.sorted. by rewrite merge_sort_Permutation. Qed.

(** The difference lists are the sorted, duplicate-free listings of the
    two set differences. *)
Lemma only_in_json_spec A B :
  let l := only_in_json (Common.compare A B) in
  Sorted String.le l ∧ NoDup l ∧ ∀ n, n ∈ l ↔ n ∈ dom A ∧ n ∉ dom B.
Proof.
  simpl. split_and!.
  - apply Sorted_merge_sort; apply _.
  - unfold Py.sorted. rewrite merge_sort_Permutation. apply NoDup_elements.
  - intros n. rewrite elem_of_sorted, elem_of_elements. set_solver.
Qed.

Lemma only_in_log_spec A B :
  let l := only_in_log (Common.compare A B) in
  Sorted String.le l ∧ NoDup l ∧ ∀ n, n ∈ l ↔ n ∈ dom B ∧ n ∉ dom A.
Proof.
  simpl. split_and!.
  - apply Sorted_merge_sort; apply _.
  - unfold Py.sorted. rewrite merge_sort_Permutation. apply NoDup_elements.
  - intros n. rewrite elem_of_sorted, elem_of_elements. set_solver.
Qed.

Lemma difference_empty_subseteq X Y : X ∖ Y = ∅ ↔ X ⊆ Y.
Proof.
  split.
  - intros E n Hn. destruct (decide (n ∈ Y)) as [|Hn']; [done|].
    exfalso. apply (not_elem_of_empty (C:=gset string) n).
    rewrite <- E. by apply elem_of_difference.
  - set_solver.
Qed.

Lemma names_equal_iff A B :
  names_equal (Common.compare A B) = true ↔ dom A = dom B.
Proof.
  simpl. rewrite andb_true_iff, !bool_decide_eq_true, !sorted_elements_nil,
    !difference_empty_subseteq.
  set_solver.
Qed.

Lemma counts_equal_iff A B :
  counts_equal (Common.compare A B) = true ↔ size (dom A) = size (dom B).
Proof. simpl. by rewrite bool_decide_eq_true. Qed.

(** Every name the comprehension indexes the two dictionaries with is a
    key of both, so neither index raises. *)
Lemma common_names_present A B (n : string) :
  n ∈ Py.sorted (elements (dom A ∩ dom B)) →
  A !! n = Some (A !!! n) ∧ B !! n = Some (B !!! n).
Proof.
  rewrite elem_of_sorted, elem_of_elements, elem_of_intersection, !elem_of_dom.
  intros [[a Ha] [b Hb]].
  by rewrite !lookup_total_alt, Ha, Hb.
Qed.

Lemma statuses_equal_iff A B :
  statuses_equal (Common.compare A B) = true ↔
  ∀ n a b, A !! n = Some a → B !! n = Some b → a = b.
Proof.
  simpl. rewrite bool_decide_eq_true. split.
  - intros E%fmap_nil_inv n a b Ha Hb.
    destruct (decide (a = b)) as [|Hne]; [done|]. exfalso.
    eapply (filter_nil_not_elem_of _ _ n); [exact E | |].
    + cbn beta. by rewrite !lookup_total_alt, Ha, Hb.
    + rewrite elem_of_sorted, elem_of_elements, elem_of_intersection, !elem_of_dom.
      eauto.
  - intros H.
    assert (filter (λ n, A !!! n ≠ B !!! n)
              (Py.sorted (elements (dom A ∩ dom B))) = []) as ->; [|done].
    apply elem_of_nil_inv. intros n [Hne Hn]%list_elem_of_filter.
    apply common_names_present in Hn as [Ha Hb]. by eapply Hne, H.
Qed.

Lemma same_unfold A B :
  same (Common.compare A B) =
  counts_equal (Common.compare A B) && names_equal (Common.compare A B)
  && statuses_equal (Common.compare A B).
Proof. reflexivity. Qed.

Lemma map_eq_iff_dom_agree A B :
  A = B ↔ dom A = dom B ∧ ∀ n a b, A !! n = Some a → B !! n = Some b → a = b.
Proof.
  split.
  - intros ->. split; [done|]. congruence.
  - intros [Hd H]. apply map_eq. intros n.
    destruct (A !! n) as [a|] eqn:Ha.
    + assert (is_Some (B !! n)) as [b Hb].
      { apply elem_of_dom. rewrite <- Hd. apply elem_of_dom. eauto. }
      rewrite Hb. f_equal. eauto.
    + symmetry. apply not_elem_of_dom. rewrite <- Hd. by apply not_elem_of_dom.
Qed.

Lemma same_iff A B : same (Common.compare A B) = true ↔ A = B.
Proof.
  rewrite same_unfold, !andb_true_iff, counts_equal_iff, names_equal_iff,
    statuses_equal_iff, map_eq_iff_dom_agree.
  split; [tauto|]. intros [Hd H]. by rewrite Hd.
Qed.

End Compare.

(** [compare] reads the same in the three files. *)
Lemma compare_shared :
  script.compare = Common.compare ∧ script_cpp.compare = Common.compare
  ∧ script_rust.compare = Common.compare.
Proof. done. Qed.

(** C1. For every pair of non-empty result sets A and B, the flag [same]
    of [compare A B] is true if and only if A and B are equal as mappings:
    they have the same set of names and give every common name the same
    outcome. *)
Theorem compare_same_iff_equal (A B : gmap string string) :
  A ≠ ∅ → B ≠ ∅ →
  (same (Common.compare A B) = true ↔ A = B)
  ∧ (same (Common.compare A B) = true ↔
       dom A = dom B ∧ ∀ n a b, A !! n = Some a → B !! n = Some b → a = b).
Proof.
  intros _ _. split; [apply same_iff|].
  rewrite same_iff. apply map_eq_iff_dom_agree.
Qed.

Lemma compare_same_iff_equal_witness :
  let A : gmap string string := {[ "a" := "PASSED"; "b" := "FAILED" ]} in
  let B : gmap string string := {[ "b" := "FAILED"; "a" := "PASSED" ]} in
  A ≠ ∅ ∧ B ≠ ∅ ∧ (same (Common.compare A B) = true ↔ A = B).
Proof.
  intros A B.
  assert (HA : A ≠ ∅) by (apply (bool_decide_unpack _); vm_compute; exact I).
  assert (HB : B ≠ ∅) by (apply (bool_decide_unpack _); vm_compute; exact I).
  split; [exact HA|]. split; [exact HB|].
  exact (proj1 (compare_same_iff_equal A B HA HB)).
Defined.

(** C5 (as amended). [counts_equal] is true exactly when the two key sets
    have the same cardinality, [names_equal] exactly when their symmetric
    difference is empty, and the two flags are reported independently: two
    non-empty disjoint mappings of equal size give [counts_equal = true]
    together with [names_equal = false]. *)
Theorem compare_flags_independent (A B : gmap string string) :
  (counts_equal (Common.compare A B) = true ↔ size (dom A) = size (dom B))
  ∧ (names_equal (Common.compare A B) = true ↔
       (dom A ∖ dom B) ∪ (dom B ∖ dom A) = (∅ : gset string))
  ∧ (A ≠ ∅ → dom A ## dom B → size (dom A) = size (dom B) →
       counts_equal (Common.compare A B) = true
       ∧ names_equal (Common.compare A B) = false).
Proof.
  split; [apply counts_equal_iff|]. split.
  - rewrite names_equal_iff. split.
    + intros ->. set_solver.
    + intros E. apply set_eq. intros n.
      assert (n ∈ dom A ∖ dom B → False) by set_solver.
      assert (n ∈ dom B ∖ dom A → False) by set_solver.
      destruct (decide (n ∈ dom A)), (decide (n ∈ dom B)); set_solver.
  - intros HA Hdisj Hsize. split; [by apply counts_equal_iff|].
    apply not_true_is_false. rewrite names_equal_iff. intros Hd.
    apply HA. apply dom_empty_iff_L.
    apply set_eq. intros n. split; [|set_solver].
    intros Hn. exfalso. apply (Hdisj n); [done|]. by rewrite <- Hd.
Qed.

Lemma compare_flags_independent_witness :
  let A : gmap string string := {[ "a" := "PASSED" ]} in
  let B : gmap string string := {[ "b" := "PASSED" ]} in
  A ≠ ∅ ∧ dom A ## dom B ∧ size (dom A) = size (dom B)
  ∧ counts_equal (Common.compare A B) = true
  ∧ names_equal (Common.compare A B) = false.
Proof.
  intros A B.
  assert (HA : A ≠ ∅) by (apply (bool_decide_unpack _); vm_compute; exact I).
  assert (Hd : dom A ## dom B) by (apply (bool_decide_unpack _); vm_compute; exact I).
  assert (Hs : size (dom A) = size (dom B)) by (vm_compute; reflexivity).
  split; [exact HA|]. split; [exact Hd|]. split; [exact Hs|].
  exact (proj2 (proj2 (compare_flags_independent A B)) HA Hd Hs).
Defined.

(** C5 as stated fails at the pair of empty mappings: they are disjoint
    and of equal size, and [compare] reports [names_equal = true]. *)
Lemma compare_flags_empty_maps :
  let E : gmap string string := ∅ in
  dom E ## dom E ∧ size (dom E) = size (dom E)
  ∧ counts_equal (Common.compare E E) = true
  ∧ names_equal (Common.compare E E) = true
  ∧ ¬ (∀ A B : gmap string string,
         dom A ## dom B → size (dom A) = size (dom B) →
         counts_equal (Common.compare A B) = true
         ∧ names_equal (Common.compare A B) = false).
Proof.
  intros E.
  assert (Hd : dom E ## dom E) by set_solver.
  assert (Hn : names_equal (Common.compare E E) = true) by (vm_compute; reflexivity).
  split_and!; try done.
  intros H. destruct (H E E Hd eq_refl) as [_ Hf]. congruence.
Qed.

(** C8. Swapping the two arguments of [compare] swaps the two difference
    lists, element for element: each is the sorted listing of the names of
    one mapping that the other lacks, whatever order the set hands them
    out in. *)
Theorem compare_swap (A B : gmap string string) :
  only_in_json (Common.compare A B) = only_in_log (Common.compare B A)
  ∧ only_in_log (Common.compare A B) = only_in_json (Common.compare B A)
  ∧ (∀ n, n ∈ only_in_json (Common.compare A B) ↔ n ∈ dom A ∧ n ∉ dom B)
  ∧ (∀ n, n ∈ only_in_log (Common.compare A B) ↔ n ∈ dom B ∧ n ∉ dom A)
  ∧ (∀ xs, xs ≡ₚ elements (dom A ∖ dom B) →
       Py.sorted xs = only_in_log (Common.compare B A)).
Proof.
  split_and!; [reflexivity | reflexivity | | |].
  - apply only_in_json_spec.
  - apply only_in_log_spec.
  - intros xs Hxs. simpl. by apply sorted_perm.
Qed.

(** C10. In every result of [compare], [names_equal] implies
    [counts_equal], so [same] is the conjunction of [names_equal] and
    [statuses_equal] alone. *)
Theorem names_equal_implies_counts_equal (A B : gmap string string) :
  let r := Common.compare A B in
  (names_equal r = true → counts_equal r = true)
  ∧ same r = names_equal r && statuses_equal r.
Proof.
  intros r.
  assert (H : names_equal r = true → counts_equal r = true).
  { unfold r. rewrite names_equal_iff, counts_equal_iff. by intros ->. }
  split; [exact H|].
  unfold r in *. rewrite same_unfold.
  destruct (names_equal (Common.compare A B)); [by rewrite H | by rewrite andb_false_r].
Qed.

Lemma names_equal_implies_counts_equal_witness :
  let r := Common.compare {[ "a" := "PASSED" ]} {[ "a" := "FAILED" ]} in
  names_equal r = true ∧ counts_equal r = true
  ∧ same r = names_equal r && statuses_equal r.
Proof.
  intros r.
  assert (Hn : names_equal r = true) by (vm_compute; reflexivity).
  pose proof (names_equal_implies_counts_equal
                {[ "a" := "PASSED" ]} {[ "a" := "FAILED" ]}) as [Hc Hs].
  split; [exact Hn|]. split; [exact (Hc Hn) | exact Hs].
Defined.

(** ** Strings: trimming and case mapping *)

Section Strings.
Implicit Types (s t : string) (c : ascii).

Lemma sapp_nil_l t : "" +:+ t = t.
Proof. reflexivity. Qed.

Lemma sapp_cons c s t : String c s +:+ t = String c (s +:+ t).
Proof. reflexivity. Qed.

Lemma sapp_nil_r s : s +:+ "" = s.
Proof. induction s as [|c s IH]; [done|]. by rewrite sapp_cons, IH. Qed.

Lemma sapp_assoc s t u : (s +:+ t) +:+ u = s +:+ t +:+ u.
Proof. induction s as [|c s IH]; [done|]. by rewrite !sapp_cons, IH. Qed.

Lemma sapp_length s t :
  String.length (s +:+ t) = String.length s + String.length t.
Proof. induction s as [|c s IH]; [done|]. rewrite sapp_cons. simpl. by rewrite IH. Qed.

Lemma take_app_length s t : Py.take (String.length s) (s +:+ t) = s.
Proof. induction s as [|c s IH]; [by destruct t|]. rewrite sapp_cons. simpl. by rewrite IH. Qed.

Lemma is_space_upper c : Py.is_space (Py.upper_char c) = Py.is_space c.
Proof. by destruct c as [[] [] [] [] [] [] [] []]. Qed.

Lemma is_space_lower c : Py.is_space (Py.lower_char c) = Py.is_space c.
Proof. by destruct c as [[] [] [] [] [] [] [] []]. Qed.

Lemma upper_char_idem c : Py.upper_char (Py.upper_char c) = Py.upper_char c.
Proof. by destruct c as [[] [] [] [] [] [] [] []]. Qed.

Lemma upper_lower_char c : Py.upper_char (Py.lower_char c) = Py.upper_char c.
Proof. by destruct c as [[] [] [] [] [] [] [] []]. Qed.

Lemma lstrip_spaces s t : Py.all Py.is_space s = true → Py.lstrip (s +:+ t) = Py.lstrip t.
Proof.
  induction s as [|c s IH]; [done|]. rewrite sapp_cons. simpl.
  intros [-> ?]%andb_true_iff. auto.
Qed.

Lemma rstrip_all_space s : Py.all Py.is_space s = true → Py.rstrip s = "".
Proof.
  induction s as [|c s IH]; [done|]. simpl.
  intros [-> ?]%andb_true_iff. by rewrite IH.
Qed.

Lemma rstrip_spaces s t : Py.all Py.is_space t = true → Py.rstrip (s +:+ t) = Py.rstrip s.
Proof.
  intros Ht. induction s as [|c s IH].
  - by rewrite sapp_nil_l, rstrip_all_space.
  - rewrite sapp_cons. simpl. by rewrite IH.
Qed.

Lemma strip_padding pre s post :
  Py.all Py.is_space pre = true → Py.all Py.is_space post = true →
  Py.strip (pre +:+ s +:+ post) = Py.strip s.
Proof.
  intros Hpre Hpost. unfold Py.strip. rewrite lstrip_spaces by done.
  induction s as [|c s IH].
  - rewrite sapp_nil_l. simpl.
    replace post with (post +:+ "") by apply sapp_nil_r.
    by rewrite lstrip_spaces.
  - rewrite sapp_cons. simpl. destruct (Py.is_space c); [done|].
    by rewrite <- sapp_cons, rstrip_spaces.
Qed.

Lemma lstrip_map (f : ascii → ascii) s :
  (∀ c, Py.is_space (f c) = Py.is_space c) →
  Py.lstrip (Py.map f s) = Py.map f (Py.lstrip s).
Proof.
  intros Hf. induction s as [|c s IH]; [done|]. simpl.
  rewrite Hf. by destruct (Py.is_space c).
Qed.

Lemma rstrip_map (f : ascii → ascii) s :
  (∀ c, Py.is_space (f c) = Py.is_space c) →
  Py.rstrip (Py.map f s) = Py.map f (Py.rstrip s).
Proof.
  intros Hf. induction s as [|c s IH]; [done|]. simpl.
  rewrite IH, Hf. destruct (Py.rstrip s); simpl; [|done].
  by destruct (Py.is_space c).
Qed.

Lemma strip_map (f : ascii → ascii) s :
  (∀ c, Py.is_space (f c) = Py.is_space c) →
  Py.strip (Py.map f s) = Py.map f (Py.strip s).
Proof. intros Hf. unfold Py.strip. by rewrite lstrip_map, rstrip_map. Qed.

Lemma map_map (f g : ascii → ascii) s : Py.map f (Py.map g s) = Py.map (f ∘ g) s.
Proof. induction s as [|c s IH]; [done|]. simpl. by rewrite IH. Qed.

Lemma map_ext (f g : ascii → ascii) s : (∀ c, f c = g c) → Py.map f s = Py.map g s.
Proof. intros E. induction s as [|c s IH]; [done|]. simpl. by rewrite E, IH. Qed.

Lemma upper_strip_upper s : Py.upper (Py.strip (Py.upper s)) = Py.upper (Py.strip s).
Proof.
  unfold Py.upper. rewrite strip_map by apply is_space_upper.
  rewrite map_map. apply map_ext, upper_char_idem.
Qed.

Lemma upper_strip_lower s : Py.upper (Py.strip (Py.lower s)) = Py.upper (Py.strip s).
Proof.
  unfold Py.upper, Py.lower. rewrite strip_map by apply is_space_lower.
  rewrite map_map. apply map_ext, upper_lower_char.
Qed.

End Strings.

(** ** The status canonicalizer *)

Section Canon.
Variable T : gmap string string.

Lemma canon_padding pre s post :
  Py.all Py.is_space pre = true → Py.all Py.is_space post = true →
  Common._canon_status T (pre +:+ s +:+ post) = Common._canon_status T s.
Proof. intros. unfold Common._canon_status. by rewrite strip_padding. Qed.

Lemma canon_upper s : Common._canon_status T (Py.upper s) = Common._canon_status T s.
Proof. unfold Common._canon_status. by rewrite upper_strip_upper. Qed.

Lemma canon_lower s : Common._canon_status T (Py.lower s) = Common._canon_status T s.
Proof. unfold Common._canon_status. by rewrite upper_strip_lower. Qed.

Lemma canon_known s v : T !! Py.upper (Py.strip s) = Some v → Common._canon_status T s = v.
Proof. unfold Common._canon_status. by intros ->. Qed.

Lemma canon_unknown s :
  T !! Py.upper (Py.strip s) = None → Common._canon_status T s = Py.upper (Py.strip s).
Proof. unfold Common._canon_status. by intros ->. Qed.

End Canon.

Lemma tables_cases (T : gmap string string) :
  T ∈ [script.CANON_STATUSES; script_cpp.CANON_STATUSES;
       script_rust.CANON_STATUSES] →
  T = script.CANON_STATUSES ∨ T = script_cpp.CANON_STATUSES
  ∨ T = script_rust.CANON_STATUSES.
Proof. rewrite !elem_of_cons, elem_of_nil. tauto. Qed.

(** C9. In each of the three scripts the canonicalizer is a total
    function of its string; on ASCII text it ignores surrounding
    whitespace and letter case, looks the upper-cased token up in the
    script's table (the gtest table sends OK to PASSED, the cargo table
    sends OK to PASSED and IGNORED to SKIPPED), and returns a token that
    is not in the table as it is after upper-casing; so the canonical form
    of [ passed ], padded and in lower case, is that of PASSED. *)
Theorem canon_status_law (T : gmap string string) (s pre post : string) :
  T ∈ [script.CANON_STATUSES; script_cpp.CANON_STATUSES;
       script_rust.CANON_STATUSES] →
  Py.all Py.is_ascii s = true →
  Py.all Py.is_space pre = true → Py.all Py.is_space post = true →
  let canon := Common._canon_status T in
  let token := Py.upper (Py.strip s) in
  canon (pre +:+ s +:+ post) = canon s
  ∧ (canon (Py.upper s) = canon s ∧ canon (Py.lower s) = canon s)
  ∧ canon s = default token (T !! token)
  ∧ (T !! token = None → canon s = token)
  ∧ (token = "OK" → T ≠ script.CANON_STATUSES → canon s = "PASSED")
  ∧ (token = "IGNORED" → T = script_rust.CANON_STATUSES → canon s = "SKIPPED")
  ∧ (token = "OK" → T = script.CANON_STATUSES → canon s = "OK")
  ∧ canon " passed " = canon "PASSED" ∧ canon "PASSED" = "PASSED".
Proof.
  intros HT%tables_cases Hascii Hpre Hpost canon token. subst canon. split_and!.
  - by apply canon_padding.
  - apply canon_upper.
  - by apply canon_lower.
  - reflexivity.
  - apply canon_unknown.
  - intros Htok Hne. apply canon_known. fold token. rewrite Htok.
    destruct HT as [->| [->| ->]]; done.
  - intros Htok ->. apply canon_known. fold token. by rewrite Htok.
  - intros Htok ->. rewrite canon_unknown; fold token; by rewrite Htok.
  - by destruct HT as [->| [->| ->]].
  - by destruct HT as [->| [->| ->]].
Qed.

Lemma canon_status_law_witness :
  let T := script_rust.CANON_STATUSES in
  let canon := Common._canon_status T in
  T ∈ [script.CANON_STATUSES; script_cpp.CANON_STATUSES;
       script_rust.CANON_STATUSES]
  ∧ Py.all Py.is_ascii "ignored" = true
  ∧ Py.all Py.is_space "  " = true ∧ Py.all Py.is_space " " = true
  ∧ canon ("  " +:+ "ignored" +:+ " ") = canon "ignored"
  ∧ canon "ignored" = "SKIPPED".
Proof.
  intros T canon.
  assert (HT : T ∈ [script.CANON_STATUSES; script_cpp.CANON_STATUSES;
                    script_rust.CANON_STATUSES])
    by (apply (bool_decide_unpack _); vm_compute; exact I).
  pose proof (canon_status_law T "ignored" "  " " " HT eq_refl eq_refl eq_refl)
    as (Hpad & _ & _ & _ & _ & Hign & _).
  split_and!; [exact HT | reflexivity | reflexivity | reflexivity | exact Hpad |].
  exact (Hign eq_refl eq_refl).
Defined.

(** ** The pattern matcher: what a match guarantees *)

Section Matcher.
Context {R : Type}.
Implicit Types (c : Re.cursor) (g : Re.groups) (s t : string).

Lemma eat_sound t c c' : Re.eat t c = Some c' → Re.rest c = t +:+ Re.rest c'.
Proof.
  revert c. induction t as [|a t IH]; intros [pv s]; simpl.
  - by intros [= <-].
  - destruct s as [|b s]; [done|]. case_decide; [subst b|done].
    intros E%IH. simpl in E. by rewrite sapp_cons, E.
Qed.

Lemma rep_greedy_sound p (k : Re.cursor → option R) min pv s x :
  Re.rep_greedy p k min pv s = Some x →
  ∃ t pv' s', s = t +:+ s' ∧ Py.all p t = true ∧ (min ≤ String.length t)%nat
              ∧ k (Re.Cursor pv' s') = Some x.
Proof.
  revert min pv. induction s as [|a s IH]; intros min pv; simpl.
  - destruct min; [|done]. intros E. by exists "", pv, "".
  - assert (Hstop : match min with 0 => k (Re.Cursor pv (String a s)) | S _ => None end
                    = Some x →
              ∃ t pv' s', String a s = t +:+ s' ∧ Py.all p t = true
                          ∧ (min ≤ String.length t)%nat ∧ k (Re.Cursor pv' s') = Some x).
    { destruct min; [|done]. intros E. by exists "", pv, (String a s). }
    destruct (p a) eqn:Hp; [|done].
    destruct (Re.rep_greedy p k (pred min) (Some a) s) as [y|] eqn:E; [|done].
    intros [= ->]. apply IH in E as (t & pv' & s' & -> & Ht & Hmin & Hk).
    exists (String a t), pv', s'. rewrite sapp_cons. simpl. rewrite Hp, Ht.
    split_and!; [done..| lia | done].
Qed.

Lemma rep_lazy_sound p (k : Re.cursor → option R) min pv s x :
  Re.rep_lazy p k min pv s = Some x →
  ∃ t pv' s', s = t +:+ s' ∧ Py.all p t = true ∧ (min ≤ String.length t)%nat
              ∧ k (Re.Cursor pv' s') = Some x.
Proof.
  revert min pv. induction s as [|a s IH]; intros min pv; simpl.
  - destruct min; [|done].
    destruct (k (Re.Cursor pv "")) as [y|] eqn:E; [|done].
    intros [= ->]. by exists "", pv, "".
  - assert (Hmore : (if p a then Re.rep_lazy p k (pred min) (Some a) s else None)
                    = Some x →
              ∃ t pv' s', String a s = t +:+ s' ∧ Py.all p t = true
                          ∧ (min ≤ String.length t)%nat ∧ k (Re.Cursor pv' s') = Some x).
    { destruct (p a) eqn:Hp; [|done].
      intros (t & pv' & s' & -> & Ht & Hmin & Hk)%IH.
      exists (String a t), pv', s'. rewrite sapp_cons. simpl. rewrite Hp, Ht.
      split_and!; [done..| lia | done]. }
    destruct min; [|done].
    destruct (k (Re.Cursor pv (String a s))) as [y|] eqn:E; [|done].
    intros [= ->]. by exists "", pv, (String a s).
Qed.

Lemma run_sound r c g (k : Re.cursor → Re.groups → option R) x :
  Re.run r c g k = Some x →
  ∃ c' g', Re.matches r c g c' g' ∧ k c' g' = Some x.
Proof.
  revert c g k. induction r as [t|r1 IH1 r2 IH2|r1 IH1 r2 IH2|gr min p|r IH|name r IH| | |];
    intros c g k; simpl.
  - destruct (Re.eat t c) as [c'|] eqn:E; [|done].
    intros Hk. exists c', g. eauto using eat_sound.
  - intros (c1 & g1 & H1 & (c' & g' & H2 & Hk)%IH2)%IH1. naive_solver.
  - destruct (Re.run r1 c g k) as [y|] eqn:E.
    + intros [= ->]. apply IH1 in E. naive_solver.
    + intros E2%IH2. naive_solver.
  - intros H.
    assert (∃ t pv' s', Re.rest c = t +:+ s' ∧ Py.all p t = true
              ∧ (min ≤ String.length t)%nat ∧ k (Re.Cursor pv' s') g = Some x)
      as (t & pv' & s' & ? & ? & ? & ?).
    { destruct gr.
      - exact (rep_greedy_sound p (λ c', k c' g) _ _ _ _ H).
      - exact (rep_lazy_sound p (λ c', k c' g) _ _ _ _ H). }
    exists (Re.Cursor pv' s'), g. split; [|done]. by exists t.
  - destruct (Re.run r c g k) as [y|] eqn:E.
    + intros [= ->]. apply IH in E. naive_solver.
    + intros Hk. exists c, g. split; [by right | done].
  - intros (c' & g' & H & Hk)%IH.
    exists c', (<[name := Re.consumed c c']> g'). split; [by exists g' | done].
  - destruct (Re.at_boundary c) eqn:E; [|done]. intros Hk. by exists c, g.
  - destruct (Re.prev c) eqn:E; [done|]. intros Hk. by exists c, g.
  - destruct (Re.at_end c) eqn:E; [|done]. intros Hk. by exists c, g.
Qed.

End Matcher.

Lemma rmatch_sound r s c' g' :
  Re.rmatch r s = Some (c', g') → Re.matches r (Re.Cursor None s) ∅ c' g'.
Proof.
  unfold Re.rmatch. intros (c1 & g1 & H & [= -> ->])%run_sound. exact H.
Qed.

Lemma consumed_app (c c' : Re.cursor) t :
  Re.rest c = t +:+ Re.rest c' → Re.consumed c c' = t.
Proof.
  intros E. unfold Re.consumed. rewrite E, sapp_length.
  replace (String.length t + String.length (Re.rest c') - String.length (Re.rest c'))
    with (String.length t) by lia.
  apply take_app_length.
Qed.

(** The rounds [sub_delete] allows are enough: more fuel changes nothing. *)
Lemma sub_go_fuel r n fuel pv s :
  String.length s < n → String.length s < fuel →
  Re.sub_go n r pv s = Re.sub_go fuel r pv s.
Proof.
  revert fuel pv s. induction n as [|n IH]; intros fuel pv s Hn Hfuel; [lia|].
  destruct fuel as [|fuel]; [lia|]. simpl.
  assert (Hskip : match s with
                  | "" => ""
                  | String a s' => String a (Re.sub_go n r (Some a) s')
                  end
                  = match s with
                    | "" => ""
                    | String a s' => String a (Re.sub_go fuel r (Some a) s')
                    end).
  { destruct s as [|a s]; [done|]. simpl in *. f_equal. apply IH; lia. }
  destruct (Re.run r _ _ _) as [c'|]; [|done].
  case_decide; [|done]. apply IH; lia.
Qed.

Lemma sub_delete_fuel r fuel s :
  String.length s < fuel → Re.sub_go fuel r None s = Re.sub_delete r s.
Proof. intros H. unfold Re.sub_delete. apply sub_go_fuel; lia. Qed.

(** ** script.py: the generic log extractor *)

Section PytestLog.
Implicit Types (last : gmap string string) (raw name tok : string).

(** The status group of a match is one of the seven tokens of the pattern. *)
Lemma log_line_re_status line m :
  Re.rmatch script.LOG_LINE_RE line = Some m →
  Re.group m "status" ∈ script.STATUS_TOKENS.
Proof.
  destruct m as [c g]. intros H%rmatch_sound.
  unfold script.LOG_LINE_RE in H. simpl in H.
  destruct H as (c1 & g1 & (-> & -> & _) & c2 & g2 & (g2' & _ & ->) & c3 & g3 &
    (_ & _ & _ & _ & ->) & c4 & g4 & (g4' & Hst & ->) & c5 & g5 & Hopt & (-> & -> & _)).
  assert (g5 = <[ "status" := Re.consumed c3 c4 ]> g4') as ->.
  { destruct Hopt as [(c6 & g6 & (-> & -> & _) & (_ & _ & _ & _ & ->)) | [_ ->]]; done. }
  unfold Re.group. simpl. rewrite lookup_total_insert_eq.
  unfold script.STATUS_TOKENS.
  repeat (destruct Hst as [[E _] | Hst];
          [apply consumed_app in E; rewrite E; set_solver |]).
  destruct Hst as [E _]. apply consumed_app in E. rewrite E. set_solver.
Qed.

Lemma reads_token raw name tok :
  script.reads raw = Some (name, tok) → tok ∈ script.STATUS_TOKENS.
Proof.
  unfold script.reads. destruct (negb _); [done|].
  destruct (Re.rmatch _ _) as [m|] eqn:E; [|done]. simpl.
  intros [= _ <-]. by eapply log_line_re_status.
Qed.

(** The seven tokens are their own canonical form. *)
Lemma canon_token tok :
  tok ∈ script.STATUS_TOKENS → script._canon_status tok = tok.
Proof.
  unfold script.STATUS_TOKENS. rewrite !elem_of_cons, elem_of_nil.
  intros [->|[->|[->|[->|[->|[->|[->|[]]]]]]]]; by vm_compute.
Qed.

(** One round of the loop, by what the line reads as. *)
Lemma log_line_reads last raw :
  script.log_line last raw =
  match script.reads raw with
  | Some (name, tok) =>
      if decide (tok = "RERUN") then last else <[name := tok]> last
  | None => last
  end.
Proof.
  destruct (script.reads raw) as [[name tok]|] eqn:Hr.
  - pose proof (reads_token _ _ _ Hr) as Htok%canon_token.
    revert Hr. unfold script.reads, script.log_line.
    destruct (negb _); [done|].
    destruct (Re.rmatch _ _) as [m|]; [|done]. simpl.
    intros [= <- <-]. by rewrite Htok.
  - revert Hr. unfold script.reads, script.log_line.
    destruct (negb _); [done|]. by destruct (Re.rmatch _ _).
Qed.

End PytestLog.

Section PytestLogFold.
Implicit Types (acc : gmap string string) (raw name tok : string).

Lemma fold_rerun_skipped acc pre raw post name :
  script.reads raw = Some (name, "RERUN") →
  foldl script.log_line acc (pre ++ raw :: post)
  = foldl script.log_line acc (pre ++ post).
Proof.
  intros Hr. rewrite !foldl_app. simpl.
  by rewrite (log_line_reads _ raw), Hr.
Qed.

(** Lines that read as another name, as RERUN, or as nothing leave the
    entry of [name] as it is. *)
Lemma fold_keeps_entry acc post name :
  (∀ raw' tok', raw' ∈ post → script.reads raw' = Some (name, tok') → tok' = "RERUN") →
  foldl script.log_line acc post !! name = acc !! name.
Proof.
  revert acc. induction post as [|raw post IH]; intros acc Hpost; [done|].
  simpl. rewrite IH by (intros ????; eapply Hpost; [by right | done]).
  rewrite log_line_reads.
  destruct (script.reads raw) as [[n tok]|] eqn:Hr; [|done].
  case_decide; [done|].
  destruct (decide (n = name)) as [->|Hn].
  - exfalso. eauto using list_elem_of_here.
  - by rewrite lookup_insert_ne.
Qed.

Lemma fold_never_rerun acc lines name :
  acc !! name ≠ Some "RERUN" →
  foldl script.log_line acc lines !! name ≠ Some "RERUN".
Proof.
  revert acc. induction lines as [|raw lines IH]; intros acc Hacc; [done|].
  simpl. apply IH. rewrite log_line_reads.
  destruct (script.reads raw) as [[n tok]|]; [|done].
  case_decide; [done|].
  destruct (decide (n = name)) as [->|Hn].
  - rewrite lookup_insert_eq. congruence.
  - by rewrite lookup_insert_ne.
Qed.

Lemma parse_pytest_log_ok txt m :
  script.parse_pytest_log txt = Ok m ↔
  m = foldl script.log_line ∅ (Py.splitlines txt) ∧ m ≠ ∅.
Proof.
  unfold script.parse_pytest_log. case_decide as E.
  - split; [done|]. intros [-> ?]. done.
  - split; [by intros [= <-]|]. by intros [-> _].
Qed.

End PytestLogFold.

(** The two lines of the rerun law, taken to the letter: the lazy name
    group runs up to the last whitespace before the token, so the name is
    the whole prefix of the line. *)
Example rerun_law_literal :
  script.parse_pytest_log (Py.text ["test X ... RERUN"; "test X ... PASSED"])
  = Ok {[ "test X ..." := "PASSED" ]}.
Proof. vm_compute. reflexivity. Qed.

(** C2. In the generic extractor, on a log of ASCII text, a line whose
    status token is RERUN never updates the mapping, and the last line for
    a name whose token is not RERUN gives the name its outcome; no name is
    ever mapped to RERUN.  In particular a log made of a RERUN line for X
    followed by a PASSED line for X yields the mapping with the one entry
    X -> PASSED. *)
Theorem rerun_discarded_last_line_wins
    (txt : string) (pre post : list string) (raw name tok : string) :
  Py.all Py.is_ascii txt = true →
  Py.splitlines txt = pre ++ raw :: post →
  script.reads raw = Some (name, tok) →
  (tok = "RERUN" →
     (∀ last, script.log_line last raw = last)
     ∧ foldl script.log_line ∅ (Py.splitlines txt)
       = foldl script.log_line ∅ (pre ++ post))
  ∧ (tok ≠ "RERUN" →
     (∀ raw' tok', raw' ∈ post → script.reads raw' = Some (name, tok') →
                   tok' = "RERUN") →
     ∃ m, script.parse_pytest_log txt = Ok m ∧ m !! name = Some tok)
  ∧ (∀ m n, script.parse_pytest_log txt = Ok m → m !! n ≠ Some "RERUN")
  ∧ (tok = "PASSED" →
     (∃ raw0, pre = [raw0] ∧ script.reads raw0 = Some (name, "RERUN")) →
     post = [] →
     script.parse_pytest_log txt = Ok {[ name := "PASSED" ]}).
Proof.
  intros _ Hlines Hr. split_and!.
  - intros ->. split.
    + intros last. by rewrite log_line_reads, Hr.
    + rewrite Hlines. by eapply fold_rerun_skipped.
  - intros Htok Hpost.
    assert (Hm : foldl script.log_line ∅ (Py.splitlines txt) !! name = Some tok).
    { rewrite Hlines, foldl_app. simpl. rewrite fold_keeps_entry by done.
      rewrite log_line_reads, Hr. rewrite decide_False by done.
      apply lookup_insert_eq. }
    eexists. split; [|exact Hm]. apply parse_pytest_log_ok. split; [done|].
    intros E. by rewrite E in Hm.
  - intros m n [-> _]%parse_pytest_log_ok. by apply fold_never_rerun.
  - intros -> (raw0 & -> & Hr0) ->. apply parse_pytest_log_ok.
    rewrite Hlines. simpl. rewrite !log_line_reads, Hr0, Hr. simpl.
    split; [done|]. apply insert_non_empty.
Qed.

Lemma rerun_discarded_last_line_wins_witness :
  let l1 := "tests/test_a.py::test_x RERUN" in
  let l2 := "tests/test_a.py::test_x PASSED                   [ 50%]" in
  let X := "tests/test_a.py::test_x" in
  Py.all Py.is_ascii (Py.text [l1; l2]) = true
  ∧ Py.splitlines (Py.text [l1; l2]) = [l1] ++ l2 :: []
  ∧ script.reads l1 = Some (X, "RERUN")
  ∧ script.reads l2 = Some (X, "PASSED")
  ∧ script.parse_pytest_log (Py.text [l1; l2]) = Ok {[ X := "PASSED" ]}.
Proof.
  intros l1 l2 X.
  assert (H0 : Py.all Py.is_ascii (Py.text [l1; l2]) = true)
    by (vm_compute; reflexivity).
  assert (H1 : Py.splitlines (Py.text [l1; l2]) = [l1] ++ l2 :: [])
    by (vm_compute; reflexivity).
  assert (H2 : script.reads l1 = Some (X, "RERUN")) by (vm_compute; reflexivity).
  assert (H3 : script.reads l2 = Some (X, "PASSED")) by (vm_compute; reflexivity).
  split_and!; [exact H0 | exact H1 | exact H2 | exact H3 |].
  apply (rerun_discarded_last_line_wins _ _ _ _ _ _ H0 H1 H3);
    [reflexivity | | reflexivity].
  exists l1. split; [reflexivity | exact H2].
Defined.

(** ** script_cpp.py: the line scan of the gtest extractor *)

Section GtestText.
Implicit Types (acc : gmap string string) (raw name st line : string).

Lemma gtest_line_sets acc raw :
  script_cpp.gtest_line acc raw =
  match script_cpp.sets raw with
  | Some (name, st) => <[name := st]> acc
  | None => acc
  end.
Proof.
  unfold script_cpp.gtest_line, script_cpp.sets.
  destruct (negb _); [done|].
  destruct (Re.rmatch script_cpp.GTEST_OUTCOME_RE _); [done|].
  by destruct (Re.rmatch script_cpp.GTEST_SUMMARY_FAIL_RE _).
Qed.

Lemma gtest_fold_keeps_entry acc post name :
  (∀ raw st, raw ∈ post → script_cpp.sets raw = Some (name, st) → acc !! name = Some st) →
  foldl script_cpp.gtest_line acc post !! name = acc !! name.
Proof.
  revert acc. induction post as [|raw post IH]; intros acc Hpost; [done|].
  simpl.
  assert (Hstep : script_cpp.gtest_line acc raw !! name = acc !! name).
  { rewrite gtest_line_sets.
    destruct (script_cpp.sets raw) as [[n st]|] eqn:Hs; [|done].
    destruct (decide (n = name)) as [->|Hn]; [|by rewrite lookup_insert_ne].
    rewrite lookup_insert_eq. symmetry. eauto using list_elem_of_here. }
  rewrite IH; [done|]. intros raw' st Hin Hs. rewrite Hstep.
  eapply Hpost; [by right | done].
Qed.

(** A line that sets FAILED for a name decides the name's entry, whatever
    came before it, as long as the lines after it set nothing else for
    the name. *)
Lemma gtest_failed_overrides acc pre raw post name :
  script_cpp.sets raw = Some (name, "FAILED") →
  (∀ raw' st, raw' ∈ post → script_cpp.sets raw' = Some (name, st) → st = "FAILED") →
  foldl script_cpp.gtest_line acc (pre ++ raw :: post) !! name = Some "FAILED".
Proof.
  intros Hs Hpost. rewrite foldl_app. simpl.
  rewrite gtest_fold_keeps_entry; rewrite gtest_line_sets, Hs, lookup_insert_eq; [done|].
  intros raw' st Hin Hs'. f_equal. symmetry. eauto.
Qed.

(** A line matched by either pattern opens with a bracket, whitespace and
    one of the three tags. *)
Lemma gtest_outcome_re_shape line m :
  Re.rmatch script_cpp.GTEST_OUTCOME_RE line = Some m →
  ∃ ws tag tail, line = "[" +:+ ws +:+ tag +:+ tail ∧ Py.all Py.is_space ws = true
                 ∧ tag ∈ ["OK"; "FAILED"; "SKIPPED"] ∧ Re.group m "tag" = tag.
Proof.
  destruct m as [c g]. intros H%rmatch_sound.
  unfold script_cpp.GTEST_OUTCOME_RE in H. simpl in H.
  destruct H as (c1 & g1 & (-> & -> & _) & c2 & g2 & (E1 & ->) & c3 & g3 &
    (ws & E2 & Hws & _ & ->) & c4 & g4 & (g4' & Htag & ->) & c5 & g5 &
    (_ & _ & _ & _ & ->) & c6 & g6 & (_ & ->) & c7 & g7 & (_ & _ & _ & _ & ->) &
    c8 & g8 & (g8' & (_ & _ & _ & _ & ->) & ->) & c9 & g9 & Hopt & c10 & g10 &
    (_ & _ & _ & _ & ->) & (-> & -> & _)).
  assert (g9 = <[ "name" := Re.consumed c7 c8 ]>
                 (<[ "tag" := Re.consumed c3 c4 ]> g4')) as ->.
  { destruct Hopt as [(? & ? & (_ & _ & _ & _ & ->) & ? & ? & (_ & ->) & ? & ? &
      (_ & _ & _ & _ & ->) & (_ & ->)) | [_ ->]]; done. }
  simpl in E1. exists ws, (Re.consumed c3 c4), (Re.rest c4).
  unfold Re.group. simpl.
  rewrite lookup_total_insert_ne, lookup_total_insert_eq by done.
  assert (Re.rest c3 = Re.consumed c3 c4 +:+ Re.rest c4
          ∧ Re.consumed c3 c4 ∈ ["OK"; "FAILED"; "SKIPPED"]) as [E3 ?].
  { destruct Htag as [[E _]|[[E _]|[E _]]];
      rewrite (consumed_app _ _ _ E); split; try done; set_solver. }
  split_and!; try done. by rewrite E1, E2, E3.
Qed.

Lemma gtest_summary_re_shape line m :
  Re.rmatch script_cpp.GTEST_SUMMARY_FAIL_RE line = Some m →
  ∃ ws tail, line = "[" +:+ ws +:+ "FAILED" +:+ tail ∧ Py.all Py.is_space ws = true.
Proof.
  destruct m as [c g]. intros H%rmatch_sound.
  unfold script_cpp.GTEST_SUMMARY_FAIL_RE in H. simpl in H.
  destruct H as (c1 & g1 & (-> & -> & _) & c2 & g2 & (E1 & ->) & c3 & g3 &
    (ws & E2 & Hws & _ & ->) & c4 & g4 & (E3 & ->) & _).
  simpl in E1. exists ws, (Re.rest c4). by rewrite E1, E2, E3.
Qed.

(** The status a line sets goes with the tag in its bracket. *)
Lemma sets_shape raw name st :
  script_cpp.sets raw = Some (name, st) →
  ∃ ws tag tail,
    Py.rstrip raw = "[" +:+ ws +:+ tag +:+ tail ∧ Py.all Py.is_space ws = true
    ∧ (tag, st) ∈ [("OK", "PASSED"); ("FAILED", "FAILED"); ("SKIPPED", "SKIPPED")].
Proof.
  unfold script_cpp.sets. destruct (negb _); [done|].
  destruct (Re.rmatch script_cpp.GTEST_OUTCOME_RE _) as [m|] eqn:E1.
  - apply gtest_outcome_re_shape in E1 as (ws & tag & tail & E & Hws & Htag & ->).
    intros [= _ <-]. exists ws, tag, tail. split_and!; [done..|].
    rewrite !elem_of_cons, elem_of_nil in Htag.
    destruct Htag as [->|[->|[->|[]]]]; vm_compute; set_solver.
  - destruct (Re.rmatch script_cpp.GTEST_SUMMARY_FAIL_RE _) as [m|] eqn:E2; [|done].
    apply gtest_summary_re_shape in E2 as (ws & tail & E & Hws).
    intros [= _ <-]. exists ws, "FAILED", tail. split_and!; [done..|set_solver].
Qed.

Lemma rstrip_keeps_prefix s c t :
  Py.is_space c = false →
  Py.rstrip (s +:+ String c t) = s +:+ String c (Py.rstrip t)
  ∨ Py.rstrip (s +:+ String c t) = s +:+ String c "".
Proof.
  intros Hc.
  assert (Hbase : Py.rstrip (String c t) = String c (Py.rstrip t)
                  ∨ Py.rstrip (String c t) = String c "").
  { simpl. rewrite Hc. destruct (Py.rstrip t); auto. }
  induction s as [|a s IH]; [done|].
  rewrite !sapp_cons. simpl.
  destruct IH as [-> | ->]; [left | right];
    by destruct s.
Qed.

(** A line whose bracket holds RUN sets nothing. *)
Lemma gtest_run_line_skipped ws tail :
  Py.all Py.is_space ws = true →
  script_cpp.sets ("[" +:+ ws +:+ "RUN" +:+ tail) = None.
Proof.
  intros Hws. unfold script_cpp.sets.
  destruct (negb _); [done|].
  assert (Hline : ∃ tail', Py.rstrip ("[" +:+ ws +:+ "RUN" +:+ tail)
                           = "[" +:+ ws +:+ "RUN" +:+ tail').
  { pose proof (rstrip_keeps_prefix ("[" +:+ ws +:+ "RU") "N"%char tail eq_refl) as H.
    rewrite !sapp_assoc in H. change ("RU" +:+ String "N" ?t) with ("RUN" +:+ t) in H.
    destruct H as [-> | ->]; eauto. }
  destruct Hline as [tail' ->].
  assert (Hno : ∀ ws' tag tail'', Py.all Py.is_space ws' = true →
            tag ∈ ["OK"; "FAILED"; "SKIPPED"] →
            "[" +:+ ws +:+ "RUN" +:+ tail' ≠ "[" +:+ ws' +:+ tag +:+ tail'').
  { intros ws' tag tail'' Hws' Htag E.
    rewrite !sapp_cons, !sapp_nil_l in E. injection E as E.
    apply (f_equal Py.lstrip) in E.
    rewrite !lstrip_spaces in E by done.
    rewrite !elem_of_cons, elem_of_nil in Htag.
    destruct Htag as [->|[->|[->|[]]]];
      rewrite !sapp_cons in E; simpl in E; discriminate E. }
  destruct (Re.rmatch script_cpp.GTEST_OUTCOME_RE _) as [m|] eqn:E1.
  { apply gtest_outcome_re_shape in E1 as (ws' & tag & tail'' & E & ? & ? & _).
    by eapply Hno in E. }
  destruct (Re.rmatch script_cpp.GTEST_SUMMARY_FAIL_RE _) as [m|] eqn:E2; [|done].
  apply gtest_summary_re_shape in E2 as (ws' & tail'' & E & ?).
  eapply Hno in E; [done..|set_solver].
Qed.

End GtestText.

(** C4. In the line scan of the gtest extractor, on lines of ASCII text,
    a line that sets PASSED
    is an OK line and a line that sets FAILED is a FAILED line; a FAILED
    line for a name that comes after an OK line for the same name
    overwrites the earlier PASSED with FAILED; the log RUN T.One,
    OK T.One, RUN T.Two, FAILED T.Two followed by the summary line
    FAILED T.Two yields exactly the mapping T.One -> PASSED,
    T.Two -> FAILED; and a RUN line creates no entry. *)
Theorem gtest_failed_after_ok_overrides
    (before mid after : list string) (l_ok l_failed name : string) :
  forallb (Py.all Py.is_ascii) (before ++ l_ok :: mid ++ l_failed :: after) = true →
  script_cpp.sets l_ok = Some (name, "PASSED") →
  script_cpp.sets l_failed = Some (name, "FAILED") →
  (∀ raw st, raw ∈ after → script_cpp.sets raw = Some (name, st) → st = "FAILED") →
  (∃ ws tail, Py.rstrip l_ok = "[" +:+ ws +:+ "OK" +:+ tail
              ∧ Py.all Py.is_space ws = true)
  ∧ (∃ ws tail, Py.rstrip l_failed = "[" +:+ ws +:+ "FAILED" +:+ tail
                ∧ Py.all Py.is_space ws = true)
  ∧ foldl script_cpp.gtest_line ∅ (before ++ [l_ok]) !! name = Some "PASSED"
  ∧ foldl script_cpp.gtest_line ∅ (before ++ l_ok :: mid ++ l_failed :: after) !! name
    = Some "FAILED"
  ∧ script_cpp.gtest_text (Py.text gtest_scenario)
    = Ok {[ "T.One" := "PASSED"; "T.Two" := "FAILED" ]}
  ∧ (∀ json_loads py_repr, json_loads (Py.text gtest_scenario) = None →
       script_cpp.parse_gtest_log json_loads py_repr (Py.text gtest_scenario)
       = Ok {[ "T.One" := "PASSED"; "T.Two" := "FAILED" ]})
  ∧ (∀ ws tail acc, Py.all Py.is_space ws = true →
       script_cpp.gtest_line acc ("[" +:+ ws +:+ "RUN" +:+ tail) = acc).
Proof.
  intros _ Hok Hfailed Hafter.
  assert (Hscenario : script_cpp.gtest_text (Py.text gtest_scenario)
            = Ok {[ "T.One" := "PASSED"; "T.Two" := "FAILED" ]})
    by (vm_compute; reflexivity).
  split_and!.
  - apply sets_shape in Hok as (ws & tag & tail & E & Hws & Htag).
    rewrite !elem_of_cons, elem_of_nil in Htag.
    destruct Htag as [?|[?|[?|[]]]]; simplify_eq. eauto.
  - apply sets_shape in Hfailed as (ws & tag & tail & E & Hws & Htag).
    rewrite !elem_of_cons, elem_of_nil in Htag.
    destruct Htag as [?|[?|[?|[]]]]; simplify_eq. eauto.
  - rewrite foldl_app. simpl. by rewrite gtest_line_sets, Hok, lookup_insert_eq.
  - replace (before ++ l_ok :: mid ++ l_failed :: after)
      with ((before ++ l_ok :: mid) ++ l_failed :: after)
      by (by rewrite <- (assoc_L (++))).
    by apply gtest_failed_overrides.
  - exact Hscenario.
  - intros json_loads py_repr Hnone.
    unfold script_cpp.parse_gtest_log, script_cpp._parse_gtest_json.
    rewrite Hnone. simpl. rewrite decide_False by (intros H; by apply H).
    exact Hscenario.
  - intros ws tail acc Hws. by rewrite gtest_line_sets, gtest_run_line_skipped.
Qed.

Lemma gtest_failed_after_ok_overrides_witness :
  let l_ok := "[       OK ] MathTests.Addition (0 ms)" in
  let l_failed := "[  FAILED  ] MathTests.Addition" in
  let name := "MathTests.Addition" in
  script_cpp.sets l_ok = Some (name, "PASSED")
  ∧ script_cpp.sets l_failed = Some (name, "FAILED")
  ∧ foldl script_cpp.gtest_line ∅
      (["[ RUN      ] MathTests.Addition"] ++ l_ok
       :: ["[----------] 1 test from MathTests (0 ms total)"] ++ l_failed :: [])
    !! name = Some "FAILED"
  ∧ demo_loads (Py.text gtest_scenario) = None
  ∧ script_cpp.parse_gtest_log demo_loads demo_repr (Py.text gtest_scenario)
    = Ok {[ "T.One" := "PASSED"; "T.Two" := "FAILED" ]}.
Proof.
  intros l_ok l_failed name.
  assert (H0 : forallb (Py.all Py.is_ascii)
                 (["[ RUN      ] MathTests.Addition"] ++ l_ok
                  :: ["[----------] 1 test from MathTests (0 ms total)"]
                  ++ l_failed :: []) = true) by (vm_compute; reflexivity).
  assert (H1 : script_cpp.sets l_ok = Some (name, "PASSED")) by (vm_compute; reflexivity).
  assert (H2 : script_cpp.sets l_failed = Some (name, "FAILED")) by (vm_compute; reflexivity).
  assert (H3 : ∀ raw st, raw ∈ [] → script_cpp.sets raw = Some (name, st) → st = "FAILED")
    by (intros raw st Hin; by apply elem_of_nil in Hin).
  assert (H4 : demo_loads (Py.text gtest_scenario) = None) by (vm_compute; reflexivity).
  pose proof (gtest_failed_after_ok_overrides
                ["[ RUN      ] MathTests.Addition"]
                ["[----------] 1 test from MathTests (0 ms total)"] []
                l_ok l_failed name H0 H1 H2 H3) as (_ & _ & _ & Hf & _ & Hlog & _).
  split_and!; [exact H1 | exact H2 | exact Hf | exact H4 |].
  exact (Hlog demo_loads demo_repr H4).
Defined.

(** ** The structured-source extractor *)

Section ResultsJson.
Variable json_loads : string → option pyval.
Variable py_repr : pyval → string.
Variable T : gmap string string.
Implicit Types (txt ln : string) (tests : list pyval) (acc m : gmap string string).


Lemma entries_nonempty tests i acc m :
  Common.entries py_repr T i tests acc = Ok m → tests ≠ [] ∨ acc ≠ ∅ → m ≠ ∅.
Proof.
  revert i acc. induction tests as [|item tests IH]; intros i acc; simpl.
  - intros [= <-] [?|?]; done.
  - destruct item as [| | | | | |d]; try done.
    destruct (Py.truthy _); [|done].
    intros E%IH _; [done|]. right. apply insert_non_empty.
Qed.

(** Processing an array leaves the mapping empty only if the array is. *)
Lemma entries_empty_iff tests : Common.entries py_repr T 0 tests ∅ = Ok ∅ ↔ tests = [].
Proof.
  split; [|by intros ->].
  intros E. destruct tests as [|item tests]; [done|].
  by eapply entries_nonempty in E; [|by left].
Qed.

Lemma parse_never_empty txt m : Common.parse_results_json json_loads py_repr T txt = Ok m → m ≠ ∅.
Proof.
  unfold Common.parse_results_json.
  destruct (match json_loads txt with Some _ => _ | None => _ end) as [tests|];
    [|done]. simpl.
  destruct (Common.entries _ _ _ _ _) as [r|]; [|done]. simpl.
  case_decide; [done|]. by intros [= <-].
Qed.

Lemma parse_empty_array txt data :
  json_loads txt = Some data → Common._extract_tests_array data = Ok [] →
  Common.parse_results_json json_loads py_repr T txt = Raise (ValueError ZeroTests).
Proof.
  intros Hload Harr. unfold Common.parse_results_json.
  by rewrite Hload, Harr.
Qed.

(** The line-delimited fallback stops at the first line that is not JSON
    and reports its position among the non-blank lines. *)
Lemma ndjson_first_bad txt i good bad rest :
  Forall (λ ln, is_Some (json_loads ln)) good → json_loads bad = None →
  Common.ndjson_objs json_loads txt i (good ++ bad :: rest)
  = Raise (ValueError (NotJson (i + length good) (preview_of bad) (Py.take 160 txt))).
Proof.
  intros Hgood Hbad. revert i. induction Hgood as [|ln good [v Hv] _ IH]; intros i; simpl.
  - rewrite Hbad. do 3 f_equal. lia.
  - rewrite Hv, IH. simpl. do 3 f_equal. lia.
Qed.

Lemma parse_ndjson_report txt good bad rest :
  json_loads txt = None →
  Common.nonblank_lines txt = good ++ bad :: rest →
  Forall (λ ln, is_Some (json_loads ln)) good → json_loads bad = None →
  Common.parse_results_json json_loads py_repr T txt
  = Raise (ValueError (NotJson (1 + length good) (preview_of bad) (Py.take 160 txt))).
Proof.
  intros Hdoc Hlines Hgood Hbad. unfold Common.parse_results_json.
  by rewrite Hdoc, Hlines, ndjson_first_bad.
Qed.

End ResultsJson.

Lemma take_length n s : String.length (Py.take n s) ≤ n.
Proof.
  revert s. induction n as [|n IH]; intros [|c s]; simpl; try lia.
  specialize (IH s). lia.
Qed.

Lemma take_prefix n s : ∃ t, s = Py.take n s +:+ t.
Proof.
  revert s. induction n as [|n IH]; intros [|c s]; simpl; eauto.
  destruct (IH s) as [t Ht]. exists t. by rewrite sapp_cons, <- Ht.
Qed.

(** The preview is the line itself, or its first 160 characters and the
    ellipsis. *)
Lemma preview_bounded ln :
  preview_of ln = ln
  ∨ (preview_of ln = Py.take 160 ln +:+ ellipsis
     ∧ String.length (Py.take 160 ln) ≤ 160).
Proof.
  unfold preview_of. case_decide; [right | by left].
  split; [done | apply take_length].
Qed.

(** C7. A structured input that parses as a JSON document and yields zero
    test entries makes the extractor fail with the zero-tests error: an
    empty entry array does, an array leaves the mapping empty only when it
    is empty, and the extractor never returns an empty result set. *)
Theorem zero_tests_rejected
    (json_loads : string → option pyval) (py_repr : pyval → string)
    (T : gmap string string) (txt : string) (data : pyval) :
  json_loads txt = Some data →
  let parse := Common.parse_results_json json_loads py_repr T in
  (Common._extract_tests_array data = Ok [] →
     parse txt = Raise (ValueError ZeroTests))
  ∧ (∀ tests, Common._extract_tests_array data = Ok tests →
       Common.entries py_repr T 0 tests ∅ = Ok ∅ →
       parse txt = Raise (ValueError ZeroTests))
  ∧ (∀ m, parse txt = Ok m → m ≠ ∅)
  ∧ script.parse_results_json = (λ l r, Common.parse_results_json l r script.CANON_STATUSES).
Proof.
  intros Hload parse. split_and!.
  - by apply parse_empty_array.
  - intros tests Harr ->%entries_empty_iff. by eapply parse_empty_array.
  - apply parse_never_empty.
  - reflexivity.
Qed.

Lemma zero_tests_rejected_witness :
  demo_loads doc_empty_array = Some (PList [])
  ∧ Common._extract_tests_array (PList []) = Ok []
  ∧ script.parse_results_json demo_loads demo_repr doc_empty_array
    = Raise (ValueError ZeroTests).
Proof.
  assert (H : demo_loads doc_empty_array = Some (PList [])) by (vm_compute; reflexivity).
  split_and!; [exact H | reflexivity |].
  exact (proj1 (zero_tests_rejected demo_loads demo_repr script.CANON_STATUSES
                  doc_empty_array (PList []) H) eq_refl).
Defined.

(** C6, evaluated where the code departs from it.  In the text
    [ndjson_blank_then_bad] the line that is not JSON is the third line,
    after a blank second line; the error reports line 2, the position of
    the line among the non-blank lines.  The preview and the head of the
    file are as the claim says. *)
Theorem ndjson_line_number_skips_blank_lines :
  let txt := ndjson_blank_then_bad in
  demo_loads txt = None
  ∧ Py.splitlines txt = [ndjson_entry "a" "PASSED"; ""; "{bad"]
  ∧ demo_loads "{bad" = None
  ∧ script.parse_results_json demo_loads demo_repr txt
    = Raise (ValueError (NotJson 2 "{bad" (Py.take 160 txt))).
Proof. vm_compute. done. Qed.

(** ** The two-pass extractors *)

Section TwoPass.
Variable json_loads : string → option pyval.
Variable py_repr : pyval → string.
Implicit Types (txt : string) (m : gmap string string).

(** [parse_gtest_log]: the line scan runs exactly when the JSON pass
    returns the empty mapping; a non-empty mapping is the result, an
    exception of the JSON pass ends the extraction. *)
Lemma parse_gtest_log_cases txt :
  script_cpp.parse_gtest_log json_loads py_repr txt =
  match script_cpp._parse_gtest_json json_loads py_repr txt with
  | Ok m => if decide (m = ∅) then script_cpp.gtest_text txt else Ok m
  | Raise e => Raise e
  end.
Proof.
  unfold script_cpp.parse_gtest_log.
  destruct (script_cpp._parse_gtest_json _ _ _) as [m|e]; [|done]. simpl.
  destruct (decide (m = ∅)) as [->|Hm].
  - by rewrite decide_False by (intros H; by apply H).
  - by rewrite decide_True.
Qed.

Lemma gtest_not_json_falls_back txt :
  json_loads txt = None →
  script_cpp._parse_gtest_json json_loads py_repr txt = Ok ∅
  ∧ script_cpp.parse_gtest_log json_loads py_repr txt = script_cpp.gtest_text txt.
Proof.
  intros H.
  assert (E : script_cpp._parse_gtest_json json_loads py_repr txt = Ok ∅)
    by (unfold script_cpp._parse_gtest_json; by rewrite H).
  split; [done|]. by rewrite parse_gtest_log_cases, E.
Qed.

(** A document that is not an object, or has no [testsuites] key, or whose
    [testsuites] is an empty list, gives the empty mapping. *)
Lemma gtest_no_suites_falls_back txt obj :
  json_loads txt = Some obj →
  match obj with
  | PDict d => Obj.lookup d "testsuites" = None
               ∨ Obj.lookup d "testsuites" = Some (PList [])
  | _ => True
  end →
  script_cpp.parse_gtest_log json_loads py_repr txt = script_cpp.gtest_text txt.
Proof.
  intros Hload Hobj. rewrite parse_gtest_log_cases.
  unfold script_cpp._parse_gtest_json. rewrite Hload.
  destruct obj as [| | | | | |d]; try done.
  by destruct Hobj as [-> | ->].
Qed.

(** [parse_rust_log]: the same order of passes. *)
Lemma parse_rust_log_cases txt :
  script_rust.parse_rust_log json_loads py_repr txt =
  match script_rust._parse_rust_json_lines json_loads py_repr txt with
  | Ok m =>
      if decide (m = ∅) then
        let text_results := script_rust._parse_rust_text_lines txt in
        if decide (text_results = ∅) then Raise (ValueError ZeroOutcomeLines)
        else Ok text_results
      else Ok m
  | Raise e => Raise e
  end.
Proof.
  unfold script_rust.parse_rust_log.
  destruct (script_rust._parse_rust_json_lines _ _ _) as [m|e]; [|done]. simpl.
  destruct (decide (m = ∅)) as [->|Hm].
  - rewrite decide_False by (intros H; by apply H).
    destruct (decide (script_rust._parse_rust_text_lines txt = ∅)) as [->|Ht].
    + by rewrite decide_False by (intros H; by apply H).
    + by rewrite decide_True.
  - by rewrite decide_True.
Qed.

(** A line the decoder rejects is skipped by the cargo JSON pass. *)
Lemma rust_json_line_not_json acc raw :
  json_loads (Py.strip raw) = None →
  script_rust.json_line json_loads py_repr acc raw = Ok acc.
Proof.
  intros H. unfold script_rust.json_line.
  destruct (negb (Py.truthy _)); [done|].
  destruct (negb (_ && _ && _)); [done|]. by rewrite H.
Qed.

(** The decoder turns a text that opens with a brace into a dict, so the
    cargo JSON pass never raises. *)
Lemma rust_json_pass_total txt :
  (∀ s v, json_loads s = Some v → Py.startswith "{" s = true → ∃ d, v = PDict d) →
  ∃ m, script_rust._parse_rust_json_lines json_loads py_repr txt = Ok m.
Proof.
  intros Hdict. unfold script_rust._parse_rust_json_lines.
  generalize (∅ : gmap string string). induction (Py.splitlines txt) as [|raw lines IH];
    intros acc; simpl; [eauto|].
  assert (∃ acc', script_rust.json_line json_loads py_repr acc raw = Ok acc')
    as [acc' ->]; [|apply IH].
  unfold script_rust.json_line.
  destruct (negb (Py.truthy _)); [eauto|].
  destruct (Py.startswith "{" (Py.strip raw)) eqn:Hb; simpl; [|eauto].
  destruct (negb (_ && _)); [eauto|].
  destruct (json_loads (Py.strip raw)) as [v|] eqn:Hv; [|eauto].
  destruct (Hdict _ _ Hv Hb) as [d ->]. simpl.
  destruct (Obj.get d "type" PNone) as [| | | |s| |]; eauto.
  destruct (decide (s = "test")) as [->|Hs].
  - destruct (negb (Py.truthy _)); [eauto|].
    repeat (destruct (bool_decide _); [eauto|]). eauto.
  - destruct s as [|[[] [] [] [] [] [] [] []] s]; eauto; simpl;
      repeat (match goal with
              | |- context [match ?s with "" => _ | String _ _ => _ end] =>
                  destruct s as [|[[] [] [] [] [] [] [] []] ?]; eauto
              end); congruence.
Qed.

End TwoPass.

(** C3, evaluated where the code departs from it.  The documents
    [doc_suites_null] and [doc_suite_without_cases] parse as JSON and
    describe no test; on both the JSON pass of [parse_gtest_log] raises
    [TypeError], so the extraction fails at once and the line scan is not
    consulted.  A document with an empty list of suites does fall back. *)
Theorem gtest_json_pass_raises_on_malformed_suites :
  demo_loads doc_suites_null = Some (PDict [("testsuites", PNone)])
  ∧ script_cpp.parse_gtest_log demo_loads demo_repr doc_suites_null
    = Raise TypeError
  ∧ is_Some (demo_loads doc_suite_without_cases)
  ∧ script_cpp.parse_gtest_log demo_loads demo_repr doc_suite_without_cases
    = Raise TypeError
  ∧ script_cpp.parse_gtest_log demo_loads demo_repr doc_no_suites
    = script_cpp.gtest_text doc_no_suites.
Proof. split_and!; try (vm_compute; reflexivity). vm_compute. eauto. Qed.

(** ** The whole run on a small pair of inputs *)

(** A line-delimited result file and a log that agree. *)
Example reconcile_agreeing_inputs :
  script.parse_results_json demo_loads demo_repr
    (Py.text [ndjson_entry "a" "PASSED"; ndjson_entry "b" "FAILED"])
  = Ok {[ "a" := "PASSED"; "b" := "FAILED" ]}
  ∧ script.parse_pytest_log (Py.text ["a PASSED"; "b FAILED"])
    = Ok {[ "a" := "PASSED"; "b" := "FAILED" ]}
  ∧ script.compare {[ "a" := "PASSED"; "b" := "FAILED" ]}
                   {[ "a" := "PASSED"; "b" := "FAILED" ]}
    = {| same := true; counts_equal := true; names_equal := true;
         statuses_equal := true; count_json := 2; count_log := 2;
         only_in_json := []; only_in_log := []; status_mismatches := [] |}.
Proof. split_and!; vm_compute; reflexivity. Qed.

(** A name the log does not mention. *)
Example reconcile_missing_in_log :
  let r := script.compare {[ "a" := "PASSED"; "c" := "PASSED" ]}
                          {[ "a" := "PASSED" ]} in
  only_in_json r = ["c"] ∧ names_equal r = false ∧ same r = false.
Proof. split_and!; vm_compute; reflexivity. Qed.

(** * Further properties *)

(** ** The comparator: the three lists *)

Section CompareLists.
Implicit Types A B : gmap string string.

Lemma StronglySorted_filter {X} (R : relation X) (P : X → Prop)
    `{∀ x, Decision (P x)} (l : list X) :
  StronglySorted R l → StronglySorted R (filter P l).
Proof.
  induction 1 as [|x l Hl IH Hx]; [constructor|].
  rewrite filter_cons. case_decide; [|done].
  constructor; [done|]. apply Forall_forall. intros y [_ Hy]%list_elem_of_filter.
  by eapply Forall_forall in Hx.
Qed.

Lemma mismatch_names A B :
  (λ t : string * string * string, t.1.1) <$> status_mismatches (Common.compare A B)
  = filter (λ n, A !!! n ≠ B !!! n) (Py.sorted (elements (dom A ∩ dom B))).
Proof.
  simpl. rewrite <- list_fmap_compose.
  rewrite (list_fmap_ext _ id); [apply list_fmap_id|done].
Qed.

Lemma length_sorted_elements (X : gset string) :
  length (Py.sorted (elements X)) = size X.
Proof. unfold Py.sorted. by rewrite merge_sort_Permutation. Qed.

End CompareLists.

(** X1. A triple is listed in [status_mismatches] exactly when the name
    is a key of both mappings with two different outcomes, which are the
    ones listed; the names of the list are in ascending order and none
    occurs twice. *)
Theorem status_mismatches_spec (A B : gmap string string) :
  let l := status_mismatches (Common.compare A B) in
  (∀ n a b, (n, a, b) ∈ l ↔ A !! n = Some a ∧ B !! n = Some b ∧ a ≠ b)
  ∧ StronglySorted String.le ((λ t, t.1.1) <$> l)
  ∧ NoDup ((λ t, t.1.1) <$> l).
Proof.
  intros l. split_and!.
  - intros n a b. unfold l. simpl. rewrite list_elem_of_fmap. split.
    + intros (n' & [= -> -> ->] & [Hne Hn]%list_elem_of_filter).
      apply common_names_present in Hn as [Ha Hb]. done.
    + intros (Ha & Hb & Hne). exists n.
      rewrite !lookup_total_alt, Ha, Hb. simpl. split; [done|].
      apply list_elem_of_filter. rewrite !lookup_total_alt, Ha, Hb. simpl.
      split; [done|].
      rewrite elem_of_sorted, elem_of_elements, elem_of_intersection, !elem_of_dom.
      eauto.
  - unfold l. rewrite mismatch_names. apply StronglySorted_filter.
    apply StronglySorted_merge_sort; apply _.
  - unfold l. rewrite mismatch_names. apply NoDup_filter.
    unfold Py.sorted. rewrite merge_sort_Permutation. apply NoDup_elements.
Qed.

(** X2. Swapping the arguments of [compare] keeps the names of the
    status mismatches and their order, and swaps the two outcomes of each
    triple. *)
Theorem status_mismatches_swap (A B : gmap string string) :
  status_mismatches (Common.compare B A)
  = (λ t : string * string * string, (t.1.1, t.2, t.1.2))
      <$> status_mismatches (Common.compare A B).
Proof.
  simpl. rewrite <- list_fmap_compose.
  replace (dom B ∩ dom A) with (dom A ∩ dom B) by set_solver.
  rewrite (list_filter_iff (λ n, B !!! n ≠ A !!! n) (λ n, A !!! n ≠ B !!! n))
    by (intros n; split; intros H E; by apply H).
  done.
Qed.

(** X3. The two counts are tied to the lengths of the lists: each count
    is the number of common names plus the length of the list of names
    only that side has, and at most as many mismatches are listed as
    there are common names. *)
Theorem compare_counts (A B : gmap string string) :
  let r := Common.compare A B in
  count_json r = size A ∧ count_log r = size B
  ∧ count_json r = length (only_in_json r) + size (dom A ∩ dom B)
  ∧ count_log r = length (only_in_log r) + size (dom A ∩ dom B)
  ∧ count_json r + length (only_in_log r) = count_log r + length (only_in_json r)
  ∧ length (status_mismatches r) ≤ size (dom A ∩ dom B).
Proof.
  intros r.
  assert (H1 : count_json r = length (only_in_json r) + size (dom A ∩ dom B)).
  { simpl. rewrite length_sorted_elements, <- size_union by set_solver.
    f_equal. apply set_eq. intros n.
    destruct (decide (n ∈ dom B)); set_solver. }
  assert (H2 : count_log r = length (only_in_log r) + size (dom A ∩ dom B)).
  { simpl. rewrite length_sorted_elements, <- size_union by set_solver.
    f_equal. apply set_eq. intros n.
    destruct (decide (n ∈ dom A)); set_solver. }
  split_and!; [apply size_dom | apply size_dom | done | done | lia |].
  simpl. rewrite length_fmap. etrans; [apply length_filter|].
  by rewrite length_sorted_elements.
Qed.

(** X4. No name is reported twice: a name listed as only in the JSON
    results is not listed as only in the log, and the names of the status
    mismatches are in neither list. *)
Theorem compare_lists_disjoint (A B : gmap string string) (n : string) :
  let r := Common.compare A B in
  ¬ (n ∈ only_in_json r ∧ n ∈ only_in_log r)
  ∧ (n ∈ (λ t, t.1.1) <$> status_mismatches r →
       (n ∉ only_in_json r) ∧ (n ∉ only_in_log r) ∧ n ∈ dom A ∧ n ∈ dom B).
Proof.
  intros r. subst r. pose proof (only_in_json_spec A B) as (_ & _ & Hj).
  pose proof (only_in_log_spec A B) as (_ & _ & Hl).
  split.
  - intros [H1%Hj H2%Hl]. tauto.
  - rewrite mismatch_names. intros [_ Hn]%list_elem_of_filter.
    rewrite elem_of_sorted, elem_of_elements, elem_of_intersection in Hn.
    rewrite Hj, Hl. tauto.
Qed.

Lemma compare_lists_disjoint_witness :
  let A : gmap string string := {[ "a" := "PASSED"; "b" := "FAILED" ]} in
  let B : gmap string string := {[ "a" := "FAILED"; "c" := "PASSED" ]} in
  let r := Common.compare A B in
  "a" ∈ (λ t, t.1.1) <$> status_mismatches r
  ∧ ("a" ∉ only_in_json r) ∧ ("a" ∉ only_in_log r).
Proof.
  intros A B r.
  assert (H : "a" ∈ (λ t, t.1.1) <$> status_mismatches r)
    by (apply (bool_decide_unpack _); vm_compute; exact I).
  destruct (proj2 (compare_lists_disjoint A B "a") H) as (H1 & H2 & _).
  split_and!; [exact H | exact H1 | exact H2].
Defined.

(** ** The canonicalizer: normal forms *)

Section Trim.
Implicit Types (s t : string) (c : ascii).

Lemma lstrip_head s :
  Py.lstrip s = "" ∨ ∃ c t, Py.lstrip s = String c t ∧ Py.is_space c = false.
Proof.
  induction s as [|c s IH]; [by left|]. simpl.
  destruct (Py.is_space c) eqn:Hc; [done|]. right. eauto.
Qed.

Lemma rstrip_head c t :
  Py.is_space c = false → ∃ t', Py.rstrip (String c t) = String c t'.
Proof. intros Hc. simpl. rewrite Hc. destruct (Py.rstrip t); eauto. Qed.

Lemma rstrip_idem s : Py.rstrip (Py.rstrip s) = Py.rstrip s.
Proof.
  induction s as [|c s IH]; [done|]. simpl.
  destruct (Py.rstrip s) as [|a r] eqn:E.
  - destruct (Py.is_space c) eqn:Hc; [done|]. simpl. by rewrite Hc.
  - change (Py.rstrip (String c (String a r))) with
      (match Py.rstrip (String a r) with
       | "" => if Py.is_space c then "" else String c ""
       | r' => String c r'
       end).
    by rewrite IH.
Qed.

Lemma strip_idem s : Py.strip (Py.strip s) = Py.strip s.
Proof.
  unfold Py.strip. destruct (lstrip_head s) as [E | (c & t & E & Hc)].
  - by rewrite E.
  - rewrite E. destruct (rstrip_head c t Hc) as [t' E']. rewrite E'.
    simpl Py.lstrip. rewrite Hc, <- E'. apply rstrip_idem.
Qed.

(** A stripped string is empty or begins and ends with a character that is
    not whitespace. *)
Lemma strip_first s c t : Py.strip s = String c t → Py.is_space c = false.
Proof.
  unfold Py.strip. destruct (lstrip_head s) as [E | (c' & t' & E & Hc)].
  - by rewrite E.
  - rewrite E. destruct (rstrip_head c' t' Hc) as [t'' ->]. by intros [= <- _].
Qed.

Lemma upper_idem s : Py.upper (Py.upper s) = Py.upper s.
Proof. unfold Py.upper. rewrite map_map. apply map_ext, upper_char_idem. Qed.

Lemma strip_upper s : Py.strip (Py.upper s) = Py.upper (Py.strip s).
Proof. apply strip_map, is_space_upper. Qed.

Lemma upper_no_lower s : Py.all (λ c, negb (is_lower c)) (Py.upper s) = true.
Proof.
  unfold Py.upper. induction s as [|c s IH]; [done|]. simpl.
  rewrite IH, andb_true_r. by destruct c as [[] [] [] [] [] [] [] []].
Qed.

Lemma no_lower_upper s :
  Py.all (λ c, negb (is_lower c)) s = true → Py.upper s = s.
Proof.
  unfold Py.upper. induction s as [|c s IH]; [done|]. simpl.
  intros [Hc Hs]%andb_true_iff.
  rewrite (IH Hs). f_equal. unfold Py.upper_char, is_lower in *.
  by destruct (Py.between 97 122 c).
Qed.

End Trim.

Section CanonNormal.
Implicit Types (T : gmap string string) (s v : string).

Lemma tables_values T u v : T ∈ TABLES → T !! u = Some v → v ∈ OUTCOMES.
Proof.
  intros HT%tables_cases Hu.
  assert (map_Forall (λ _ w, w ∈ OUTCOMES) T) as H; [|by eapply H].
  destruct HT as [->|[->| ->]]; apply (bool_decide_unpack _); by vm_compute.
Qed.

Lemma tables_fixed T v : T ∈ TABLES → v ∈ OUTCOMES → T !! v = Some v.
Proof.
  intros HT%tables_cases. unfold OUTCOMES. rewrite !elem_of_cons, elem_of_nil.
  intros [->|[->|[->|[->|[->|[->|[]]]]]]];
    destruct HT as [->|[->| ->]]; by vm_compute.
Qed.

Lemma outcome_normal v :
  v ∈ OUTCOMES → Py.strip v = v ∧ Py.upper v = v.
Proof.
  unfold OUTCOMES. rewrite !elem_of_cons, elem_of_nil.
  intros [->|[->|[->|[->|[->|[->|[]]]]]]]; by vm_compute.
Qed.

Lemma canon_cases T s :
  T ∈ TABLES →
  Common._canon_status T s ∈ OUTCOMES
  ∨ (Common._canon_status T s = Py.upper (Py.strip s)
     ∧ T !! Py.upper (Py.strip s) = None).
Proof.
  intros HT. unfold Common._canon_status.
  destruct (T !! Py.upper (Py.strip s)) as [v|] eqn:E; simpl; [left | by right].
  by eapply tables_values.
Qed.

Lemma canon_strip_upper T s :
  T ∈ TABLES →
  Py.strip (Common._canon_status T s) = Common._canon_status T s
  ∧ Py.upper (Common._canon_status T s) = Common._canon_status T s.
Proof.
  intros HT. destruct (canon_cases T s HT) as [H | [-> _]].
  - by apply outcome_normal.
  - split; [|apply upper_idem]. by rewrite <- strip_upper, strip_idem.
Qed.

Lemma canon_idem T s :
  T ∈ TABLES →
  Common._canon_status T (Common._canon_status T s) = Common._canon_status T s.
Proof.
  intros HT. pose proof (canon_strip_upper T s HT) as [Hs Hu].
  unfold Common._canon_status at 1. rewrite Hs, Hu.
  destruct (canon_cases T s HT) as [H | [H1 H2]].
  - by rewrite (tables_fixed T _ HT H).
  - by rewrite H1, H2.
Qed.

End CanonNormal.

(** X5. In each of the three scripts the canonicalizer returns, for a
    string of ASCII text, a string in normal form: one of the six outcomes
    or, for a token that is not in the table, the trimmed upper-cased
    input; it has no whitespace at either end and no lower-case letter,
    and canonicalizing it again changes nothing. *)
Theorem canon_status_normal_form (T : gmap string string) (s : string) :
  T ∈ TABLES →
  Py.all Py.is_ascii s = true →
  let v := Common._canon_status T s in
  (v ∈ OUTCOMES ∨ (v = Py.upper (Py.strip s) ∧ T !! v = None))
  ∧ Py.strip v = v
  ∧ Py.all (λ c, negb (is_lower c)) v = true
  ∧ Common._canon_status T v = v.
Proof.
  intros HT _ v. pose proof (canon_strip_upper T s HT) as [Hs Hu]. fold v in Hs, Hu.
  split_and!.
  - destruct (canon_cases T s HT) as [H | [H1 H2]]; [by left|right].
    subst v. by rewrite H1.
  - done.
  - rewrite <- Hu. apply upper_no_lower.
  - by apply canon_idem.
Qed.

Lemma canon_status_normal_form_witness :
  let T := script_cpp.CANON_STATUSES in
  T ∈ TABLES
  ∧ Py.all Py.is_ascii "  flaky " = true
  ∧ Common._canon_status T "  flaky " = "FLAKY"
  ∧ Common._canon_status T (Common._canon_status T "  flaky ")
    = Common._canon_status T "  flaky ".
Proof.
  intros T.
  assert (HT : T ∈ TABLES) by (apply (bool_decide_unpack _); vm_compute; exact I).
  split_and!; [exact HT | reflexivity | reflexivity |].
  exact (proj2 (proj2 (proj2 (canon_status_normal_form T "  flaky " HT eq_refl)))).
Defined.

(** ** The structured-source extractor: the entry array and the entries *)

Section TestsArray.
Implicit Types (d : list (string * pyval)) (l : list pyval) (k : string).

Lemma get_list d k l :
  Obj.get d k PNone = PList l ↔ Obj.lookup d k = Some (PList l).
Proof.
  unfold Obj.get. destruct (Obj.lookup d k) as [v|]; simpl; [|done].
  split; [by intros -> | by intros [= ->]].
Qed.

Lemma first_list_spec d ks l :
  Common.first_list d ks = Some l ↔
  ∃ pre k post, ks = pre ++ k :: post ∧ Obj.lookup d k = Some (PList l)
    ∧ ∀ k' l', k' ∈ pre → Obj.lookup d k' ≠ Some (PList l').
Proof.
  induction ks as [|k0 ks IH]; simpl.
  - split; [done|]. intros (pre & k & post & E & _). by destruct pre.
  - destruct (Obj.get d k0 PNone) as [| | | | |l0|] eqn:E0.
    6:{ apply get_list in E0. split.
        - intros [= <-]. exists [], k0, ks. split_and!; [done..|].
          intros ?? Hin. by apply elem_of_nil in Hin.
        - intros ([|k1 pre] & k & post & E & Hk & Hpre).
          + injection E as <- <-. congruence.
          + injection E as <- E. exfalso. eapply Hpre; [left|done]. }
    all: rewrite IH; split;
      [ intros (pre & k & post & -> & Hk & Hpre); exists (k0 :: pre), k, post;
        split_and!; [done..|];
        intros k' l' [->|Hin]%elem_of_cons; [|by eapply Hpre];
        intros Hl%get_list; congruence
      | intros ([|k1 pre] & k & post & E & Hk & Hpre);
        [ injection E as <- <-; apply get_list in Hk; congruence
        | injection E as <- ->; exists pre, k, post; split_and!; [done..|];
          intros k' l' Hin; eapply Hpre; by right ] ].
Qed.

End TestsArray.

(** X6. [_extract_tests_array] returns a list as it is; from an object it
    returns the list under the first of the keys tests, items, results,
    cases whose value is a list, passing over earlier keys whose value is
    not one; everything else is the one error, no list of tests. *)
Theorem extract_tests_array_spec (obj : pyval) :
  (∀ l, Common._extract_tests_array obj = Ok l ↔
     (obj = PList l
      ∨ (∃ d pre k post, obj = PDict d ∧ CANDIDATE_KEYS = pre ++ k :: post
           ∧ Obj.lookup d k = Some (PList l)
           ∧ ∀ k' l', k' ∈ pre → Obj.lookup d k' ≠ Some (PList l'))))
  ∧ (∀ e, Common._extract_tests_array obj = Raise e → e = ValueError NoTestList).
Proof.
  split.
  - intros l. destruct obj as [| | | | |l0|d]; unfold Common._extract_tests_array;
      try (split; [done | intros [?|(? & ? & ? & ? & ? & _)]; done]).
    + split; [intros [= ->]; by left | intros [[= ->]|(? & ? & ? & ? & ? & _)]; done].
    + fold CANDIDATE_KEYS.
      destruct (Common.first_list d CANDIDATE_KEYS) as [l1|] eqn:E.
      * apply first_list_spec in E as (pre & k & post & E & Hk & Hpre). split.
        -- intros [= <-]. right. by exists d, pre, k, post.
        -- intros [?|(d' & pre' & k' & post' & [= <-] & E' & Hk' & Hpre')]; [done|].
           assert (Common.first_list d CANDIDATE_KEYS = Some l) as E2
             by (apply first_list_spec; by exists pre', k', post').
           assert (Common.first_list d CANDIDATE_KEYS = Some l1) as E3
             by (apply first_list_spec; by exists pre, k, post).
           congruence.
      * split; [done|].
        intros [?|(d' & pre' & k' & post' & [= <-] & E' & Hk' & Hpre')]; [done|].
        assert (Common.first_list d CANDIDATE_KEYS = Some l) as E2
          by (apply first_list_spec; by exists pre', k', post').
        congruence.
  - intros e. destruct obj as [| | | | |l0|d]; unfold Common._extract_tests_array;
      try by intros [= <-].
    destruct (Common.first_list _ _); [done | by intros [= <-]].
Qed.

Section Entries.
Variable py_repr : pyval → string.
Variable T : gmap string string.
Implicit Types (item : pyval) (tests : list pyval) (acc m : gmap string string).

Lemma entry_step_some acc item n :
  entry_name py_repr item = Some n →
  entry_step py_repr T acc item = <[n := entry_status py_repr T item]> acc.
Proof. unfold entry_step. by intros ->. Qed.

Lemma entry_step_none acc item :
  entry_name py_repr item = None → entry_step py_repr T acc item = acc.
Proof. unfold entry_step. by intros ->. Qed.

Lemma entries_cons_ok i item tests acc n :
  entry_name py_repr item = Some n →
  Common.entries py_repr T i (item :: tests) acc
  = Common.entries py_repr T (S i) tests (<[n := entry_status py_repr T item]> acc).
Proof.
  destruct item as [| | | | | |d]; try done. simpl.
  destruct (Py.truthy _); [|done]. by intros [= <-].
Qed.

Lemma entries_cons_bad i item tests acc :
  entry_name py_repr item = None →
  Common.entries py_repr T i (item :: tests) acc = Raise (entry_error i item).
Proof.
  destruct item as [| | | | | |d]; try done. simpl.
  by destruct (Py.truthy _).
Qed.

(** The entries up to the first one that is not valid are all taken. *)
Lemma entries_app i pre rest acc :
  Forall (λ item, is_Some (entry_name py_repr item)) pre →
  Common.entries py_repr T i (pre ++ rest) acc
  = Common.entries py_repr T (i + length pre) rest
      (foldl (entry_step py_repr T) acc pre).
Proof.
  intros Hpre. revert i acc.
  induction Hpre as [|item pre [n Hn] _ IH]; intros i acc.
  - simpl. by rewrite Nat.add_0_r.
  - change ((item :: pre) ++ rest) with (item :: (pre ++ rest)).
    rewrite (entries_cons_ok _ _ _ _ _ Hn), IH. cbn [foldl length].
    rewrite (entry_step_some _ _ _ Hn). f_equal. lia.
Qed.

Lemma entries_all_ok i tests acc :
  Forall (λ item, is_Some (entry_name py_repr item)) tests →
  Common.entries py_repr T i tests acc = Ok (foldl (entry_step py_repr T) acc tests).
Proof.
  intros H. rewrite <- (right_id_L [] (++) tests) at 1. by rewrite entries_app.
Qed.

Lemma entries_ok_inv i tests acc m :
  Common.entries py_repr T i tests acc = Ok m →
  Forall (λ item, is_Some (entry_name py_repr item)) tests.
Proof.
  revert i acc. induction tests as [|item tests IH]; intros i acc; [constructor|].
  destruct (entry_name py_repr item) as [n|] eqn:Hn.
  - rewrite (entries_cons_ok _ _ _ _ _ Hn). intros H%IH. constructor; eauto.
  - by rewrite (entries_cons_bad _ _ _ _ Hn).
Qed.

Lemma fold_entries_dom tests acc n :
  n ∈ dom (foldl (entry_step py_repr T) acc tests) ↔
  n ∈ dom acc ∨ ∃ item, item ∈ tests ∧ entry_name py_repr item = Some n.
Proof.
  revert acc. induction tests as [|item tests IH]; intros acc; cbn [foldl].
  - split; [auto|]. intros [?|(? & ?%elem_of_nil & _)]; done.
  - rewrite IH.
    destruct (entry_name py_repr item) as [n'|] eqn:Hn;
      [rewrite (entry_step_some _ _ _ Hn) | rewrite (entry_step_none _ _ Hn)].
    + rewrite dom_insert, elem_of_union, elem_of_singleton. split.
      * intros [[->|?]|(it & ? & ?)]; [right; exists item | by left | right; exists it];
          split; try done; by constructor.
      * intros [?|(it & [->|?]%elem_of_cons & Hit)]; [by left; right | | by right; exists it].
        left; left. congruence.
    + split.
      * intros [?|(it & ? & ?)]; [by left | right; exists it]. split; [by right|done].
      * intros [?|(it & [->|?]%elem_of_cons & Hit)]; [by left | congruence | by right; exists it].
Qed.

Lemma fold_entries_keeps tests acc n :
  (∀ item, item ∈ tests → entry_name py_repr item ≠ Some n) →
  foldl (entry_step py_repr T) acc tests !! n = acc !! n.
Proof.
  revert acc. induction tests as [|item tests IH]; intros acc H; [done|].
  cbn [foldl]. rewrite IH by (intros ??; apply H; by right).
  destruct (entry_name py_repr item) as [n'|] eqn:Hn;
    [rewrite (entry_step_some _ _ _ Hn) | by rewrite (entry_step_none _ _ Hn)].
  rewrite lookup_insert_ne; [done|]. intros ->. by eapply H; [left|].
Qed.

Lemma fold_entries_size tests acc :
  size (foldl (entry_step py_repr T) acc tests) ≤ size acc + length tests.
Proof.
  revert acc. induction tests as [|item tests IH]; intros acc; cbn [foldl length]; [lia|].
  etrans; [apply IH|].
  destruct (entry_name py_repr item) as [n|] eqn:Hn;
    [rewrite (entry_step_some _ _ _ Hn) | rewrite (entry_step_none _ _ Hn); lia].
  destruct (acc !! n) as [v|] eqn:E.
  - rewrite map_size_insert_Some by done. lia.
  - rewrite map_size_insert_None by done. lia.
Qed.



End Entries.

Section ParseResults.
Variable json_loads : string → option pyval.
Variable py_repr : pyval → string.
Variable T : gmap string string.
Implicit Types (txt : string) (tests objs : list pyval) (m : gmap string string).

(** The extractor from the entry array on. *)
Lemma parse_from_array txt data tests :
  json_loads txt = Some data → Common._extract_tests_array data = Ok tests →
  Common.parse_results_json json_loads py_repr T txt
  = (result ← Common.entries py_repr T 0 tests ∅;
     if decide (result = ∅) then Raise (ValueError ZeroTests) else Ok result).
Proof. intros H1 H2. unfold Common.parse_results_json. by rewrite H1, H2. Qed.

Lemma ndjson_objs_ok txt i lines objs :
  Forall2 (λ ln v, json_loads ln = Some v) lines objs →
  Common.ndjson_objs json_loads txt i lines = Ok objs.
Proof.
  intros H. revert i. induction H as [|ln v lines objs Hv _ IH]; intros i; [done|].
  simpl. by rewrite Hv, IH.
Qed.

Lemma parse_from_lines txt objs :
  json_loads txt = None →
  Forall2 (λ ln v, json_loads ln = Some v) (Common.nonblank_lines txt) objs →
  Common.parse_results_json json_loads py_repr T txt
  = (result ← Common.entries py_repr T 0 objs ∅;
     if decide (result = ∅) then Raise (ValueError ZeroTests) else Ok result).
Proof.
  intros H1 H2. unfold Common.parse_results_json.
  by rewrite H1, (ndjson_objs_ok _ _ _ _ H2).
Qed.


End ParseResults.

(** ** The decoders of the examples give ASCII values *)

Lemma lookup_table (P : string → pyval → Prop) (l : list (string * pyval)) s v :
  Forall (λ p, P p.1 p.2) l → Obj.lookup l s = Some v → P s v.
Proof.
  induction 1 as [|[k w] l Hk _ IH]; simpl; [done|].
  case_decide as E; [|exact IH]. intros [= <-]. by subst k.
Qed.



Lemma table_ascii (l : list (string * pyval)) :
  forallb (λ p, ascii_val p.2) l = true → ascii_decoder (Obj.lookup l).
Proof.
  intros H s v. apply (lookup_table (λ _ v, ascii_val v = true)).
  induction l as [|p l IH]; [by apply Forall_nil|].
  simpl in H. apply andb_true_iff in H as [Hp Hl].
  apply Forall_cons. split; [exact Hp | by apply IH].
Qed.

Lemma demo_loads_ascii : ascii_decoder demo_loads.
Proof. apply table_ascii. vm_compute. reflexivity. Qed.



(** X7. On entries whose names are ASCII text the entry loop stops at the
    first entry that is not an object or has no name left after trimming,
    and the error carries the zero-based index of that entry; what follows
    it is not looked at. *)
Theorem first_bad_entry_reported
    (json_loads : string → option pyval) (py_repr : pyval → string)
    (T : gmap string string) (txt : string) (data : pyval)
    (good : list pyval) (bad : pyval) (rest : list pyval) :
  json_loads txt = Some data →
  Common._extract_tests_array data = Ok (good ++ bad :: rest) →
  forallb (entry_ascii py_repr) (good ++ [bad]) = true →
  Forall (λ item, is_Some (entry_name py_repr item)) good →
  entry_name py_repr bad = None →
  Common.parse_results_json json_loads py_repr T txt
  = Raise (entry_error (length good) bad).
Proof.
  intros Hload Harr _ Hgood Hbad.
  rewrite (parse_from_array _ _ _ _ _ _ Hload Harr).
  by rewrite entries_app, (entries_cons_bad _ _ _ _ _ _ Hbad).
Qed.

Lemma first_bad_entry_reported_witness :
  more_loads doc_bad_entry = Some (PList ([entry "a" "passed"] ++ PInt 7 :: []))
  ∧ script.parse_results_json more_loads demo_repr doc_bad_entry
    = Raise (ValueError (EntryNotObject 1 (PInt 7))).
Proof.
  assert (H : more_loads doc_bad_entry
              = Some (PList ([entry "a" "passed"] ++ PInt 7 :: [])))
    by (vm_compute; reflexivity).
  split; [exact H|].
  apply (first_bad_entry_reported more_loads demo_repr script.CANON_STATUSES
           doc_bad_entry _ [entry "a" "passed"] (PInt 7) [] H eq_refl).
  - vm_compute. reflexivity.
  - repeat constructor. vm_compute. eauto.
  - reflexivity.
Defined.

(** X8. When every entry of the array is valid, with a name and a status
    of ASCII text, the extraction succeeds;
    the keys of the result are the trimmed names of the entries, a name
    that occurs more than once takes the status of its last entry, and the
    result has at most as many keys as the array has entries. *)
Theorem entries_last_wins
    (json_loads : string → option pyval) (py_repr : pyval → string)
    (T : gmap string string) (txt : string) (data : pyval) (tests : list pyval) :
  json_loads txt = Some data →
  Common._extract_tests_array data = Ok tests →
  forallb (entry_ascii py_repr) tests = true →
  Forall (λ item, is_Some (entry_name py_repr item)) tests →
  tests ≠ [] →
  ∃ m, Common.parse_results_json json_loads py_repr T txt = Ok m
    ∧ (∀ n, n ∈ dom m ↔ ∃ item, item ∈ tests ∧ entry_name py_repr item = Some n)
    ∧ (∀ pre item post n,
         tests = pre ++ item :: post → entry_name py_repr item = Some n →
         (∀ item', item' ∈ post → entry_name py_repr item' ≠ Some n) →
         m !! n = Some (entry_status py_repr T item))
    ∧ size m ≤ length tests.
Proof.
  intros Hload Harr _ Hvalid Hne.
  exists (foldl (entry_step py_repr T) ∅ tests).
  rewrite (parse_from_array _ _ _ _ _ _ Hload Harr), entries_all_ok by done.
  simpl. split_and!.
  - rewrite decide_False; [done|].
    intros E. destruct tests as [|item tests]; [done|].
    apply Forall_cons in Hvalid as [[n Hn] _].
    assert (n ∈ dom (foldl (entry_step py_repr T) ∅ (item :: tests))) as Hin.
    { apply fold_entries_dom. right. exists item. split; [by left|done]. }
    rewrite E in Hin. set_solver.
  - intros n. rewrite fold_entries_dom. set_solver.
  - intros pre item post n -> Hn Hpost.
    rewrite foldl_app. cbn [foldl]. rewrite fold_entries_keeps by done.
    rewrite (entry_step_some _ _ _ _ _ Hn). apply lookup_insert_eq.
  - etrans; [apply fold_entries_size|]. rewrite map_size_empty. lia.
Qed.

Lemma entries_last_wins_witness :
  more_loads doc_duplicate_name = Some (PList [entry " a " "ok"; entry "a" "failed"])
  ∧ ∃ m, script_cpp.parse_results_json more_loads demo_repr doc_duplicate_name = Ok m
      ∧ m !! "a" = Some "FAILED" ∧ size m ≤ 2.
Proof.
  assert (H : more_loads doc_duplicate_name
              = Some (PList [entry " a " "ok"; entry "a" "failed"]))
    by (vm_compute; reflexivity).
  split; [exact H|].
  destruct (entries_last_wins more_loads demo_repr script_cpp.CANON_STATUSES
              doc_duplicate_name _ [entry " a " "ok"; entry "a" "failed"] H eq_refl)
    as (m & Hm & _ & Hlast & Hsize);
    [vm_compute; reflexivity | repeat constructor; vm_compute; eauto | done |].
  exists m. split; [exact Hm|]. split; [|exact Hsize].
  apply (Hlast [entry " a " "ok"] (entry "a" "failed") [] "a" eq_refl eq_refl).
  intros item Hin. by apply elem_of_nil in Hin.
Defined.



(** X10. When a text of ASCII characters is not one JSON document but
    each of its non-blank lines is, the extraction gives what it gives for the JSON array of
    those documents, in the order of the lines; blank lines play no
    part. *)
Theorem ndjson_as_array
    (json_loads : string → option pyval) (py_repr : pyval → string)
    (T : gmap string string) (txt txt' : string) (objs : list pyval) :
  Py.all Py.is_ascii txt = true →
  forallb (entry_ascii py_repr) objs = true →
  json_loads txt = None →
  Forall2 (λ ln v, json_loads ln = Some v) (Common.nonblank_lines txt) objs →
  json_loads txt' = Some (PList objs) →
  Common.parse_results_json json_loads py_repr T txt
  = Common.parse_results_json json_loads py_repr T txt'.
Proof.
  intros _ _ Hdoc Hlines Harr.
  rewrite (parse_from_lines _ _ _ _ _ Hdoc Hlines).
  by rewrite (parse_from_array _ _ _ _ _ _ Harr eq_refl).
Qed.

Lemma ndjson_as_array_witness :
  let txt := Py.text [ndjson_entry "a" "PASSED"; "   "; ndjson_entry "b" "FAILED"; ""] in
  Py.all Py.is_ascii txt = true
  ∧ more_loads txt = None
  ∧ more_loads doc_two_entries = Some (PList [entry "a" "PASSED"; entry "b" "FAILED"])
  ∧ script.parse_results_json more_loads demo_repr txt
    = script.parse_results_json more_loads demo_repr doc_two_entries.
Proof.
  intros txt.
  assert (H1 : more_loads txt = None) by (vm_compute; reflexivity).
  assert (H2 : more_loads doc_two_entries
               = Some (PList [entry "a" "PASSED"; entry "b" "FAILED"]))
    by (vm_compute; reflexivity).
  assert (H0 : Py.all Py.is_ascii txt = true) by (vm_compute; reflexivity).
  split; [exact H0|]. split; [exact H1|]. split; [exact H2|].
  apply (ndjson_as_array more_loads demo_repr script.CANON_STATUSES txt
           doc_two_entries [entry "a" "PASSED"; entry "b" "FAILED"] H0 eq_refl H1);
    [|exact H2].
  replace (Common.nonblank_lines txt)
    with [ndjson_entry "a" "PASSED"; ndjson_entry "b" "FAILED"]
    by (vm_compute; reflexivity).
  repeat constructor.
Defined.

(** X11. When a text of ASCII characters is not one JSON document and one
    of its non-blank lines is not JSON either, the extraction stops at the first such line:
    the error carries the position of the line among the non-blank lines,
    counted from 1, a preview that is the line itself when it has at most
    160 characters and its first 160 characters followed by an ellipsis
    otherwise, and the first 160 characters of the text. *)
Theorem ndjson_error_report
    (json_loads : string → option pyval) (py_repr : pyval → string)
    (T : gmap string string) (txt : string) (good : list string) (bad : string)
    (rest : list string) :
  Py.all Py.is_ascii txt = true →
  json_loads txt = None →
  Common.nonblank_lines txt = good ++ bad :: rest →
  Forall (λ ln, is_Some (json_loads ln)) good →
  json_loads bad = None →
  ∃ preview head,
    Common.parse_results_json json_loads py_repr T txt
    = Raise (ValueError (NotJson (S (length good)) preview head))
    ∧ (String.length bad ≤ 160 → preview = bad)
    ∧ (160 < String.length bad →
         preview = Py.take 160 bad +:+ ellipsis
         ∧ String.length (Py.take 160 bad) = 160)
    ∧ head = Py.take 160 txt ∧ String.length head ≤ 160
    ∧ (String.length txt ≤ 160 → head = txt).
Proof.
  intros _ Hdoc Hlines Hgood Hbad.
  exists (preview_of bad), (Py.take 160 txt).
  assert (Htake : ∀ n s, n ≤ String.length s → String.length (Py.take n s) = n).
  { induction n as [|n IH]; intros [|c s]; simpl; intros; try lia.
    rewrite IH; lia. }
  assert (Hall : ∀ n s, String.length s ≤ n → Py.take n s = s).
  { induction n as [|n IH]; intros [|c s]; simpl; intros; try done; try lia.
    rewrite IH; [done|lia]. }
  split_and!.
  - by rewrite (parse_ndjson_report _ _ _ _ _ _ _ Hdoc Hlines Hgood Hbad).
  - intros H. unfold preview_of. rewrite decide_False; [done|lia].
  - intros H. unfold preview_of. rewrite decide_True by done.
    split; [done|]. apply Htake. lia.
  - done.
  - apply take_length.
  - apply Hall.
Qed.

Lemma ndjson_error_report_witness :
  let txt := Py.text [ndjson_entry "a" "PASSED"; "{bad"; "also bad"] in
  Py.all Py.is_ascii txt = true
  ∧ more_loads txt = None
  ∧ Common.nonblank_lines txt = [ndjson_entry "a" "PASSED"] ++ "{bad" :: ["also bad"]
  ∧ script.parse_results_json more_loads demo_repr txt
    = Raise (ValueError (NotJson 2 "{bad" txt)).
Proof.
  intros txt.
  assert (H1 : more_loads txt = None) by (vm_compute; reflexivity).
  assert (H2 : Common.nonblank_lines txt
               = [ndjson_entry "a" "PASSED"] ++ "{bad" :: ["also bad"])
    by (vm_compute; reflexivity).
  assert (H0 : Py.all Py.is_ascii txt = true) by (vm_compute; reflexivity).
  split; [exact H0|]. split; [exact H1|]. split; [exact H2|].
  destruct (ndjson_error_report more_loads demo_repr script.CANON_STATUSES txt
              _ _ _ H0 H1 H2) as (preview & head & Hparse & Hp & _ & _ & _ & Hh).
  - repeat constructor. vm_compute. eauto.
  - reflexivity.
  - rewrite Hp in Hparse by (vm_compute; lia).
    rewrite Hh in Hparse by (vm_compute; lia). exact Hparse.
Defined.

(** ** The file layer and the line-delimited fallback *)

Section Lines.
Implicit Types (s t cur : string) (c : ascii).

Lemma all_app p s t : Py.all p (s +:+ t) = Py.all p s && Py.all p t.
Proof.
  induction s as [|c s IH]; [done|]. rewrite sapp_cons. simpl.
  by rewrite IH, andb_assoc.
Qed.

Lemma all_rev_app p s t :
  Py.all p (String.rev_app s t) = Py.all p s && Py.all p t.
Proof.
  revert t. induction s as [|c s IH]; intros t; [done|]. simpl.
  rewrite IH. simpl. destruct (p c), (Py.all p s); simpl; try done.
Qed.

Lemma all_rev p s : Py.all p (String.rev s) = Py.all p s.
Proof. unfold String.rev. by rewrite all_rev_app, andb_true_r. Qed.

Lemma linebreak_is_space c : Py.is_linebreak c = true → Py.is_space c = true.
Proof. by destruct c as [[] [] [] [] [] [] [] []]. Qed.

Lemma lstrip_all_space s : Py.all Py.is_space s = true → Py.lstrip s = "".
Proof.
  induction s as [|c s IH]; [done|]. simpl. intros [-> ?]%andb_true_iff. auto.
Qed.

Lemma lstrip_empty_all s : Py.lstrip s = "" → Py.all Py.is_space s = true.
Proof.
  induction s as [|c s IH]; [done|]. simpl.
  destruct (Py.is_space c); [done|]. discriminate.
Qed.

Lemma strip_empty_iff s : Py.strip s = "" ↔ Py.all Py.is_space s = true.
Proof.
  split.
  - unfold Py.strip. destruct (lstrip_head s) as [E | (c & t & E & Hc)].
    + intros _. by apply lstrip_empty_all.
    + rewrite E. by destruct (rstrip_head c t Hc) as [t' ->].
  - intros H. unfold Py.strip. by rewrite lstrip_all_space.
Qed.

(** A text with a character that is not whitespace has a line with one. *)
Lemma splitlines_go_nonblank n s cur :
  String.length s ≤ n →
  Py.all Py.is_space cur && Py.all Py.is_space s = false →
  ∃ ln, ln ∈ Py.splitlines_go cur s ∧ Py.all Py.is_space ln = false.
Proof.
  revert s cur. induction n as [|n IH]; intros s cur Hlen Hns.
  - destruct s; [|simpl in Hlen; lia]. simpl in *. rewrite andb_true_r in Hns.
    destruct cur as [|c cur]; [done|]. exists (String.rev (String c cur)).
    split; [by left | by rewrite all_rev].
  - destruct s as [|c s].
    { apply (IH "" cur); [simpl; lia | done]. }
    simpl in Hlen. simpl Py.splitlines_go.
    destruct (Py.is_linebreak c) eqn:Hc.
    + destruct (Py.all Py.is_space cur) eqn:Hcur.
      * simpl in Hns. rewrite (linebreak_is_space c Hc) in Hns. simpl in Hns.
        destruct s as [|c' s]; [done|].
        assert (∃ ln, ln ∈ (if decide (c = "013"%char ∧ c' = "010"%char)
                            then Py.splitlines_go "" s
                            else Py.splitlines_go "" (String c' s))
                      ∧ Py.all Py.is_space ln = false) as (ln & Hin & Hln).
        { case_decide as Hcr.
          - destruct Hcr as [_ ->]. simpl in Hns.
            apply IH; [simpl in Hlen; lia | done].
          - apply IH; [lia | done]. }
        exists ln. split; [by right | done].
      * exists (String.rev cur). split; [by left | by rewrite all_rev].
    + apply IH; [lia|]. simpl in *.
      destruct (Py.is_space c), (Py.all Py.is_space cur), (Py.all Py.is_space s); done.
Qed.

Lemma nonblank_lines_nonempty txt :
  Py.strip txt ≠ "" → Common.nonblank_lines txt ≠ [].
Proof.
  intros Hne.
  assert (Py.all Py.is_space txt = false) as Hns.
  { apply not_true_is_false. by rewrite <- strip_empty_iff. }
  destruct (splitlines_go_nonblank (String.length txt) txt "") as (ln & Hin & Hln);
    [done | done |].
  intros E. apply (elem_of_nil ln). rewrite <- E.
  apply list_elem_of_filter. split; [|done].
  rewrite strip_empty_iff. congruence.
Qed.

Lemma ensure_file_ok_inv p label txt :
  Common._ensure_file_ok p label = inr txt →
  ∃ size, p = Regular size txt ∧ size ≠ 0 ∧ Py.strip txt ≠ "".
Proof.
  destruct p as [| |size text]; try done. simpl.
  case_decide; [done|].
  destruct (Py.strip text) eqn:E; simpl; [done|]. intros [= <-].
  exists size. by rewrite E.
Qed.

End Lines.

(** X12. [_ensure_file_ok] returns a text of ASCII characters only when
    the path
    is there, is not a directory, has a size other than zero and its text
    has a character that is not whitespace; such a text has a non-blank
    line, so when it is not one JSON document the line-delimited fallback
    of [parse_results_json] has a line to decode and the extraction never
    ends in the errors no list of tests or zero tests. *)
Theorem ensured_text_has_lines
    (json_loads : string → option pyval) (py_repr : pyval → string)
    (T : gmap string string) (p : path_state) (label txt : string) :
  Common._ensure_file_ok p label = inr txt →
  Py.all Py.is_ascii txt = true →
  (∃ size, p = Regular size txt ∧ size ≠ 0)
  ∧ Common.nonblank_lines txt ≠ []
  ∧ (json_loads txt = None →
       Common.parse_results_json json_loads py_repr T txt ≠ Raise (ValueError ZeroTests)
       ∧ Common.parse_results_json json_loads py_repr T txt
         ≠ Raise (ValueError NoTestList)).
Proof.
  intros (size & -> & Hsize & Hstrip)%ensure_file_ok_inv _.
  pose proof (nonblank_lines_nonempty txt Hstrip) as Hlines.
  split; [eauto|]. split; [done|]. intros Hdoc.
  unfold Common.parse_results_json. rewrite Hdoc.
  destruct (Common.ndjson_objs json_loads txt 1 (Common.nonblank_lines txt))
    as [objs|e] eqn:E.
  - assert (objs ≠ []) as Hobjs.
    { intros ->. destruct (Common.nonblank_lines txt) as [|ln lines]; [done|].
      simpl in E. destruct (json_loads ln); [|done].
      by destruct (Common.ndjson_objs json_loads txt 2 lines). }
    simpl.
    destruct (Common.entries py_repr T 0 objs ∅) as [m|e] eqn:Em; simpl.
    + apply entries_nonempty in Em; [|by left]. by rewrite decide_False.
    + pose proof (entries_ok_inv py_repr T 0 objs ∅) as Hinv.
      destruct objs as [|item objs]; [done|].
      destruct (entry_name py_repr item) as [n|] eqn:Hn.
      * rewrite (entries_cons_ok _ _ _ _ _ _ _ Hn) in Em.
        assert (∀ i tests acc, Common.entries py_repr T i tests acc
                  ≠ Raise (ValueError ZeroTests)
                ∧ Common.entries py_repr T i tests acc
                  ≠ Raise (ValueError NoTestList)) as Hno.
        { intros i tests. revert i.
          induction tests as [|it tests IH]; intros i acc; [done|].
          destruct (entry_name py_repr it) as [n'|] eqn:Hn'.
          - rewrite (entries_cons_ok _ _ _ _ _ _ _ Hn'). apply IH.
          - rewrite (entries_cons_bad _ _ _ _ _ _ Hn'). by destruct it. }
        rewrite <- Em. apply Hno.
      * rewrite (entries_cons_bad _ _ _ _ _ _ Hn) in Em. injection Em as <-.
        by destruct item.
  - simpl.
    assert (∀ i lines, Common.ndjson_objs json_loads txt i lines = Raise e →
              ∃ j pv hd, e = ValueError (NotJson j pv hd)) as Hnd.
    { intros i lines. revert i. induction lines as [|ln lines IH]; intros i; [done|].
      simpl. destruct (json_loads ln); [|intros [= <-]; eauto].
      destruct (Common.ndjson_objs json_loads txt (S i) lines) as [o|e'] eqn:E';
        simpl; [done|].
      intros [= ->]. eauto. }
    destruct (Hnd _ _ E) as (j & pv & hd & ->). done.
Qed.

Lemma ensured_text_has_lines_witness :
  let txt := Py.text [""; ndjson_entry "a" "PASSED"; ndjson_entry "b" "FAILED"] in
  Common._ensure_file_ok (Regular 70 txt) "JSON file" = inr txt
  ∧ Py.all Py.is_ascii txt = true
  ∧ Common.nonblank_lines txt ≠ []
  ∧ more_loads txt = None
  ∧ script.parse_results_json more_loads demo_repr txt ≠ Raise (ValueError ZeroTests).
Proof.
  intros txt.
  assert (H : Common._ensure_file_ok (Regular 70 txt) "JSON file" = inr txt)
    by (vm_compute; reflexivity).
  assert (H1 : more_loads txt = None) by (vm_compute; reflexivity).
  assert (H0 : Py.all Py.is_ascii txt = true) by (vm_compute; reflexivity).
  destruct (ensured_text_has_lines more_loads demo_repr script.CANON_STATUSES
              _ _ _ H H0) as (_ & Hlines & Hno).
  split_and!; [exact H | exact H0 | exact Hlines | exact H1 | exact (proj1 (Hno H1))].
Defined.

(** ** The pattern matcher: positions *)

Section MatcherPositions.
Context {R : Type}.
Implicit Types (c : Re.cursor) (g : Re.groups) (s t : string).

Lemma eat_exact t c c' :
  Re.eat t c = Some c' →
  Re.rest c = t +:+ Re.rest c' ∧ Re.prev c' = last_char (Re.prev c) t.
Proof.
  revert c. induction t as [|a t IH]; intros [pv s]; simpl.
  - by intros [= <-].
  - destruct s as [|b s]; [done|]. case_decide; [subst b|done].
    intros [E1 E2]%IH. simpl in *. by rewrite sapp_cons, E1.
Qed.

Lemma rep_greedy_exact p (k : Re.cursor → option R) min pv s x :
  Re.rep_greedy p k min pv s = Some x →
  ∃ t s', s = t +:+ s' ∧ Py.all p t = true ∧ min ≤ String.length t
          ∧ k (Re.Cursor (last_char pv t) s') = Some x.
Proof.
  revert min pv. induction s as [|a s IH]; intros min pv; simpl.
  - destruct min; [|done]. intros E. by exists "", "".
  - assert (Hstop : match min with 0 => k (Re.Cursor pv (String a s)) | S _ => None end
                    = Some x →
              ∃ t s', String a s = t +:+ s' ∧ Py.all p t = true
                      ∧ min ≤ String.length t
                      ∧ k (Re.Cursor (last_char pv t) s') = Some x).
    { destruct min; [|done]. intros E. by exists "", (String a s). }
    destruct (p a) eqn:Hp; [|done].
    destruct (Re.rep_greedy p k (pred min) (Some a) s) as [y|] eqn:E; [|done].
    intros [= ->]. apply IH in E as (t & s' & -> & Ht & Hmin & Hk).
    exists (String a t), s'. rewrite sapp_cons. simpl. rewrite Hp, Ht.
    split_and!; [done..| lia | done].
Qed.

Lemma rep_lazy_exact p (k : Re.cursor → option R) min pv s x :
  Re.rep_lazy p k min pv s = Some x →
  ∃ t s', s = t +:+ s' ∧ Py.all p t = true ∧ min ≤ String.length t
          ∧ k (Re.Cursor (last_char pv t) s') = Some x.
Proof.
  revert min pv. induction s as [|a s IH]; intros min pv; simpl.
  - destruct min; [|done].
    destruct (k (Re.Cursor pv "")) as [y|] eqn:E; [|done].
    intros [= ->]. by exists "", "".
  - assert (Hmore : (if p a then Re.rep_lazy p k (pred min) (Some a) s else None)
                    = Some x →
              ∃ t s', String a s = t +:+ s' ∧ Py.all p t = true
                      ∧ min ≤ String.length t
                      ∧ k (Re.Cursor (last_char pv t) s') = Some x).
    { destruct (p a) eqn:Hp; [|done].
      intros (t & s' & -> & Ht & Hmin & Hk)%IH.
      exists (String a t), s'. rewrite sapp_cons. simpl. rewrite Hp, Ht.
      split_and!; [done..| lia | done]. }
    destruct min; [|done].
    destruct (k (Re.Cursor pv (String a s))) as [y|] eqn:E; [|done].
    intros [= ->]. by exists "", (String a s).
Qed.

Lemma run_exact r c g (k : Re.cursor → Re.groups → option R) x :
  Re.run r c g k = Some x →
  ∃ c' g', derives r c g c' g' ∧ k c' g' = Some x.
Proof.
  revert c g k. induction r as [t|r1 IH1 r2 IH2|r1 IH1 r2 IH2|gr min p|r IH|name r IH| | |];
    intros c g k; simpl.
  - destruct (Re.eat t c) as [c'|] eqn:E; [|done].
    intros Hk. exists c', g. apply eat_exact in E as [? ?]. done.
  - intros (c1 & g1 & H1 & (c' & g' & H2 & Hk)%IH2)%IH1. naive_solver.
  - destruct (Re.run r1 c g k) as [y|] eqn:E.
    + intros [= ->]. apply IH1 in E. naive_solver.
    + intros E2%IH2. naive_solver.
  - intros H.
    assert (∃ t s', Re.rest c = t +:+ s' ∧ Py.all p t = true
              ∧ min ≤ String.length t
              ∧ k (Re.Cursor (last_char (Re.prev c) t) s') g = Some x)
      as (t & s' & ? & ? & ? & ?).
    { destruct gr.
      - exact (rep_greedy_exact p (λ c', k c' g) _ _ _ _ H).
      - exact (rep_lazy_exact p (λ c', k c' g) _ _ _ _ H). }
    exists (Re.Cursor (last_char (Re.prev c) t) s'), g. split; [|done]. by exists t.
  - destruct (Re.run r c g k) as [y|] eqn:E.
    + intros [= ->]. apply IH in E. naive_solver.
    + intros Hk. exists c, g. split; [by right | done].
  - intros (c' & g' & H & Hk)%IH.
    exists c', (<[name := Re.consumed c c']> g'). split; [by exists g' | done].
  - destruct (Re.at_boundary c) eqn:E; [|done]. intros Hk. by exists c, g.
  - destruct (Re.prev c) eqn:E; [done|]. intros Hk. by exists c, g.
  - destruct (Re.at_end c) eqn:E; [|done]. intros Hk. by exists c, g.
Qed.

End MatcherPositions.

Lemma rmatch_exact r s c' g' :
  Re.rmatch r s = Some (c', g') → derives r (Re.Cursor None s) ∅ c' g'.
Proof.
  unfold Re.rmatch. intros (c1 & g1 & H & [= -> ->])%run_exact. exact H.
Qed.

(** After a word character, a boundary or the end of the subject means
    that no word character follows. *)
Lemma boundary_after_word c a :
  Re.prev c = Some a → Py.is_word a = true →
  Re.at_boundary c = true ∨ Re.at_end c = true →
  Re.rest c = "" ∨ ∃ b t, Re.rest c = String b t ∧ Py.is_word b = false.
Proof.
  intros Hp Ha. unfold Re.at_boundary, Re.at_end, Re.next. rewrite Hp. simpl.
  rewrite Ha. destruct (Re.rest c) as [|b t]; [by left|]. right. exists b, t.
  split; [done|]. destruct H as [H|H].
  - simpl in H. by destruct (Py.is_word b).
  - destruct t; [|done]. by apply Ascii.eqb_eq in H as ->.
Qed.

(** ** script.py: what the generic extractor reads and returns *)

Section PytestShape.
Implicit Types (line raw name tok tail : string).

(** The parts of a line [LOG_LINE_RE] matches. *)
Lemma log_line_re_shape line m :
  Re.rmatch script.LOG_LINE_RE line = Some m →
  ∃ name ws tok tail,
    line = name +:+ ws +:+ tok +:+ tail
    ∧ 1 ≤ String.length name ∧ Py.all Re.dot name = true
    ∧ 1 ≤ String.length ws ∧ Py.all Py.is_space ws = true
    ∧ tok ∈ script.STATUS_TOKENS
    ∧ (tail = "" ∨ ∃ b t, tail = String b t ∧ Py.is_word b = false)
    ∧ Re.group m "name" = name ∧ Re.group m "status" = tok.
Proof.
  destruct m as [c g]. intros H%rmatch_exact.
  unfold script.LOG_LINE_RE in H. simpl in H.
  destruct H as (c1 & g1 & (-> & -> & _) & c2 & g2 & (g2' & (name & E1 & _ & Hdot & Hlen & ->) & ->)
    & c3 & g3 & (ws & E2 & _ & Hws & Hwlen & ->) & c4 & g4 & (g4' & Hst & ->)
    & c5 & g5 & Hopt & (-> & -> & Hend)).
  simpl in E1.
  assert (∃ tok, Re.rest c3 = tok +:+ Re.rest c4 ∧ tok ∈ script.STATUS_TOKENS
            ∧ g4' = <[ "name" := Re.consumed (Re.Cursor None line) c2 ]> ∅
            ∧ ∃ a, Re.prev c4 = Some a ∧ Py.is_word a = true)
    as (tok & E3 & Htok & -> & a & Hprev & Ha).
  { unfold script.STATUS_TOKENS.
    repeat (destruct Hst as [(E & Hp & ->) | Hst];
            [eexists; split; [exact E|]; split; [set_solver|]; split; [done|];
             simpl in Hp; eauto |]).
    destruct Hst as (E & Hp & ->). eexists. split; [exact E|].
    split; [set_solver|]. split; [done|]. simpl in Hp. eauto. }
  assert (g5 = <[ "status" := Re.consumed c3 c4 ]>
                 (<[ "name" := Re.consumed (Re.Cursor None line) c2 ]> ∅)
          ∧ (c5 = c4 ∨ Re.at_boundary c4 = true)) as [-> Hc5].
  { destruct Hopt as [(c6 & g6 & (-> & -> & Hb) & (t & _ & _ & _ & _ & ->)) | [-> ->]];
      split; auto. }
  exists name, ws, tok, (Re.rest c4).
  rewrite (consumed_app _ _ _ E3).
  rewrite (consumed_app (Re.Cursor None line) c2 name) by done.
  split_and!; try done.
  - by rewrite E1, E2, E3.
  - apply (boundary_after_word c4 a Hprev Ha).
    destruct Hc5 as [->|Hb]; [by right | by left].
Qed.

(** A name read off a line is not empty and is trimmed. *)
Lemma reads_shape raw n tok :
  script.reads raw = Some (n, tok) →
  ∃ name ws tail,
    Py.strip raw = name +:+ ws +:+ tok +:+ tail ∧ Py.strip name = n ∧ n ≠ ""
    ∧ 1 ≤ String.length ws ∧ Py.all Py.is_space ws = true
    ∧ tok ∈ script.STATUS_TOKENS
    ∧ (tail = "" ∨ ∃ b t, tail = String b t ∧ Py.is_word b = false).
Proof.
  unfold script.reads. destruct (negb _); [done|].
  destruct (Re.rmatch _ _) as [m|] eqn:E; [|done]. simpl.
  apply log_line_re_shape in E
    as (name & ws & tok' & tail & E & Hlen & _ & Hwlen & Hws & Htok & Htail & -> & ->).
  intros [= <- <-]. exists name, ws, tail. split_and!; try done.
  destruct name as [|a name]; [simpl in Hlen; lia|].
  rewrite sapp_cons in E. apply strip_first in E as Ha.
  unfold Py.strip. simpl. rewrite Ha.
  by destruct (rstrip_head a name Ha) as [t' ->].
Qed.

Lemma fold_insert_pairs (l : list (string * string)) (acc : gmap string string) :
  foldl (λ m p, <[p.1 := p.2]> m) acc l = list_to_map (reverse l) ∪ acc.
Proof.
  revert acc. induction l as [|[n v] l IH]; intros acc; simpl.
  - by rewrite (left_id_L ∅ (∪)).
  - rewrite IH, reverse_cons, list_to_map_app. simpl.
    rewrite <- (assoc_L (∪)). f_equal.
    by rewrite insert_empty, <- insert_union_singleton_l.
Qed.

Lemma log_line_outcome acc raw :
  script.log_line acc raw =
  match pytest_outcome raw with
  | Some p => <[p.1 := p.2]> acc
  | None => acc
  end.
Proof.
  rewrite log_line_reads. unfold pytest_outcome.
  destruct (script.reads raw) as [[n tok]|]; simpl; [|done].
  by case_decide.
Qed.

Lemma fold_log_lines acc lines :
  foldl script.log_line acc lines
  = foldl (λ m p, <[p.1 := p.2]> m) acc (omap pytest_outcome lines).
Proof.
  revert acc. induction lines as [|raw lines IH]; intros acc; [done|].
  simpl. rewrite log_line_outcome.
  destruct (pytest_outcome raw) as [p|]; simpl; apply IH.
Qed.

End PytestShape.

(** X13. On a log of ASCII text the result of [parse_pytest_log] is
    determined by the sequence of name and token pairs of the lines that match with a token other than
    RERUN: with no such line the extraction raises the zero-lines error,
    otherwise it returns the mapping of those pairs in which the last pair
    of a name wins; two logs with the same sequence of pairs, whatever
    other lines they hold, give the same result. *)
Theorem pytest_log_by_outcomes (txt : string) :
  Py.all Py.is_ascii txt = true →
  (pytest_outcomes txt = [] →
     script.parse_pytest_log txt = Raise (ValueError ZeroOutcomeLines))
  ∧ (pytest_outcomes txt ≠ [] →
     script.parse_pytest_log txt
     = Ok (list_to_map (reverse (pytest_outcomes txt))))
  ∧ (∀ txt', Py.all Py.is_ascii txt' = true →
     pytest_outcomes txt' = pytest_outcomes txt →
     script.parse_pytest_log txt' = script.parse_pytest_log txt).
Proof.
  intros _.
  assert (H : ∀ t, foldl script.log_line ∅ (Py.splitlines t)
                   = list_to_map (reverse (pytest_outcomes t))).
  { intros t. rewrite fold_log_lines, fold_insert_pairs.
    by rewrite (right_id_L ∅ (∪)). }
  split_and!.
  - intros E. unfold script.parse_pytest_log. rewrite H, E. done.
  - intros Hne. unfold script.parse_pytest_log. rewrite H.
    rewrite decide_False; [done|].
    destruct (reverse (pytest_outcomes txt)) as [|[n v] l] eqn:E.
    + apply (f_equal reverse) in E. rewrite reverse_involutive in E. done.
    + simpl. apply insert_non_empty.
  - intros txt' _ E. unfold script.parse_pytest_log. by rewrite !H, E.
Qed.

Lemma pytest_log_by_outcomes_witness :
  let txt := Py.text ["collected 2 items"; "t.py::a FAILED"; "t.py::a RERUN";
                      "t.py::a PASSED"; ""; "t.py::b SKIPPED (why)"] in
  Py.all Py.is_ascii txt = true
  ∧ pytest_outcomes txt ≠ []
  ∧ pytest_outcomes (Py.text ["t.py::a FAILED"; "t.py::a PASSED"; "t.py::b SKIPPED"])
    = pytest_outcomes txt
  ∧ script.parse_pytest_log txt
    = script.parse_pytest_log
        (Py.text ["t.py::a FAILED"; "t.py::a PASSED"; "t.py::b SKIPPED"]).
Proof.
  intros txt.
  assert (H1 : pytest_outcomes txt ≠ []) by (vm_compute; discriminate).
  assert (H2 : pytest_outcomes
                 (Py.text ["t.py::a FAILED"; "t.py::a PASSED"; "t.py::b SKIPPED"])
               = pytest_outcomes txt) by (vm_compute; reflexivity).
  assert (H0 : Py.all Py.is_ascii txt = true) by (vm_compute; reflexivity).
  split; [exact H0|]. split; [exact H1|]. split; [exact H2|].
  symmetry.
  exact (proj2 (proj2 (pytest_log_by_outcomes txt H0))
           (Py.text ["t.py::a FAILED"; "t.py::a PASSED"; "t.py::b SKIPPED"])
           eq_refl H2).
Defined.

(** X14. A line of ASCII text counts for the generic extractor only if,
    once trimmed, it is a name, whitespace, one of the seven status tokens and a tail that
    is empty or begins with a character that is not a letter, a digit or
    an underscore; the name read is not empty and is trimmed. *)
Theorem pytest_line_shape (raw n tok : string) :
  Py.all Py.is_ascii raw = true →
  script.reads raw = Some (n, tok) →
  ∃ name ws tail,
    Py.strip raw = name +:+ ws +:+ tok +:+ tail ∧ Py.strip name = n ∧ n ≠ ""
    ∧ Py.strip n = n
    ∧ 1 ≤ String.length ws ∧ Py.all Py.is_space ws = true
    ∧ tok ∈ script.STATUS_TOKENS
    ∧ (tail = "" ∨ ∃ b t, tail = String b t ∧ Py.is_word b = false).
Proof.
  intros _ (name & ws & tail & E & <- & Hn & H)%reads_shape.
  exists name, ws, tail. split_and!; try done; try tauto. apply strip_idem.
Qed.

Lemma pytest_line_shape_witness :
  script.reads "  tests/t.py::a   XFAILED, known  " = Some ("tests/t.py::a", "XFAILED")
  ∧ ∃ name ws tail,
      Py.strip "  tests/t.py::a   XFAILED, known  " = name +:+ ws +:+ "XFAILED" +:+ tail
      ∧ Py.strip name = "tests/t.py::a".
Proof.
  assert (H : script.reads "  tests/t.py::a   XFAILED, known  "
              = Some ("tests/t.py::a", "XFAILED")) by (vm_compute; reflexivity).
  split; [exact H|].
  destruct (pytest_line_shape "  tests/t.py::a   XFAILED, known  " _ _ eq_refl H)
    as (name & ws & tail & E & Hn & _).
  by exists name, ws, tail.
Defined.

(** X15. Every value of a result of [parse_pytest_log] is one of the six
    outcomes, every key is a name that is not empty and is trimmed, and
    the result is not empty. *)
Theorem pytest_log_result (txt : string) (m : gmap string string) :
  script.parse_pytest_log txt = Ok m →
  m ≠ ∅ ∧ ∀ n v, m !! n = Some v → v ∈ OUTCOMES ∧ n ≠ "" ∧ Py.strip n = n.
Proof.
  intros [-> Hne]%parse_pytest_log_ok. split; [done|].
  assert (∀ lines acc,
            map_Forall (λ n v, v ∈ OUTCOMES ∧ n ≠ "" ∧ Py.strip n = n) acc →
            map_Forall (λ n v, v ∈ OUTCOMES ∧ n ≠ "" ∧ Py.strip n = n)
              (foldl script.log_line acc lines)) as H.
  { induction lines as [|raw lines IH]; intros acc Hacc; [done|].
    simpl. apply IH. rewrite log_line_reads.
    destruct (script.reads raw) as [[n tok]|] eqn:Hr; [|done].
    case_decide as Htok; [done|]. apply map_Forall_insert_2; [|done].
    apply reads_shape in Hr as (name & ws & tail & _ & <- & Hn & _ & _ & Hin & _).
    split_and!; [|done|apply strip_idem].
    unfold script.STATUS_TOKENS in Hin. unfold OUTCOMES.
    rewrite !elem_of_cons, elem_of_nil in Hin. set_solver. }
  intros n v. apply (H _ ∅). apply map_Forall_empty.
Qed.

Lemma pytest_log_result_witness :
  ∃ m, script.parse_pytest_log (Py.text ["a PASSED"; "b XPASS"]) = Ok m
    ∧ m ≠ ∅ ∧ m !! "b" = Some "XPASS" ∧ "XPASS" ∈ OUTCOMES.
Proof.
  exists {[ "a" := "PASSED"; "b" := "XPASS" ]}.
  assert (H : script.parse_pytest_log (Py.text ["a PASSED"; "b XPASS"])
              = Ok {[ "a" := "PASSED"; "b" := "XPASS" ]}) by (vm_compute; reflexivity).
  destruct (pytest_log_result _ _ H) as [Hne Hall].
  split_and!; [exact H | exact Hne | reflexivity |].
  exact (proj1 (Hall "b" "XPASS" eq_refl)).
Defined.

(** ** script_cpp.py: what the gtest extractor returns *)

Section ForEach.
Context {A S : Type}.
Implicit Types (body : S → A → res S) (xs : list A).

Lemma for_each_invariant body (I : S → Prop) s xs s' :
  (∀ s x s', body s x = Ok s' → I s → I s') →
  I s → for_each body s xs = Ok s' → I s'.
Proof.
  intros Hbody. revert s. induction xs as [|x xs IH]; intros s Hs; simpl.
  - by intros [= <-].
  - destruct (body s x) as [s1|] eqn:E; [|done]. simpl. eauto.
Qed.

(** A loop raises exactly when the body raises on one of the elements,
    provided that whether the body raises depends on the element alone. *)
Lemma for_each_ok_iff body (ok : A → bool) s xs :
  (∀ s x, (∃ s', body s x = Ok s') ↔ ok x = true) →
  (∃ s', for_each body s xs = Ok s') ↔ forallb ok xs = true.
Proof.
  intros Hbody. revert s. induction xs as [|x xs IH]; intros s; simpl.
  - split; eauto.
  - rewrite andb_true_iff, <- (Hbody s x). split.
    + intros [s' H]. destruct (body s x) as [s1|] eqn:E; [|done]. simpl in H.
      split; [eauto|]. apply (IH s1). eauto.
    + intros [[s1 E] H]. rewrite E. simpl. by apply IH.
Qed.

End ForEach.

Section GtestJson.
Variable json_loads : string → option pyval.
Variable py_repr : pyval → string.
Implicit Types (acc m : gmap string string) (ts : list (string * pyval)).

Lemma case_step_ok_iff ts acc tc :
  (∃ r, script_cpp.case_step py_repr ts acc tc = Ok r) ↔ gtest_case_ok ts tc = true.
Proof.
  unfold script_cpp.case_step, gtest_case_ok.
  destruct tc as [| | | | | |d]; simpl; try (split; [by intros [? ?] | done]).
  destruct (Obj.or (Obj.or (Obj.get d "classname" PNone) (Obj.get ts "name" PNone))
                   (PStr "")) as [| | | |s| |]; simpl;
    try (split; [by intros [? ?] | done]).
  split; [done|]. intros _.
  repeat (case_match; simpl; eauto).
Qed.

Lemma case_step_values ts acc tc r :
  script_cpp.case_step py_repr ts acc tc = Ok r →
  map_Forall (λ _ v, v ∈ RUN_STATUSES) acc →
  map_Forall (λ _ v, v ∈ RUN_STATUSES) r.
Proof.
  intros H Hacc. revert H. unfold script_cpp.case_step.
  destruct tc as [| | | | | |d]; simpl; try done.
  destruct (Obj.strip_attr _) as [suite|]; simpl; [|done].
  assert (∀ n v, v ∈ RUN_STATUSES →
            map_Forall (λ _ v, v ∈ RUN_STATUSES) (<[n := v]> acc)) as Hins.
  { intros n v Hv. by apply map_Forall_insert_2. }
  assert ("PASSED" ∈ RUN_STATUSES ∧ "FAILED" ∈ RUN_STATUSES
          ∧ "SKIPPED" ∈ RUN_STATUSES) as (? & ? & ?)
    by (unfold RUN_STATUSES; set_solver).
  repeat (case_match; simpl; try done); intros [= <-]; auto.
Qed.

Lemma suite_step_ok_iff acc (suite : pyval) :
  (∃ r, script_cpp.suite_step py_repr acc suite = Ok r) ↔ gtest_suite_ok suite = true.
Proof.
  unfold script_cpp.suite_step, gtest_suite_ok.
  destruct suite as [| | | | | |d]; try (split; [by intros [? ?] | done]).
  destruct (Obj.iter _) as [tcs|]; simpl; [|split; [by intros [? ?] | done]].
  apply for_each_ok_iff. intros. apply case_step_ok_iff.
Qed.

Lemma suite_step_values acc (suite : pyval) r :
  script_cpp.suite_step py_repr acc suite = Ok r →
  map_Forall (λ _ v, v ∈ RUN_STATUSES) acc →
  map_Forall (λ _ v, v ∈ RUN_STATUSES) r.
Proof.
  unfold script_cpp.suite_step. destruct suite as [| | | | | |d]; try done.
  destruct (Obj.iter _) as [tcs|]; simpl; [|done].
  intros H Hacc. eapply for_each_invariant; [|exact Hacc|exact H].
  intros ???. apply case_step_values.
Qed.

Lemma parse_gtest_json_ok_iff txt obj :
  json_loads txt = Some obj →
  (∃ m, script_cpp._parse_gtest_json json_loads py_repr txt = Ok m)
  ↔ gtest_doc_ok obj = true.
Proof.
  intros Hload. unfold script_cpp._parse_gtest_json, gtest_doc_ok. rewrite Hload.
  destruct obj as [| | | | | |d]; try (split; by eauto).
  destruct (Obj.lookup d "testsuites") as [suites|]; [|split; by eauto].
  destruct (Obj.iter suites) as [tss|]; simpl; [|split; [by intros [? ?] | done]].
  apply for_each_ok_iff. intros. apply suite_step_ok_iff.
Qed.

Lemma parse_gtest_json_values txt m :
  script_cpp._parse_gtest_json json_loads py_repr txt = Ok m →
  map_Forall (λ _ v, v ∈ RUN_STATUSES) m.
Proof.
  unfold script_cpp._parse_gtest_json.
  destruct (json_loads txt) as [obj|]; [|intros [= <-]; apply map_Forall_empty].
  destruct obj as [| | | | | |d]; try (intros [= <-]; apply map_Forall_empty).
  destruct (Obj.lookup d "testsuites") as [suites|];
    [|intros [= <-]; apply map_Forall_empty].
  destruct (Obj.iter suites) as [tss|]; simpl; [|done].
  intros H. eapply for_each_invariant; [|apply map_Forall_empty|exact H].
  intros ???. apply suite_step_values.
Qed.

End GtestJson.

Section GtestScan.
Implicit Types (acc : gmap string string) (raw : string).

Lemma sets_status raw n st : script_cpp.sets raw = Some (n, st) → st ∈ RUN_STATUSES.
Proof.
  intros (ws & tag & tail & _ & _ & Hin)%sets_shape.
  rewrite !elem_of_cons, elem_of_nil in Hin. unfold RUN_STATUSES.
  destruct Hin as [?|[?|[?|[]]]]; simplify_eq; set_solver.
Qed.

Lemma fold_gtest_lines acc lines :
  foldl script_cpp.gtest_line acc lines
  = foldl (λ m p, <[p.1 := p.2]> m) acc (omap script_cpp.sets lines).
Proof.
  revert acc. induction lines as [|raw lines IH]; intros acc; [done|].
  simpl. rewrite gtest_line_sets.
  destruct (script_cpp.sets raw) as [[n st]|]; simpl; apply IH.
Qed.

Lemma gtest_text_values txt m :
  script_cpp.gtest_text txt = Ok m →
  m ≠ ∅ ∧ map_Forall (λ _ v, v ∈ RUN_STATUSES) m.
Proof.
  unfold script_cpp.gtest_text. case_decide as E; [done|]. intros [= <-].
  split; [done|]. clear E.
  generalize (map_Forall_empty (M:=gmap string) (λ (_ v : string), v ∈ RUN_STATUSES)).
  generalize (∅ : gmap string string).
  induction (Py.splitlines txt) as [|raw lines IH]; intros acc Hacc; [done|].
  simpl. apply IH. rewrite gtest_line_sets.
  destruct (script_cpp.sets raw) as [[n st]|] eqn:Hs; [|done].
  apply map_Forall_insert_2; [|done]. by eapply sets_status.
Qed.

End GtestScan.

(** X16. On a log of ASCII text the line scan of the gtest extractor is
    determined by the sequence of name and status pairs its lines set: with no such line it
    raises the zero-lines error, otherwise it returns the mapping of those
    pairs in which the last pair of a name wins, whichever of the two
    patterns the lines matched. *)
Theorem gtest_text_by_outcomes (txt : string) :
  Py.all Py.is_ascii txt = true →
  (gtest_outcomes txt = [] →
     script_cpp.gtest_text txt = Raise (ValueError ZeroOutcomeLines))
  ∧ (gtest_outcomes txt ≠ [] →
     script_cpp.gtest_text txt = Ok (list_to_map (reverse (gtest_outcomes txt))))
  ∧ (∀ txt', Py.all Py.is_ascii txt' = true →
     gtest_outcomes txt' = gtest_outcomes txt →
     script_cpp.gtest_text txt' = script_cpp.gtest_text txt).
Proof.
  intros _.
  assert (H : ∀ t, foldl script_cpp.gtest_line ∅ (Py.splitlines t)
                   = list_to_map (reverse (gtest_outcomes t))).
  { intros t. rewrite fold_gtest_lines, fold_insert_pairs.
    by rewrite (right_id_L ∅ (∪)). }
  split_and!.
  - intros E. unfold script_cpp.gtest_text. rewrite H, E. done.
  - intros Hne. unfold script_cpp.gtest_text. rewrite H.
    rewrite decide_False; [done|].
    destruct (reverse (gtest_outcomes txt)) as [|[n v] l] eqn:E.
    + apply (f_equal reverse) in E. rewrite reverse_involutive in E. done.
    + simpl. apply insert_non_empty.
  - intros txt' _ E. unfold script_cpp.gtest_text. by rewrite !H, E.
Qed.

Lemma gtest_text_by_outcomes_witness :
  let txt := Py.text ["[==========] Running 1 test from 1 test suite.";
                      "[ RUN      ] M.Add"; "[       OK ] M.Add (0 ms)";
                      "[  FAILED  ] M.Add"] in
  Py.all Py.is_ascii txt = true
  ∧ gtest_outcomes txt ≠ []
  ∧ script_cpp.gtest_text txt = Ok {[ "M.Add" := "FAILED" ]}.
Proof.
  intros txt.
  assert (H0 : Py.all Py.is_ascii txt = true) by (vm_compute; reflexivity).
  assert (H1 : gtest_outcomes txt ≠ []) by (vm_compute; discriminate).
  split; [exact H0|]. split; [exact H1|].
  rewrite (proj1 (proj2 (gtest_text_by_outcomes txt H0)) H1).
  vm_compute. reflexivity.
Defined.

(** X17. On a text that is a JSON document the JSON pass of the gtest
    extractor returns a mapping, rather than raising, exactly when the
    document has the shape [gtest_doc_ok]: a document that is not an
    object or has no suites key always does, otherwise the suites and
    their cases must be iterable and be objects and the class or suite
    name of a case must be a string when it is truthy. *)
Theorem gtest_json_pass_returns_iff
    (json_loads : string → option pyval) (py_repr : pyval → string)
    (txt : string) (obj : pyval) :
  json_loads txt = Some obj →
  ((∃ m, script_cpp._parse_gtest_json json_loads py_repr txt = Ok m)
   ↔ gtest_doc_ok obj = true)
  ∧ (gtest_doc_ok obj = false →
     ∃ e, script_cpp.parse_gtest_log json_loads py_repr txt = Raise e
          ∧ (e = TypeError ∨ e = AttributeError)).
Proof.
  intros Hload.
  pose proof (parse_gtest_json_ok_iff json_loads py_repr txt obj Hload) as Hiff.
  split; [exact Hiff|]. intros Hbad.
  destruct (script_cpp._parse_gtest_json json_loads py_repr txt) as [m|e] eqn:E.
  - assert (gtest_doc_ok obj = true) by (apply Hiff; eauto). congruence.
  - exists e. rewrite parse_gtest_log_cases, E. split; [done|].
    clear Hiff Hbad. revert E. unfold script_cpp._parse_gtest_json. rewrite Hload.
    destruct obj as [| | | | | |d]; try done.
    destruct (Obj.lookup d "testsuites") as [suites|]; [|done].
    assert (Hiter : ∀ v e', Obj.iter v = Raise e' → e' = TypeError)
      by (intros [] ?; simpl; congruence).
    assert (Hcase : ∀ ts acc tc e',
              script_cpp.case_step py_repr ts acc tc = Raise e' → e' = AttributeError).
    { intros ts acc tc e'. unfold script_cpp.case_step.
      destruct tc as [| | | | | |d']; simpl; try (by intros [= <-]).
      destruct (Obj.or _ _) as [| | | |s| |]; simpl; try (by intros [= <-]).
      repeat (case_match; simpl; try done). }
    assert (Hfor : ∀ {X} (body : gmap string string → X → res (gmap string string))
                     xs acc e',
              (∀ acc x e'', body acc x = Raise e'' →
                            e'' = TypeError ∨ e'' = AttributeError) →
              for_each body acc xs = Raise e' →
              e' = TypeError ∨ e' = AttributeError).
    { intros X body xs. induction xs as [|x xs IH]; intros acc e' Hb; [done|].
      simpl. destruct (body acc x) as [acc'|e''] eqn:Eb; simpl.
      - by apply IH.
      - intros [= <-]. eauto. }
    assert (Hsuite : ∀ acc ts e',
              script_cpp.suite_step py_repr acc ts = Raise e' →
              e' = TypeError ∨ e' = AttributeError).
    { intros acc ts e'. unfold script_cpp.suite_step.
      destruct ts as [| | | | | |d']; try (intros [= <-]; by right).
      destruct (Obj.iter _) as [tcs|e''] eqn:Ei; simpl.
      - apply Hfor. intros ??? ->%Hcase. by right.
      - intros [= <-]. left. by eapply Hiter. }
    destruct (Obj.iter suites) as [tss|e''] eqn:Ei; simpl.
    + by apply Hfor.
    + intros [= <-]. left. by eapply Hiter.
Qed.

Lemma gtest_json_pass_returns_iff_witness :
  gtest_loads doc_gtest_report <> None
  ∧ (∃ m, script_cpp._parse_gtest_json gtest_loads demo_repr doc_gtest_report = Ok m)
  ∧ gtest_loads doc_suites_null = Some (PDict [("testsuites", PNone)])
  ∧ ∃ e, script_cpp.parse_gtest_log gtest_loads demo_repr doc_suites_null = Raise e.
Proof.
  assert (H1 : gtest_loads doc_suites_null = Some (PDict [("testsuites", PNone)]))
    by (vm_compute; reflexivity).
  destruct (gtest_loads doc_gtest_report) as [obj|] eqn:H2;
    [|vm_compute in H2; discriminate].
  split; [done|].
  pose proof (gtest_json_pass_returns_iff gtest_loads demo_repr _ _ H2) as [Hiff _].
  pose proof (gtest_json_pass_returns_iff gtest_loads demo_repr _ _ H1) as [_ Hbad].
  split; [|split; [exact H1|]].
  - apply Hiff. vm_compute in H2. injection H2 as <-. vm_compute. reflexivity.
  - destruct (Hbad eq_refl) as (e & He & _). eauto.
Defined.

(** X18. Every value of a result of [parse_gtest_log], from the JSON pass
    or from the line scan, is PASSED, FAILED or SKIPPED, and the result is
    not empty. *)
Theorem gtest_log_result
    (json_loads : string → option pyval) (py_repr : pyval → string)
    (txt : string) (m : gmap string string) :
  script_cpp.parse_gtest_log json_loads py_repr txt = Ok m →
  m ≠ ∅ ∧ ∀ n v, m !! n = Some v → v ∈ RUN_STATUSES.
Proof.
  rewrite parse_gtest_log_cases.
  destruct (script_cpp._parse_gtest_json json_loads py_repr txt) as [mj|] eqn:E; [|done].
  case_decide as Hm.
  - intros [? H]%gtest_text_values. split; [done|]. intros n v. apply H.
  - intros [= <-]. split; [done|]. intros n v.
    by apply (parse_gtest_json_values _ _ _ _ E).
Qed.

Lemma gtest_log_result_witness :
  ∃ m, script_cpp.parse_gtest_log gtest_loads demo_repr doc_gtest_report = Ok m
    ∧ m ≠ ∅ ∧ m !! "MathTests.Add" = Some "PASSED"
    ∧ m !! "MathTests.Sub" = Some "SKIPPED".
Proof.
  exists {[ "MathTests.Add" := "PASSED"; "MathTests.Sub" := "SKIPPED" ]}.
  assert (H : script_cpp.parse_gtest_log gtest_loads demo_repr doc_gtest_report
              = Ok {[ "MathTests.Add" := "PASSED"; "MathTests.Sub" := "SKIPPED" ]})
    by (vm_compute; reflexivity).
  split_and!; [exact H | exact (proj1 (gtest_log_result _ _ _ _ H)) | done | done].
Defined.

(** ** script_rust.py: what the cargo extractor reads and returns *)

Section RustShape.
Implicit Types (line raw name tok tail : string) (acc : gmap string string).

(** The parts of a line [RUST_TEST_LINE_RE] matches. *)
Lemma rust_line_re_shape line m :
  Re.rmatch script_rust.RUST_TEST_LINE_RE line = Some m →
  ∃ ws1 name ws2 ws3 tok tail,
    line = "test" +:+ ws1 +:+ name +:+ ws2 +:+ "..." +:+ ws3 +:+ tok +:+ tail
    ∧ (1 ≤ String.length ws1 ∧ Py.all Py.is_space ws1 = true)
    ∧ (1 ≤ String.length name ∧ Py.all Re.dot name = true)
    ∧ (1 ≤ String.length ws2 ∧ Py.all Py.is_space ws2 = true)
    ∧ (1 ≤ String.length ws3 ∧ Py.all Py.is_space ws3 = true)
    ∧ tok ∈ RUST_TOKENS.*1
    ∧ (tail = "" ∨ ∃ b t, tail = String b t ∧ Py.is_word b = false)
    ∧ Re.group m "name" = name ∧ Re.group m "status" = tok.
Proof.
  destruct m as [c g]. intros H%rmatch_exact.
  unfold script_rust.RUST_TEST_LINE_RE in H. simpl in H.
  destruct H as (c0 & g0 & (-> & -> & _)
    & c1 & g1 & (E0 & _ & ->)
    & c2 & g2 & (ws1 & E1 & _ & Hws1 & Hl1 & ->)
    & c3 & g3 & (g3' & (name & E2 & _ & Hdot & Hlen & ->) & ->)
    & c4 & g4 & (ws2 & E3 & _ & Hws2 & Hl2 & ->)
    & c5 & g5 & (E4 & _ & ->)
    & c6 & g6 & (ws3 & E5 & _ & Hws3 & Hl3 & ->)
    & c7 & g7 & (g7' & Hst & ->)
    & c8 & g8 & Hopt & (-> & -> & Hend)).
  simpl in E0.
  assert (∃ tok a, Re.rest c6 = tok +:+ Re.rest c7 ∧ tok ∈ RUST_TOKENS.*1
            ∧ g7' = <[ "name" := Re.consumed c2 c3 ]> ∅
            ∧ Re.prev c7 = Some a ∧ Py.is_word a = true)
    as (tok & a & E6 & Htok & -> & Hprev & Ha).
  { unfold RUST_TOKENS.
    destruct Hst as [(E & Hp & ->) | [(E & Hp & ->) | (E & Hp & ->)]];
      eexists _, _; (split; [exact E|]); (split; [set_solver|]);
      (split; [done|]); (split; [exact Hp|done]). }
  assert (g8 = <[ "status" := Re.consumed c6 c7 ]>
                 (<[ "name" := Re.consumed c2 c3 ]> ∅)
          ∧ (c8 = c7 ∨ Re.at_boundary c7 = true)) as [-> Hc8].
  { destruct Hopt as [(c9 & g9 & (-> & -> & Hb) & (t & _ & _ & _ & _ & ->)) | [-> ->]];
      split; auto. }
  exists ws1, name, ws2, ws3, tok, (Re.rest c7).
  rewrite (consumed_app _ _ _ E6), (consumed_app _ _ _ E2).
  split_and!; try done.
  - by rewrite E0, E1, E2, E3, E4, E5, E6.
  - apply (boundary_after_word c7 a Hprev Ha).
    destruct Hc8 as [->|Hb]; [by right | by left].
Qed.

(** What a round of the text scan does with a raw line. *)
Lemma text_line_shape acc raw :
  script_rust.text_line acc raw = acc
  ∨ ∃ ws1 name ws2 ws3 tok st tail,
      Py.rstrip raw
      = "test" +:+ ws1 +:+ name +:+ ws2 +:+ "..." +:+ ws3 +:+ tok +:+ tail
      ∧ (1 ≤ String.length ws1 ∧ Py.all Py.is_space ws1 = true)
      ∧ (1 ≤ String.length name ∧ Py.all Re.dot name = true)
      ∧ (1 ≤ String.length ws2 ∧ Py.all Py.is_space ws2 = true)
      ∧ (1 ≤ String.length ws3 ∧ Py.all Py.is_space ws3 = true)
      ∧ (tok, st) ∈ RUST_TOKENS
      ∧ (tail = "" ∨ ∃ b t, tail = String b t ∧ Py.is_word b = false)
      ∧ script_rust.text_line acc raw = <[Py.strip name := st]> acc.
Proof.
  unfold script_rust.text_line. destruct (negb _); [by left|].
  destruct (Re.rmatch _ _) as [m|] eqn:E; [|by left]. right.
  apply rust_line_re_shape in E
    as (ws1 & name & ws2 & ws3 & tok & tail & E & H1 & H2 & H3 & H4 & Htok & Htail
        & -> & ->).
  unfold RUST_TOKENS in Htok. simpl in Htok.
  rewrite !elem_of_cons, elem_of_nil in Htok.
  destruct Htok as [->|[->|[->|[]]]]; simpl;
    eexists ws1, name, ws2, ws3, _, _, tail;
    (split_and!; [exact E|try done..]); unfold RUST_TOKENS; set_solver.
Qed.

Lemma fold_text_lines (P : string → string → Prop) lines acc :
  (∀ raw acc n v, raw ∈ lines →
     script_rust.text_line acc raw !! n = Some v → acc !! n = Some v ∨ P n v) →
  map_Forall P acc → map_Forall P (foldl script_rust.text_line acc lines).
Proof.
  revert acc. induction lines as [|raw lines IH]; intros acc Hstep Hacc; [done|].
  simpl. apply IH.
  - intros raw' acc' n v Hin. apply Hstep. by right.
  - intros n v Hnv. destruct (Hstep raw acc n v) as [H|H]; [by left|done| |done].
    by apply Hacc.
Qed.

End RustShape.

Section RustJson.
Variable json_loads : string → option pyval.
Variable py_repr : pyval → string.
Implicit Types (acc m : gmap string string).

Lemma rust_json_line_values acc raw acc' :
  script_rust.json_line json_loads py_repr acc raw = Ok acc' →
  map_Forall (λ n v, v ∈ RUN_STATUSES ∧ Py.strip n = n) acc →
  map_Forall (λ n v, v ∈ RUN_STATUSES ∧ Py.strip n = n) acc'.
Proof.
  intros H Hacc. revert H. unfold script_rust.json_line.
  assert (∀ s v, v ∈ RUN_STATUSES →
            map_Forall (λ n v, v ∈ RUN_STATUSES ∧ Py.strip n = n)
              (<[Py.strip s := v]> acc)) as Hins.
  { intros s v Hv. apply map_Forall_insert_2; [|done]. split; [done|].
    apply strip_idem. }
  assert ("PASSED" ∈ RUN_STATUSES ∧ "FAILED" ∈ RUN_STATUSES
          ∧ "SKIPPED" ∈ RUN_STATUSES) as (? & ? & ?)
    by (unfold RUN_STATUSES; set_solver).
  destruct (negb (Py.truthy _)); [by intros [= <-]|].
  destruct (negb (_ && _ && _)); [by intros [= <-]|].
  destruct (json_loads _) as [obj|]; [|by intros [= <-]].
  destruct obj as [| | | | | |d]; simpl; try done.
  repeat (case_match; simpl; try done); intros [= <-]; auto.
Qed.

Lemma rust_json_pass_values txt m :
  script_rust._parse_rust_json_lines json_loads py_repr txt = Ok m →
  map_Forall (λ n v, v ∈ RUN_STATUSES ∧ Py.strip n = n) m.
Proof.
  unfold script_rust._parse_rust_json_lines. intros H.
  eapply for_each_invariant; [|apply map_Forall_empty|exact H].
  intros ???. apply rust_json_line_values.
Qed.

End RustJson.

(** The values and keys of the text pass. *)
Lemma rust_text_values (txt : string) :
  map_Forall (λ n v, v ∈ RUN_STATUSES ∧ Py.strip n = n)
    (script_rust._parse_rust_text_lines txt).
Proof.
  unfold script_rust._parse_rust_text_lines.
  apply fold_text_lines; [|apply map_Forall_empty].
  intros raw acc n v _.
  destruct (text_line_shape acc raw)
    as [-> | (ws1 & name & ws2 & ws3 & tok & st & tail & _ & _ & _ & _ & _
              & Htok & _ & ->)]; [by left|].
  intros [[<- <-] | [_ H]]%lookup_insert_Some; [|by left]. right.
  split; [|apply strip_idem].
  unfold RUST_TOKENS in Htok. unfold RUN_STATUSES. set_solver.
Qed.

(** X19. On a log of ASCII text every entry of the text pass of the cargo
    extractor comes from a line of the log that, without its trailing whitespace, reads: the word
    test, whitespace, a name, whitespace, three dots, whitespace, one of
    the tokens ok, FAILED and ignored, and a tail that is empty or begins
    with a character that is not a letter, a digit or an underscore.  The
    key is the name trimmed and the value is PASSED, FAILED or SKIPPED by
    the token, so the fallback to [_canon_status] is never taken. *)
Theorem rust_text_entries (txt n v : string) :
  Py.all Py.is_ascii txt = true →
  script_rust._parse_rust_text_lines txt !! n = Some v →
  ∃ raw ws1 name ws2 ws3 tok tail,
    raw ∈ Py.splitlines txt
    ∧ Py.rstrip raw
      = "test" +:+ ws1 +:+ name +:+ ws2 +:+ "..." +:+ ws3 +:+ tok +:+ tail
    ∧ n = Py.strip name ∧ (tok, v) ∈ RUST_TOKENS
    ∧ (1 ≤ String.length ws1 ∧ Py.all Py.is_space ws1 = true)
    ∧ (1 ≤ String.length name ∧ Py.all Re.dot name = true)
    ∧ (1 ≤ String.length ws2 ∧ Py.all Py.is_space ws2 = true)
    ∧ (1 ≤ String.length ws3 ∧ Py.all Py.is_space ws3 = true)
    ∧ (tail = "" ∨ ∃ b t, tail = String b t ∧ Py.is_word b = false).
Proof.
  intros _. unfold script_rust._parse_rust_text_lines.
  revert n v. apply fold_text_lines; [|apply map_Forall_empty].
  intros raw acc n v Hin.
  destruct (text_line_shape acc raw)
    as [-> | (ws1 & name & ws2 & ws3 & tok & st & tail & E & H1 & H2 & H3 & H4
              & Htok & Htail & ->)]; [by left|].
  intros [[<- <-] | [_ H]]%lookup_insert_Some; [|by left]. right.
  exists raw, ws1, name, ws2, ws3, tok, tail. split_and!; try done; tauto.
Qed.

Lemma rust_text_entries_witness :
  let txt := Py.text ["running 2 tests"; "test a::b ... ok";
                      "test a::c ... FAILED"; ""; "test result: FAILED. 1 passed"] in
  Py.all Py.is_ascii txt = true
  ∧ script_rust._parse_rust_text_lines txt !! "a::c" = Some "FAILED"
  ∧ ∃ raw tok, raw ∈ Py.splitlines txt ∧ (tok, "FAILED") ∈ RUST_TOKENS.
Proof.
  intros txt.
  assert (H : script_rust._parse_rust_text_lines txt !! "a::c" = Some "FAILED")
    by (vm_compute; reflexivity).
  assert (H0 : Py.all Py.is_ascii txt = true) by (vm_compute; reflexivity).
  split; [exact H0|]. split; [exact H|].
  destruct (rust_text_entries _ _ _ H0 H)
    as (raw & ws1 & name & ws2 & ws3 & tok & tail & Hin & _ & _ & Htok & _).
  by exists raw, tok.
Defined.

(** X20. Every value of a result of [parse_rust_log], from the JSON pass
    or from the text pass, is PASSED, FAILED or SKIPPED, every key is
    trimmed, and the result is not empty. *)
Theorem rust_log_result
    (json_loads : string → option pyval) (py_repr : pyval → string)
    (txt : string) (m : gmap string string) :
  script_rust.parse_rust_log json_loads py_repr txt = Ok m →
  m ≠ ∅ ∧ ∀ n v, m !! n = Some v → v ∈ RUN_STATUSES ∧ Py.strip n = n.
Proof.
  rewrite parse_rust_log_cases.
  destruct (script_rust._parse_rust_json_lines json_loads py_repr txt) as [mj|] eqn:E;
    [|done].
  cbv zeta. case_decide as Hm.
  - case_decide as Ht; [done|]. intros [= <-]. split; [done|].
    intros n v. apply rust_text_values.
  - intros [= <-]. split; [done|]. intros n v.
    by apply (rust_json_pass_values _ _ _ _ E).
Qed.

Lemma rust_log_result_witness :
  ∃ m, script_rust.parse_rust_log cargo_loads demo_repr
         (Py.text [cargo_event "a::b" "ok"; "not an event";
                   cargo_event "a::c" "failed"]) = Ok m
    ∧ m ≠ ∅ ∧ m !! "a::c" = Some "FAILED" ∧ "FAILED" ∈ RUN_STATUSES.
Proof.
  exists {[ "a::b" := "PASSED"; "a::c" := "FAILED" ]}.
  assert (H : script_rust.parse_rust_log cargo_loads demo_repr
                (Py.text [cargo_event "a::b" "ok"; "not an event";
                          cargo_event "a::c" "failed"])
              = Ok {[ "a::b" := "PASSED"; "a::c" := "FAILED" ]})
    by (vm_compute; reflexivity).
  destruct (rust_log_result _ _ _ _ H) as [Hne Hall].
  split_and!; [exact H | exact Hne | reflexivity |].
  exact (proj1 (Hall "a::c" "FAILED" eq_refl)).
Defined.




(** ** The three [main] functions *)

Section Main.
Variable json_loads : string → option pyval.
Variable py_repr : pyval → string.
Implicit Types (fs : string → path_state) (r : ComparisonResult).





End Main.




(** ** The matcher finds a match whenever there is one *)

Section MatcherComplete.
Context {R : Type}.
Implicit Types (c : Re.cursor) (g : Re.groups) (s t : string).

Lemma eat_complete t c s' :
  Re.rest c = t +:+ s' →
  Re.eat t c = Some (Re.Cursor (last_char (Re.prev c) t) s').
Proof.
  revert c. induction t as [|a t IH]; intros [pv s]; simpl.
  - by intros ->.
  - rewrite sapp_cons. intros ->. rewrite decide_True by done. by apply IH.
Qed.

Lemma rep_greedy_complete p (k : Re.cursor → option R) min pv t s' :
  Py.all p t = true → min ≤ String.length t →
  is_Some (k (Re.Cursor (last_char pv t) s')) →
  is_Some (Re.rep_greedy p k min pv (t +:+ s')).
Proof.
  revert min pv. induction t as [|a t IH]; intros min pv Hall Hmin Hk.
  - simpl in Hmin. assert (min = 0) as -> by lia. simpl in Hk.
    change ("" +:+ s') with s'. destruct s' as [|b s']; simpl; [done|].
    destruct (p b); [|done]. by destruct (Re.rep_greedy p k 0 (Some b) s').
  - rewrite sapp_cons. simpl in *. destruct (p a); [|done].
    destruct (IH (pred min) (Some a)) as [x ->]; [done|lia|done|]. eauto.
Qed.

Lemma rep_lazy_complete p (k : Re.cursor → option R) min pv t s' :
  Py.all p t = true → min ≤ String.length t →
  is_Some (k (Re.Cursor (last_char pv t) s')) →
  is_Some (Re.rep_lazy p k min pv (t +:+ s')).
Proof.
  revert min pv. induction t as [|a t IH]; intros min pv Hall Hmin Hk.
  - simpl in Hmin. assert (min = 0) as -> by lia. simpl in Hk.
    change ("" +:+ s') with s'. destruct Hk as [x Hk].
    destruct s' as [|b s']; simpl; rewrite Hk; eauto.
  - rewrite sapp_cons. simpl in *. destruct (p a); [|done].
    specialize (IH (pred min) (Some a) Hall ltac:(lia) Hk).
    destruct min; [|done]. by destruct (k (Re.Cursor pv (String a (t +:+ s')))).
Qed.

Lemma run_complete r c g (k : Re.cursor → Re.groups → option R) c' g' :
  derives r c g c' g' → is_Some (k c' g') → is_Some (Re.run r c g k).
Proof.
  revert c g k c' g'.
  induction r as [s|r1 IH1 r2 IH2|r1 IH1 r2 IH2|greedy min p|r IH|name r IH| | |];
    intros c g k c' g'; simpl.
  - intros (E & Hp & ->) Hk. rewrite (eat_complete _ _ _ E), <- Hp.
    by destruct c'.
  - intros (c1 & g1 & H1 & H2) Hk. eapply IH1; [exact H1|]. by eapply IH2.
  - intros [H|H] Hk.
    + destruct (IH1 _ _ _ _ _ H Hk) as [x ->]. eauto.
    + destruct (Re.run r1 c g k); [eauto|]. by eapply IH2.
  - intros (t & E & Hp & Hall & Hmin & ->) Hk. rewrite E.
    assert (is_Some (k (Re.Cursor (last_char (Re.prev c) t) (Re.rest c')) g)) as Hk'.
    { rewrite <- Hp. by destruct c'. }
    destruct greedy; [by apply rep_greedy_complete | by apply rep_lazy_complete].
  - intros [H|[-> ->]] Hk.
    + destruct (IH _ _ _ _ _ H Hk) as [x ->]. eauto.
    + by destruct (Re.run r c g k).
  - intros (g1 & H & ->) Hk. by eapply IH.
  - intros (-> & -> & ->) Hk. done.
  - intros (-> & -> & ->) Hk. done.
  - intros (-> & -> & ->) Hk. done.
Qed.

End MatcherComplete.

Lemma rmatch_complete r s c' g' :
  derives r (Re.Cursor None s) ∅ c' g' → is_Some (Re.rmatch r s).
Proof. intros H. unfold Re.rmatch. by eapply run_complete. Qed.

(** ** The match the matcher returns

    The matcher tries a greedy repetition longest first and a lazy one
    shortest first; these lemmas give the branch it returns. *)

Section MatcherFirst.
Context {R : Type}.
Implicit Types (c : Re.cursor) (g : Re.groups) (s t : string)
  (k : Re.cursor → Re.groups → option R).

Lemma last_char_app pv s t : last_char pv (s +:+ t) = last_char (last_char pv s) t.
Proof. revert pv. induction s as [|a s IH]; intros pv; [done|]. rewrite sapp_cons. apply IH. Qed.

Lemma seq_bol r s g k x :
  Re.run r (Re.Cursor None s) g k = Some x →
  Re.run (Re.Bol ⋅ r)%re (Re.Cursor None s) g k = Some x.
Proof. done. Qed.

Lemma seq_lit r s t c g k x :
  Re.rest c = s +:+ t →
  Re.run r (Re.Cursor (last_char (Re.prev c) s) t) g k = Some x →
  Re.run (Re.Lit s ⋅ r)%re c g k = Some x.
Proof. intros E H. simpl. by rewrite (eat_complete _ _ _ E). Qed.

Lemma seq_lit_fails r s c g k :
  Re.eat s c = None → Re.run (Re.Lit s ⋅ r)%re c g k = None.
Proof. intros E. simpl. by rewrite E. Qed.

Lemma rep_greedy_first p (k1 : Re.cursor → option R) min pv t s' x :
  Py.all p t = true → min ≤ String.length t →
  match s' with String b _ => p b = false | "" => True end →
  k1 (Re.Cursor (last_char pv t) s') = Some x →
  Re.rep_greedy p k1 min pv (t +:+ s') = Some x.
Proof.
  revert min pv. induction t as [|a t IH]; intros min pv Hall Hmin Hnext Hk.
  - simpl in Hmin. assert (min = 0) as -> by lia. simpl in Hk.
    change ("" +:+ s') with s'. destruct s' as [|b s']; simpl; [done|].
    by rewrite Hnext.
  - rewrite sapp_cons. simpl in *. destruct (p a); [|done].
    by rewrite (IH (pred min) (Some a)) by (done || lia).
Qed.

Lemma seq_greedy r p min t s' c g k x :
  Re.rest c = t +:+ s' → Py.all p t = true → min ≤ String.length t →
  match s' with String b _ => p b = false | "" => True end →
  Re.run r (Re.Cursor (last_char (Re.prev c) t) s') g k = Some x →
  Re.run (Re.Rep true min p ⋅ r)%re c g k = Some x.
Proof. intros E ????. simpl. rewrite E. by apply rep_greedy_first. Qed.

Lemma rep_lazy_first p (k1 : Re.cursor → option R) min pv t s' x :
  Py.all p t = true → min ≤ String.length t →
  (∀ t1 t2, t = t1 +:+ t2 → t2 ≠ "" →
     k1 (Re.Cursor (last_char pv t1) (t2 +:+ s')) = None) →
  k1 (Re.Cursor (last_char pv t) s') = Some x →
  Re.rep_lazy p k1 min pv (t +:+ s') = Some x.
Proof.
  revert min pv. induction t as [|a t IH]; intros min pv Hall Hmin Hno Hk.
  - simpl in Hmin. assert (min = 0) as -> by lia. simpl in Hk.
    change ("" +:+ s') with s'. destruct s' as [|b s']; simpl; by rewrite Hk.
  - rewrite sapp_cons. simpl in *. destruct (p a); [|done].
    assert (Re.rep_lazy p k1 (pred min) (Some a) (t +:+ s') = Some x) as Hmore.
    { apply IH; [done|lia| |done]. intros t1 t2 -> Ht2.
      apply (Hno (String a t1) t2); done. }
    destruct min; [|done].
    pose proof (Hno "" (String a t) eq_refl ltac:(done)) as H0.
    simpl in H0. rewrite sapp_cons in H0. by rewrite H0.
Qed.

(** A lazy group: the shortest text after which the rest matches. *)
Lemma seq_grp_lazy r name p min t s' c g k x :
  Re.rest c = t +:+ s' → Py.all p t = true → min ≤ String.length t →
  (∀ t1 t2, t = t1 +:+ t2 → t2 ≠ "" →
     Re.run r (Re.Cursor (last_char (Re.prev c) t1) (t2 +:+ s'))
       (<[name := t1]> g) k = None) →
  Re.run r (Re.Cursor (last_char (Re.prev c) t) s') (<[name := t]> g) k = Some x →
  Re.run (Re.Grp name (Re.Rep false min p) ⋅ r)%re c g k = Some x.
Proof.
  intros E Hall Hmin Hno Hk. simpl. rewrite E. apply rep_lazy_first; [done..| |].
  - intros t1 t2 -> Ht2. rewrite (consumed_app c _ t1).
    + by apply Hno.
    + simpl. by rewrite E, sapp_assoc.
  - by rewrite (consumed_app c _ t).
Qed.

(** A group of alternative literals none of which is the start of
    another: the literal the text begins with. *)
Lemma seq_grp_lits r name (lits : list string) i lit s' c g k x :
  lits !! i = Some lit →
  (∀ j l, j < i → lits !! j = Some l → Re.eat l c = None) →
  Re.rest c = lit +:+ s' →
  Re.run r (Re.Cursor (last_char (Re.prev c) lit) s') (<[name := lit]> g) k = Some x →
  ∀ alts, alts = foldr (λ l a, Some (match a with
                                     | Some a' => Re.Alt (Re.Lit l) a'
                                     | None => Re.Lit l
                                     end)) None lits →
  ∀ a, alts = Some a → Re.run (Re.Grp name a ⋅ r)%re c g k = Some x.
Proof.
  intros Hi Hbefore E Hk alts -> a Ha. revert i a Hi Hbefore Ha.
  assert (Hhit : Re.run (Re.Lit lit) c g
                   (λ c' g', Re.run r c' (<[name := Re.consumed c c']> g') k) = Some x).
  { simpl. rewrite (eat_complete _ _ _ E), (consumed_app c _ lit); done. }
  induction lits as [|l lits IH]; intros i a Hi Hbefore Ha; [done|].
  simpl in Ha.
  destruct i as [|i].
  - simpl in Hi. injection Hi as ->.
    destruct (foldr _ None lits) as [a'|]; injection Ha as <-; [|exact Hhit].
    change (Re.run (Re.Grp name (Re.Alt (Re.Lit lit) a') ⋅ r)%re c g k)
      with (match Re.run (Re.Lit lit) c g
                    (λ c' g', Re.run r c' (<[name := Re.consumed c c']> g') k) with
            | Some y => Some y
            | None => Re.run a' c g
                        (λ c' g', Re.run r c' (<[name := Re.consumed c c']> g') k)
            end).
    by rewrite Hhit.
  - simpl in Hi.
    destruct (foldr _ None lits) as [a'|] eqn:Ea; injection Ha as <-.
    + change (Re.run (Re.Grp name (Re.Alt (Re.Lit l) a') ⋅ r)%re c g k)
        with (match Re.run (Re.Lit l) c g
                      (λ c' g', Re.run r c' (<[name := Re.consumed c c']> g') k) with
              | Some y => Some y
              | None => Re.run (Re.Grp name a' ⋅ r)%re c g k
              end).
      assert (Re.run (Re.Lit l) c g
                (λ c' g', Re.run r c' (<[name := Re.consumed c c']> g') k) = None) as ->.
      { simpl. by rewrite (Hbefore 0 l) by (done || lia). }
      apply (IH i); [done| |done].
      intros j l' Hj Hl'. apply (Hbefore (S j) l'); [lia|done].
    + destruct lits; [done|]. simpl in Ea. by destruct (foldr _ None lits).
Qed.

End MatcherFirst.

(** ** Texts with no whitespace *)

Section NoSpace.
Implicit Types (s t name : string).

Lemma no_space_dot s : no_space s = true → Py.all Re.dot s = true.
Proof.
  induction s as [|a s IH]; [done|]. unfold no_space. simpl.
  intros [Ha Hs]%andb_true_iff. rewrite (IH Hs), andb_true_r.
  unfold Re.dot. destruct (Ascii.eqb_spec a "010"%char) as [->|]; done.
Qed.

Lemma no_space_app s t : no_space (s +:+ t) = no_space s && no_space t.
Proof. apply all_app. Qed.

Lemma last_char_nonempty pv pv' s : s ≠ "" → last_char pv s = last_char pv' s.
Proof. by destruct s. Qed.

Lemma rstrip_ends s a :
  last_char None s = Some a → Py.is_space a = false → Py.rstrip s = s.
Proof.
  intros Hlast Ha. induction s as [|c s IH]; [done|]. simpl in *.
  destruct s as [|b s].
  - simpl in *. injection Hlast as ->. by rewrite Ha.
  - rewrite IH by done. done.
Qed.

Lemma no_space_last pv s :
  no_space s = true → s ≠ "" →
  ∃ a, last_char pv s = Some a ∧ Py.is_space a = false.
Proof.
  revert pv. induction s as [|c s IH]; intros pv Hs Hne; [done|].
  unfold no_space in Hs. simpl in Hs. apply andb_true_iff in Hs as [Hc Hs].
  destruct s as [|b s].
  - exists c. split; [done|]. by destruct (Py.is_space c).
  - apply (IH (Some c)); done.
Qed.

Lemma strip_no_space s : no_space s = true → Py.strip s = s.
Proof.
  intros Hs. destruct s as [|c s]; [done|].
  destruct (no_space_last None (String c s) Hs) as (a & Hlast & Ha); [done|].
  unfold no_space in Hs. simpl in Hs. apply andb_true_iff in Hs as [Hc Hs].
  unfold Py.strip.
  assert (Py.lstrip (String c s) = String c s) as ->.
  { simpl. by destruct (Py.is_space c). }
  by eapply rstrip_ends.
Qed.

End NoSpace.

(** ** script_cpp.py: the lines the gtest extractor recognises *)

Section GtestLines.
Implicit Types (line raw name ws d : string).

(** Every line the summary pattern matches is matched by the outcome
    pattern as well. *)
Lemma summary_matches_outcome line m :
  Re.rmatch script_cpp.GTEST_SUMMARY_FAIL_RE line = Some m →
  is_Some (Re.rmatch script_cpp.GTEST_OUTCOME_RE line).
Proof.
  destruct m as [c g]. intros H%rmatch_exact.
  unfold script_cpp.GTEST_SUMMARY_FAIL_RE in H. simpl in H.
  destruct H as (c0 & g0 & (-> & -> & Hbol)
    & c1 & g1 & (E1 & P1 & ->)
    & c2 & g2 & (ws1 & E2 & P2 & Hws1 & _ & ->)
    & c3 & g3 & (E3 & P3 & ->)
    & c4 & g4 & (ws2 & E4 & P4 & Hws2 & _ & ->)
    & c5 & g5 & (E5 & P5 & ->)
    & c6 & g6 & (ws3 & E6 & P6 & Hws3 & Hl3 & ->)
    & c7 & g7 & (g7' & (name & E7 & P7 & Hdot & Hlen & ->) & ->)
    & c8 & g8 & (ws4 & E8 & P8 & Hws4 & _ & ->)
    & (-> & -> & Hend)).
  eapply (rmatch_complete _ _ c8).
  unfold script_cpp.GTEST_OUTCOME_RE. simpl.
  eexists _, _; split; [done|].
  exists c1; eexists; split; [done|].
  exists c2; eexists; split; [exists ws1; split_and!; [done..|lia|done]|].
  exists c3; eexists; split; [eexists; split; [right; left; done|done]|].
  exists c4; eexists; split; [exists ws2; split_and!; [done..|lia|done]|].
  exists c5; eexists; split; [done|].
  exists c6; eexists; split; [exists ws3; split_and!; done|].
  exists c7; eexists; split; [eexists; split; [exists name; split_and!; done|done]|].
  exists c7; eexists; split; [right; done|].
  exists c8; eexists; split; [exists ws4; split_and!; [done..|lia|done]|].
  done.
Qed.

(** What follows the name in the outcome pattern. *)
Lemma gtest_tail_fails c g (k : Re.cursor → Re.groups → option (Re.cursor * Re.groups))
    a s :
  Re.rest c = String a s → Py.is_space a = false →
  Re.run (Re.Opt (Re.Rep true 1 Re.space ⋅ Re.Lit "(" ⋅ Re.Rep true 0 Re.dot
                  ⋅ Re.Lit ")") ⋅ Re.Rep true 0 Re.space ⋅ Re.Eol)%re c g k = None.
Proof.
  intros E Ha.
  destruct (Re.run _ c g k) as [x|] eqn:Hrun; [exfalso|done].
  apply run_exact in Hrun as (c' & g' & H & _). simpl in H.
  destruct H as (c1 & g1 & Hopt & c2 & g2 & (t & E2 & _ & Ht & _) & (-> & _ & Hend)).
  assert (∀ t' s', Py.all Re.space t' = true → 1 ≤ String.length t' →
                   String a s ≠ t' +:+ s') as Hno.
  { intros [|b t'] s' Hall Hlen; [simpl in Hlen; lia|].
    rewrite sapp_cons. intros [= <- _]. simpl in Hall. unfold Re.space in Hall.
    by rewrite Ha in Hall. }
  destruct Hopt as [(c3 & g3 & (t1 & E1 & _ & Ht1 & Hl1 & _) & _) | [-> _]].
  - rewrite E in E1. exact (Hno t1 _ Ht1 Hl1 E1).
  - rewrite E in E2. destruct t as [|b t].
    + change ("" +:+ Re.rest c2) with (Re.rest c2) in E2.
      unfold Re.at_end in Hend. rewrite <- E2 in Hend.
      destruct s; [|done]. apply Ascii.eqb_eq in Hend as ->. done.
    + eapply Hno; [exact Ht|simpl; lia|exact E2].
Qed.

Lemma gtest_tail_ok c g sfx :
  Re.rest c = sfx →
  (sfx = "" ∨ ∃ ws d, sfx = ws +:+ "(" +:+ d +:+ ")" ∧ 1 ≤ String.length ws
                      ∧ Py.all Py.is_space ws = true ∧ Py.all Re.dot d = true) →
  ∃ c', Re.run (Re.Opt (Re.Rep true 1 Re.space ⋅ Re.Lit "(" ⋅ Re.Rep true 0 Re.dot
                        ⋅ Re.Lit ")") ⋅ Re.Rep true 0 Re.space ⋅ Re.Eol)%re
          c g (λ c g, Some (c, g)) = Some (c', g).
Proof.
  intros E Hsfx.
  assert (is_Some (Re.run (Re.Opt (Re.Rep true 1 Re.space ⋅ Re.Lit "(" ⋅ Re.Rep true 0 Re.dot
                        ⋅ Re.Lit ")") ⋅ Re.Rep true 0 Re.space ⋅ Re.Eol)%re
          c g (λ c g, Some (c, g)))) as [[c' g'] Hrun].
  { apply (run_complete _ _ _ _ (Re.Cursor (last_char (Re.prev c) sfx) "") g); [|done].
    simpl. destruct Hsfx as [-> | (ws & d & -> & Hl & Hws & Hd)].
    - exists c, g. split; [by right|]. exists c, g. split.
      + exists "". by rewrite E.
      + split_and!; [by destruct c; simpl in *; subst|done|].
        unfold Re.at_end. by rewrite E.
    - eexists (Re.Cursor _ ""), g. split.
      + left. eexists (Re.Cursor _ ("(" +:+ d +:+ ")")), g. split.
        { exists ws. split_and!; [by rewrite E|reflexivity|done..]. }
        eexists (Re.Cursor _ (d +:+ ")")), g. split; [done|].
        eexists (Re.Cursor _ ")"), g. split; [|done].
        exists d. split_and!; [done|reflexivity|done|lia|done].
      + eexists (Re.Cursor _ ""), g. split; [by exists ""|].
        split_and!; [|done..]. simpl. by rewrite !last_char_app. }
  exists c'. rewrite Hrun. f_equal. f_equal.
  apply run_exact in Hrun as (c1 & g1 & H & [= -> ->]). simpl in H.
  destruct H as (c2 & g2 & Hopt & c3 & g3 & (t & _ & _ & _ & _ & ->) & (_ & -> & _)).
  destruct Hopt as [(c4 & g4 & (t1 & _ & _ & _ & _ & ->) & c5 & g5 & (_ & _ & ->)
                     & c6 & g6 & (t2 & _ & _ & _ & _ & ->) & (_ & _ & ->)) | [_ ->]]; done.
Qed.

(** [re.sub] with the suffix pattern. *)
Lemma sub_go_empty fuel r pv : Re.sub_go fuel r pv "" = "".
Proof.
  destruct fuel; [done|]. simpl.
  by destruct (Re.run r _ _ _).
Qed.

Lemma sub_go_skip fuel r pv a s :
  Re.run r (Re.Cursor pv (String a s)) ∅ (λ c _, Some c) = None →
  Re.sub_go (S fuel) r pv (String a s) = String a (Re.sub_go fuel r (Some a) s).
Proof. intros H. simpl. by rewrite H. Qed.

Lemma sub_go_hit fuel r pv s c' :
  Re.run r (Re.Cursor pv s) ∅ (λ c _, Some c) = Some c' →
  Re.rest c' = "" → s ≠ "" → Re.sub_go (S fuel) r pv s = "".
Proof.
  intros H E Hs. simpl. rewrite H, E.
  rewrite decide_True by (destruct s; [done|simpl; lia]).
  apply sub_go_empty.
Qed.

Lemma suffix_fails pv a s :
  Py.is_space a = false →
  Re.run script_cpp.SUFFIX_RE (Re.Cursor pv (String a s)) ∅ (λ c _, Some c) = None.
Proof.
  intros Ha. destruct (Re.run _ _ _ _) as [x|] eqn:Hrun; [exfalso|done].
  apply run_exact in Hrun as (c' & g' & H & _).
  unfold script_cpp.SUFFIX_RE in H. simpl in H.
  destruct H as (c1 & g1 & (t & E & _ & Ht & Hl & _) & _).
  destruct t as [|b t]; [simpl in Hl; lia|].
  rewrite sapp_cons in E. injection E as <- _. simpl in Ht. unfold Re.space in Ht.
  by rewrite Ha in Ht.
Qed.

Lemma suffix_hit pv ws d :
  1 ≤ String.length ws → Py.all Py.is_space ws = true → Py.all Re.dot d = true →
  ∃ c', Re.run script_cpp.SUFFIX_RE (Re.Cursor pv (ws +:+ "(" +:+ d +:+ ")")) ∅
          (λ c _, Some c) = Some c'
        ∧ Re.rest c' = "".
Proof.
  intros Hl Hws Hd.
  assert (is_Some (Re.run script_cpp.SUFFIX_RE
                     (Re.Cursor pv (ws +:+ "(" +:+ d +:+ ")")) ∅ (λ c _, Some c)))
    as [c' Hrun].
  { apply (run_complete _ _ _ _ (Re.Cursor (Some ")"%char) "") ∅); [|done].
    unfold script_cpp.SUFFIX_RE. simpl.
    eexists (Re.Cursor _ ("(" +:+ d +:+ ")")), ∅. split.
    { exists ws. split_and!; [done|reflexivity|done..]. }
    eexists (Re.Cursor _ (d +:+ ")")), ∅. split; [done|].
    eexists (Re.Cursor _ ")"), ∅. split.
    { exists d. split_and!; [done|reflexivity|done|lia|done]. }
    eexists (Re.Cursor _ ""), ∅. split; [done|].
    eexists (Re.Cursor _ ""), ∅. split; [by exists ""|done]. }
  exists c'. split; [done|].
  apply run_exact in Hrun as (c1 & g1 & H & [= ->]).
  unfold script_cpp.SUFFIX_RE in H. simpl in H.
  destruct H as (c2 & g2 & (t1 & E1 & _) & c3 & g3 & (E2 & _) & c4 & g4
    & (t2 & E3 & _) & c5 & g5 & (E4 & _) & c6 & g6 & (t3 & E5 & _ & Ht3 & _)
    & (-> & _ & Hend)).
  unfold Re.at_end in Hend. destruct (Re.rest c6) as [|b [|? ?]] eqn:E6; [done| |done].
  exfalso. apply Ascii.eqb_eq in Hend as ->.
  rewrite E2, E3, E4, E5 in E1. apply (f_equal (last_char None)) in E1.
  rewrite !last_char_app in E1. simpl in E1. discriminate E1.
Qed.

(** The sanitizer removes a duration suffix. *)
Lemma sanitize_suffix name sfx :
  no_space name = true →
  (sfx = "" ∨ ∃ ws d, sfx = ws +:+ "(" +:+ d +:+ ")" ∧ 1 ≤ String.length ws
                      ∧ Py.all Py.is_space ws = true ∧ Py.all Re.dot d = true) →
  script_cpp._sanitize_gtest_name (name +:+ sfx) = name.
Proof.
  intros Hname Hsfx. unfold script_cpp._sanitize_gtest_name, Re.sub_delete.
  assert (∀ fuel pv,
            Re.sub_go (String.length name + fuel) script_cpp.SUFFIX_RE pv (name +:+ sfx)
            = name +:+ Re.sub_go fuel script_cpp.SUFFIX_RE (last_char pv name) sfx) as Hskip.
  { intros fuel. clear Hsfx. induction name as [|a name IH]; intros pv; [done|].
    unfold no_space in Hname. simpl in Hname.
    apply andb_true_iff in Hname as [Ha Hname].
    rewrite !sapp_cons. cbn [String.length Nat.add].
    rewrite sub_go_skip by (apply suffix_fails; by destruct (Py.is_space a)).
    by rewrite (IH Hname). }
  rewrite sapp_length.
  replace (S (String.length name + String.length sfx))
    with (String.length name + S (String.length sfx)) by lia.
  rewrite Hskip.
  assert (Re.sub_go (S (String.length sfx)) script_cpp.SUFFIX_RE
            (last_char None name) sfx = "") as ->.
  { destruct Hsfx as [-> | (ws & d & -> & Hl & Hws & Hd)]; [apply sub_go_empty|].
    destruct (suffix_hit (last_char None name) ws d Hl Hws Hd) as (c' & Hrun & Hrest).
    eapply sub_go_hit; [exact Hrun|exact Hrest|].
    destruct ws; [simpl in Hl; lia|done]. }
  rewrite sapp_nil_r. by apply strip_no_space.
Qed.

(** The match of the outcome pattern on a line of the usual form. *)
Lemma gtest_outcome_typical ws1 tag st ws2 ws3 name sfx :
  (tag, st) ∈ GTEST_TAGS →
  Py.all Py.is_space ws1 = true → Py.all Py.is_space ws2 = true →
  Py.all Py.is_space ws3 = true → 1 ≤ String.length ws3 →
  name ≠ "" → no_space name = true →
  (sfx = "" ∨ ∃ ws d, sfx = ws +:+ "(" +:+ d +:+ ")" ∧ 1 ≤ String.length ws
                      ∧ Py.all Py.is_space ws = true ∧ Py.all Re.dot d = true) →
  ∃ m, Re.rmatch script_cpp.GTEST_OUTCOME_RE
         ("[" +:+ ws1 +:+ tag +:+ ws2 +:+ "]" +:+ ws3 +:+ name +:+ sfx) = Some m
       ∧ Re.group m "name" = name ∧ Re.group m "tag" = tag.
Proof.
  intros Htag Hws1 Hws2 Hws3 Hl3 Hne Hname Hsfx.
  set (pv := last_char (last_char (Some "]"%char) ws3) name).
  destruct (gtest_tail_ok (Re.Cursor pv sfx)
              (<[ "name" := name ]> (<[ "tag" := tag ]> ∅)) sfx eq_refl Hsfx)
    as [c' Htail].
  exists (c', <[ "name" := name ]> (<[ "tag" := tag ]> ∅)).
  split; [|done].
  assert (∃ i, ["OK"; "FAILED"; "SKIPPED"] !! i = Some tag
            ∧ (∀ j l pv X, j < i → ["OK"; "FAILED"; "SKIPPED"] !! j = Some l →
                 Re.eat l (Re.Cursor pv (tag +:+ X)) = None)
            ∧ ∀ X, match tag +:+ X with
                   | String b _ => Re.space b = false
                   | "" => True
                   end) as (i & Hi & Hbefore & Hfirst).
  { unfold GTEST_TAGS in Htag. rewrite !elem_of_cons, elem_of_nil in Htag.
    destruct Htag as [[= -> ->]|[[= -> ->]|[[= -> ->]|[]]]];
      [exists 0|exists 1|exists 2]; (split; [done|]); (split; [|done]);
      intros j l pv' X Hj Hl; rewrite !sapp_cons;
      repeat (destruct j as [|j]; [simpl in Hl; injection Hl as <-; try done; try lia|]);
      lia. }
  destruct name as [|a name]; [done|].
  assert (Py.is_space a = false) as Ha.
  { unfold no_space in Hname. simpl in Hname. by destruct (Py.is_space a). }
  unfold Re.rmatch, script_cpp.GTEST_OUTCOME_RE.
  apply seq_bol.
  eapply seq_lit; [reflexivity|].
  eapply seq_greedy; [reflexivity|exact Hws1|lia|apply Hfirst|].
  eapply (seq_grp_lits _ "tag" ["OK"; "FAILED"; "SKIPPED"] i tag);
    [exact Hi|intros j l; apply Hbefore|reflexivity| |reflexivity|reflexivity].
  eapply seq_greedy; [reflexivity|exact Hws2|lia|done|].
  eapply seq_lit; [reflexivity|].
  eapply seq_greedy; [reflexivity|exact Hws3|exact Hl3|exact Ha|].
  eapply seq_grp_lazy; [reflexivity|by apply no_space_dot|simpl; lia| |].
  - intros t1 [|b t2] E Hne2; [done|].
    apply (gtest_tail_fails _ _ _ b (t2 +:+ sfx)); [done|].
    rewrite E, no_space_app in Hname. apply andb_true_iff in Hname as [_ H2].
    unfold no_space in H2. simpl in H2. by destruct (Py.is_space b).
  - exact Htail.
Qed.

End GtestLines.

(** X23. On ASCII text the outcome pattern matches every line the summary
    pattern matches, so the second branch of the line scan of the gtest
    extractor is never taken: what a line does is decided by the outcome
    pattern alone. *)
Theorem gtest_summary_pattern_redundant (acc : gmap string string) (raw : string) :
  Py.all Py.is_ascii raw = true →
  (∀ line, Py.all Py.is_ascii line = true →
           Re.rmatch script_cpp.GTEST_OUTCOME_RE line = None →
           Re.rmatch script_cpp.GTEST_SUMMARY_FAIL_RE line = None)
  ∧ script_cpp.gtest_line acc raw =
    match Re.rmatch script_cpp.GTEST_OUTCOME_RE (Py.rstrip raw) with
    | Some m =>
        <[script_cpp._sanitize_gtest_name (Re.group m "name")
          := script_cpp._canon_status (Py.upper (Re.group m "tag"))]> acc
    | None => acc
    end.
Proof.
  assert (Hdead : ∀ line, Re.rmatch script_cpp.GTEST_OUTCOME_RE line = None →
                          Re.rmatch script_cpp.GTEST_SUMMARY_FAIL_RE line = None).
  { intros line Hout.
    destruct (Re.rmatch script_cpp.GTEST_SUMMARY_FAIL_RE line) as [m|] eqn:E; [|done].
    apply summary_matches_outcome in E as [m' E]. congruence. }
  intros _. split; [intros line _; apply Hdead|].
  unfold script_cpp.gtest_line.
  destruct (Py.rstrip raw) as [|a line] eqn:E; [done|]. simpl negb. cbv iota.
  destruct (Re.rmatch script_cpp.GTEST_OUTCOME_RE (String a line)) as [m|] eqn:Hout;
    [done|].
  by rewrite (Hdead _ Hout).
Qed.

Lemma gtest_summary_pattern_redundant_witness :
  script_cpp.gtest_line ∅ "[  FAILED  ] M.Add (3 ms)" = {[ "M.Add" := "FAILED" ]}
  ∧ Re.rmatch script_cpp.GTEST_SUMMARY_FAIL_RE "[ RUN      ] M.Add" = None.
Proof.
  destruct (gtest_summary_pattern_redundant ∅ "[  FAILED  ] M.Add (3 ms)" eq_refl)
    as [Hdead Hline].
  split.
  - rewrite Hline. vm_compute. reflexivity.
  - apply Hdead; vm_compute; reflexivity.
Defined.

(** X24. The sanitizer leaves a name of ASCII text with no whitespace as
    it is and removes a parenthesised suffix, such as a duration, that
    follows it after whitespace. *)
Theorem sanitize_drops_suffix (name ws d : string) :
  Py.all Py.is_ascii (name +:+ d) = true →
  no_space name = true →
  1 ≤ String.length ws → Py.all Py.is_space ws = true → Py.all Re.dot d = true →
  script_cpp._sanitize_gtest_name name = name
  ∧ script_cpp._sanitize_gtest_name (name +:+ ws +:+ "(" +:+ d +:+ ")") = name.
Proof.
  intros _ Hname Hl Hws Hd. split.
  - rewrite <- (sapp_nil_r name) at 1. apply sanitize_suffix; [done|by left].
  - apply sanitize_suffix; [done|]. right. by exists ws, d.
Qed.

Lemma sanitize_drops_suffix_witness :
  script_cpp._sanitize_gtest_name "MathTest.Add" = "MathTest.Add"
  ∧ script_cpp._sanitize_gtest_name ("MathTest.Add" +:+ "  " +:+ "(" +:+ "12 ms" +:+ ")")
    = "MathTest.Add".
Proof.
  apply (sanitize_drops_suffix "MathTest.Add" "  " "12 ms");
    [reflexivity | reflexivity | simpl; lia | reflexivity | reflexivity].
Defined.

(** X25. A line of ASCII text of the usual gtest form sets the entry one
    expects: a bracket holding OK, FAILED or SKIPPED, whitespace, a name with no
    whitespace and possibly a parenthesised suffix after whitespace set
    the name, without the suffix, to PASSED, FAILED or SKIPPED.  So an
    OK line with a duration and a FAILED summary line of one test write
    the same key. *)
Theorem gtest_line_recognised (ws1 tag st ws2 ws3 name sfx : string) :
  Py.all Py.is_ascii (name +:+ sfx) = true →
  (tag, st) ∈ GTEST_TAGS →
  Py.all Py.is_space ws1 = true → Py.all Py.is_space ws2 = true →
  Py.all Py.is_space ws3 = true → 1 ≤ String.length ws3 →
  name ≠ "" → no_space name = true →
  (sfx = "" ∨ ∃ ws d, sfx = ws +:+ "(" +:+ d +:+ ")" ∧ 1 ≤ String.length ws
                      ∧ Py.all Py.is_space ws = true ∧ Py.all Re.dot d = true) →
  script_cpp.sets ("[" +:+ ws1 +:+ tag +:+ ws2 +:+ "]" +:+ ws3 +:+ name +:+ sfx)
  = Some (name, st)
  ∧ ∀ acc, script_cpp.gtest_line acc
             ("[" +:+ ws1 +:+ tag +:+ ws2 +:+ "]" +:+ ws3 +:+ name +:+ sfx)
           = <[name := st]> acc.
Proof.
  intros _ Htag Hws1 Hws2 Hws3 Hl3 Hne Hname Hsfx.
  assert (Hsets : script_cpp.sets
            ("[" +:+ ws1 +:+ tag +:+ ws2 +:+ "]" +:+ ws3 +:+ name +:+ sfx)
          = Some (name, st)).
  { destruct (gtest_outcome_typical ws1 tag st ws2 ws3 name sfx)
      as (m & Hm & Hgn & Hgt); [done..|].
    unfold script_cpp.sets.
    assert (Py.rstrip ("[" +:+ ws1 +:+ tag +:+ ws2 +:+ "]" +:+ ws3 +:+ name +:+ sfx)
            = "[" +:+ ws1 +:+ tag +:+ ws2 +:+ "]" +:+ ws3 +:+ name +:+ sfx) as ->.
    { assert (∃ a, last_char None
                     ("[" +:+ ws1 +:+ tag +:+ ws2 +:+ "]" +:+ ws3 +:+ name +:+ sfx)
                   = Some a ∧ Py.is_space a = false) as (a & Hlast & Ha).
      { rewrite !last_char_app.
        destruct Hsfx as [-> | (ws & d & -> & _)].
        - simpl. by apply no_space_last.
        - rewrite !last_char_app. by exists ")"%char. }
      by eapply rstrip_ends. }
    rewrite sapp_cons. simpl negb. cbv iota. rewrite <- sapp_cons, Hm, Hgn, Hgt.
    f_equal. f_equal.
    - rewrite <- (sapp_nil_r name) at 1. apply sanitize_suffix; [done|by left].
    - unfold GTEST_TAGS in Htag. rewrite !elem_of_cons, elem_of_nil in Htag.
      destruct Htag as [[= -> ->]|[[= -> ->]|[[= -> ->]|[]]]]; by vm_compute. }
  split; [exact Hsets|]. intros acc. by rewrite gtest_line_sets, Hsets.
Qed.

Lemma gtest_line_recognised_witness :
  script_cpp.sets ("[" +:+ "       " +:+ "OK" +:+ " " +:+ "]" +:+ " " +:+ "M.Add"
                   +:+ " (3 ms)") = Some ("M.Add", "PASSED")
  ∧ script_cpp.sets ("[" +:+ "  " +:+ "FAILED" +:+ "  " +:+ "]" +:+ " " +:+ "M.Add"
                     +:+ "") = Some ("M.Add", "FAILED").
Proof.
  split.
  - apply (gtest_line_recognised "       " "OK" "PASSED" " " " " "M.Add" " (3 ms)");
      [reflexivity
      | apply (bool_decide_unpack _); vm_compute; exact I | reflexivity | reflexivity
      | reflexivity | simpl; lia | discriminate | reflexivity |].
    right. exists " ", "3 ms". split_and!; [reflexivity | simpl; lia | reflexivity..].
  - apply (gtest_line_recognised "  " "FAILED" "FAILED" "  " " " "M.Add" "");
      [reflexivity
      | apply (bool_decide_unpack _); vm_compute; exact I | reflexivity | reflexivity
      | reflexivity | simpl; lia | discriminate | reflexivity | by left].
Defined.

(** ** script.py and script_rust.py: the lines the extractors recognise *)

Section TokenLines.
Implicit Types (line raw name ws tok tail : string).

Lemma seq_space_fails {R} r c g (k : Re.cursor → Re.groups → option R) a s :
  Re.rest c = String a s → Py.is_space a = false →
  Re.run (Re.Rep true 1 Re.space ⋅ r)%re c g k = None.
Proof. intros E Ha. simpl. rewrite E. simpl. unfold Re.space. by rewrite Ha. Qed.

(** What follows the status token in the two patterns. *)
Lemma token_tail_ok c g a tail :
  Re.rest c = tail → Re.prev c = Some a → Py.is_word a = true →
  (tail = "" ∨ ∃ b t, tail = String b t ∧ Py.is_word b = false
                      ∧ Py.all Re.dot tail = true) →
  ∃ c', Re.run (Re.Opt (Re.Bnd ⋅ Re.Rep true 0 Re.dot) ⋅ Re.Eol)%re c g
          (λ c g, Some (c, g)) = Some (c', g).
Proof.
  intros E Hp Ha Htail.
  assert (is_Some (Re.run (Re.Opt (Re.Bnd ⋅ Re.Rep true 0 Re.dot) ⋅ Re.Eol)%re c g
                     (λ c g, Some (c, g)))) as [[c' g'] Hrun].
  { apply (run_complete _ _ _ _ (Re.Cursor (last_char (Re.prev c) tail) "") g); [|done].
    simpl. destruct Htail as [-> | (b & t & -> & Hb & Hdot)].
    - exists c, g. split; [by right|].
      split_and!; [by destruct c; simpl in *; subst|done|].
      unfold Re.at_end. by rewrite E.
    - eexists (Re.Cursor _ ""), g. split; [|done]. left.
      exists c, g. split.
      + split_and!; [done..|]. unfold Re.at_boundary, Re.next.
        rewrite Hp, E. simpl. by rewrite Ha, Hb.
      + exists (String b t). split_and!; [by rewrite E, sapp_nil_r|done|done|lia|done]. }
  exists c'. rewrite Hrun. f_equal. f_equal.
  apply run_exact in Hrun as (c1 & g1 & H & [= -> ->]). simpl in H.
  destruct H as (c2 & g2 & Hopt & (_ & -> & _)).
  destruct Hopt as [(c3 & g3 & (_ & -> & _) & (t & _ & _ & _ & _ & ->)) | [_ ->]]; done.
Qed.

(** The match of [LOG_LINE_RE] on a line of the usual form. *)
Lemma log_line_typical name ws tok tail :
  name ≠ "" → no_space name = true →
  1 ≤ String.length ws → Py.all Py.is_space ws = true →
  tok ∈ script.STATUS_TOKENS →
  (tail = "" ∨ ∃ b t, tail = String b t ∧ Py.is_word b = false
                      ∧ Py.all Re.dot tail = true) →
  ∃ m, Re.rmatch script.LOG_LINE_RE (name +:+ ws +:+ tok +:+ tail) = Some m
       ∧ Re.group m "name" = name ∧ Re.group m "status" = tok.
Proof.
  intros Hne Hname Hl Hws Htok Htail.
  assert (∃ i, script.STATUS_TOKENS !! i = Some tok
            ∧ (∀ j l pv X, j < i → script.STATUS_TOKENS !! j = Some l →
                 Re.eat l (Re.Cursor pv (tok +:+ X)) = None)
            ∧ (∀ X, match tok +:+ X with
                    | String b _ => Re.space b = false
                    | "" => True
                    end)
            ∧ ∀ pv, ∃ a, last_char pv tok = Some a ∧ Py.is_word a = true)
    as (i & Hi & Hbefore & Hfirst & Hlast).
  { unfold script.STATUS_TOKENS in *. rewrite !elem_of_cons, elem_of_nil in Htok.
    destruct Htok as [->|[->|[->|[->|[->|[->|[->|[]]]]]]]];
      [exists 0|exists 1|exists 2|exists 3|exists 4|exists 5|exists 6];
      (split; [done|]); (split; [|split; [done|intros pv; by eexists]]);
      intros j l pv' X Hj Hl'; rewrite !sapp_cons;
      repeat (destruct j as [|j]; [simpl in Hl'; injection Hl' as <-; try done; try lia|]);
      lia. }
  destruct (Hlast (last_char (last_char None name) ws)) as (a & Hprev & Ha).
  destruct (token_tail_ok (Re.Cursor (last_char (last_char (last_char None name) ws) tok) tail)
              (<[ "status" := tok ]> (<[ "name" := name ]> ∅)) a tail eq_refl Hprev Ha Htail)
    as [c' Hend].
  exists (c', <[ "status" := tok ]> (<[ "name" := name ]> ∅)).
  split; [|done].
  unfold Re.rmatch, script.LOG_LINE_RE.
  apply seq_bol.
  eapply seq_grp_lazy; [reflexivity|by apply no_space_dot|destruct name; [done|simpl; lia]| |].
  - intros t1 [|b t2] E Hne2; [done|].
    apply (seq_space_fails _ _ _ _ b (t2 +:+ ws +:+ tok +:+ tail)); [done|].
    rewrite E, no_space_app in Hname. apply andb_true_iff in Hname as [_ H2].
    unfold no_space in H2. simpl in H2. by destruct (Py.is_space b).
  - eapply seq_greedy; [reflexivity|exact Hws|exact Hl|apply Hfirst|].
    eapply (seq_grp_lits _ "status" script.STATUS_TOKENS i tok);
      [exact Hi|intros j l; apply Hbefore|reflexivity| |reflexivity|reflexivity].
    exact Hend.
Qed.

(** The match of [RUST_TEST_LINE_RE] on a line of the usual form. *)
Lemma rust_line_typical ws1 name ws2 ws3 tok st tail :
  name ≠ "" → no_space name = true →
  (1 ≤ String.length ws1 ∧ Py.all Py.is_space ws1 = true) →
  (1 ≤ String.length ws2 ∧ Py.all Py.is_space ws2 = true) →
  (1 ≤ String.length ws3 ∧ Py.all Py.is_space ws3 = true) →
  (tok, st) ∈ RUST_TOKENS →
  (tail = "" ∨ ∃ b t, tail = String b t ∧ Py.is_word b = false
                      ∧ Py.all Re.dot tail = true) →
  ∃ m, Re.rmatch script_rust.RUST_TEST_LINE_RE
         ("test" +:+ ws1 +:+ name +:+ ws2 +:+ "..." +:+ ws3 +:+ tok +:+ tail) = Some m
       ∧ Re.group m "name" = name ∧ Re.group m "status" = tok.
Proof.
  intros Hne Hname [Hl1 Hws1] [Hl2 Hws2] [Hl3 Hws3] Htok Htail.
  assert (∃ i, RUST_TOKENS.*1 !! i = Some tok
            ∧ (∀ j l pv X, j < i → RUST_TOKENS.*1 !! j = Some l →
                 Re.eat l (Re.Cursor pv (tok +:+ X)) = None)
            ∧ (∀ X, match tok +:+ X with
                    | String b _ => Re.space b = false
                    | "" => True
                    end)
            ∧ ∀ pv, ∃ a, last_char pv tok = Some a ∧ Py.is_word a = true)
    as (i & Hi & Hbefore & Hfirst & Hlast).
  { unfold RUST_TOKENS in *. simpl. rewrite !elem_of_cons, elem_of_nil in Htok.
    destruct Htok as [[= -> ->]|[[= -> ->]|[[= -> ->]|[]]]];
      [exists 0|exists 1|exists 2];
      (split; [done|]); (split; [|split; [done|intros pv; by eexists]]);
      intros j l pv' X Hj Hl'; rewrite !sapp_cons;
      repeat (destruct j as [|j]; [simpl in Hl'; injection Hl' as <-; try done; try lia|]);
      lia. }
  set (pv := last_char (last_char (Some "."%char) ws3) tok).
  destruct (Hlast (last_char (Some "."%char) ws3)) as (a & Hprev & Ha).
  destruct (token_tail_ok (Re.Cursor pv tail)
              (<[ "status" := tok ]> (<[ "name" := name ]> ∅)) a tail eq_refl Hprev Ha Htail)
    as [c' Hend].
  exists (c', <[ "status" := tok ]> (<[ "name" := name ]> ∅)).
  split; [|done].
  destruct name as [|b0 name0] eqn:En; [done|]. rewrite <- En in *.
  assert (Py.is_space b0 = false) as Hb0.
  { rewrite En in Hname. unfold no_space in Hname. simpl in Hname.
    by destruct (Py.is_space b0). }
  unfold Re.rmatch, script_rust.RUST_TEST_LINE_RE.
  apply seq_bol.
  eapply seq_lit; [reflexivity|].
  eapply seq_greedy; [reflexivity|exact Hws1|exact Hl1|by rewrite En|].
  eapply seq_grp_lazy; [reflexivity|by apply no_space_dot|rewrite En; simpl; lia| |].
  - intros t1 [|b t2] E Hne2; [done|].
    apply (seq_space_fails _ _ _ _ b
             (t2 +:+ ws2 +:+ "..." +:+ ws3 +:+ tok +:+ tail)); [done|].
    rewrite E, no_space_app in Hname. apply andb_true_iff in Hname as [_ H2].
    unfold no_space in H2. simpl in H2. by destruct (Py.is_space b).
  - eapply seq_greedy; [reflexivity|exact Hws2|exact Hl2|done|].
    eapply seq_lit; [reflexivity|].
    eapply seq_greedy; [reflexivity|exact Hws3|exact Hl3|apply Hfirst|].
    eapply (seq_grp_lits _ "status" (RUST_TOKENS.*1) i tok);
      [exact Hi|intros j l; apply Hbefore|reflexivity| |reflexivity|reflexivity].
    exact Hend.
Qed.

End TokenLines.

(** X26. A line of ASCII text of the usual form is read by the generic
    extractor as one expects: when the trimmed line is a name with no whitespace,
    whitespace, a status token and a tail that is empty or begins with a
    character that is not a letter, a digit or an underscore and holds no
    newline, the line reads as that name and that token; it then sets the
    name to the token, unless the token is RERUN, which changes
    nothing. *)
Theorem pytest_line_recognised (raw name ws tok tail : string) :
  Py.all Py.is_ascii raw = true →
  Py.strip raw = name +:+ ws +:+ tok +:+ tail →
  name ≠ "" → no_space name = true →
  1 ≤ String.length ws → Py.all Py.is_space ws = true →
  tok ∈ script.STATUS_TOKENS →
  (tail = "" ∨ ∃ b t, tail = String b t ∧ Py.is_word b = false
                      ∧ Py.all Re.dot tail = true) →
  script.reads raw = Some (name, tok)
  ∧ ∀ acc, script.log_line acc raw
           = if decide (tok = "RERUN") then acc else <[name := tok]> acc.
Proof.
  intros _ E Hne Hname Hl Hws Htok Htail.
  assert (Hreads : script.reads raw = Some (name, tok)).
  { destruct (log_line_typical name ws tok tail) as (m & Hm & Hgn & Hgt); [done..|].
    unfold script.reads. rewrite E.
    destruct name as [|a name0] eqn:En; [done|]. rewrite sapp_cons. simpl negb.
    cbv iota. rewrite <- sapp_cons, Hm. simpl. rewrite Hgn, Hgt.
    f_equal. f_equal. by apply strip_no_space. }
  split; [exact Hreads|]. intros acc. by rewrite log_line_reads, Hreads.
Qed.

Lemma pytest_line_recognised_witness :
  script.reads "  tests/t.py::a   PASSED [ 50%]  " = Some ("tests/t.py::a", "PASSED")
  ∧ script.log_line ∅ "  tests/t.py::a   PASSED [ 50%]  "
    = {[ "tests/t.py::a" := "PASSED" ]}.
Proof.
  destruct (pytest_line_recognised "  tests/t.py::a   PASSED [ 50%]  "
              "tests/t.py::a" "   " "PASSED" " [ 50%]") as [H1 H2];
    [reflexivity | vm_compute; reflexivity | discriminate | reflexivity | simpl; lia | reflexivity
    | apply (bool_decide_unpack _); vm_compute; exact I
    | right; exists " "%char, "[ 50%]"; split_and!; reflexivity |].
  split; [exact H1|]. rewrite H2. reflexivity.
Defined.

(** X27. A line of ASCII text of the usual cargo form sets the entry one
    expects: when
    the line without its trailing whitespace is the word test,
    whitespace, a name with no whitespace, whitespace, three dots,
    whitespace, one of the tokens ok, FAILED and ignored, and a tail that
    is empty or begins with a character that is not a letter, a digit or
    an underscore and holds no newline, the text pass sets the name to
    PASSED, FAILED or SKIPPED by the token. *)
Theorem rust_line_recognised
    (acc : gmap string string) (raw ws1 name ws2 ws3 tok st tail : string) :
  Py.all Py.is_ascii raw = true →
  Py.rstrip raw = "test" +:+ ws1 +:+ name +:+ ws2 +:+ "..." +:+ ws3 +:+ tok +:+ tail →
  name ≠ "" → no_space name = true →
  (1 ≤ String.length ws1 ∧ Py.all Py.is_space ws1 = true) →
  (1 ≤ String.length ws2 ∧ Py.all Py.is_space ws2 = true) →
  (1 ≤ String.length ws3 ∧ Py.all Py.is_space ws3 = true) →
  (tok, st) ∈ RUST_TOKENS →
  (tail = "" ∨ ∃ b t, tail = String b t ∧ Py.is_word b = false
                      ∧ Py.all Re.dot tail = true) →
  script_rust.text_line acc raw = <[name := st]> acc.
Proof.
  intros _ E Hne Hname H1 H2 H3 Htok Htail.
  destruct (rust_line_typical ws1 name ws2 ws3 tok st tail) as (m & Hm & Hgn & Hgt);
    [done..|].
  unfold script_rust.text_line. rewrite E, sapp_cons. simpl negb. cbv iota.
  rewrite <- sapp_cons, Hm. cbv zeta. rewrite Hgn, Hgt, (strip_no_space name Hname).
  f_equal. unfold RUST_TOKENS in Htok. rewrite !elem_of_cons, elem_of_nil in Htok.
  destruct Htok as [[= -> ->]|[[= -> ->]|[[= -> ->]|[]]]]; by vm_compute.
Qed.

Lemma rust_line_recognised_witness :
  script_rust.text_line ∅ "test util::tests::parses ... ok  "
  = {[ "util::tests::parses" := "PASSED" ]}.
Proof.
  rewrite (rust_line_recognised ∅ "test util::tests::parses ... ok  "
             " " "util::tests::parses" " " " " "ok" "PASSED" "");
    [reflexivity | reflexivity | vm_compute; reflexivity | discriminate | reflexivity
    | split; [simpl; lia | reflexivity] | split; [simpl; lia | reflexivity]
    | split; [simpl; lia | reflexivity]
    | apply (bool_decide_unpack _); vm_compute; exact I | by left].
Defined.

(** The name of an entry of the text pass can be empty: with three
    spaces after the word test, the name group takes the second one. *)
Example rust_blank_name :
  script_rust.text_line ∅ "test   ... ok" = {[ "" := "PASSED" ]}.
Proof. vm_compute. reflexivity. Qed.
